(** * Workflow execution engine: completion evaluation, context extraction,
      cost estimation and the run orchestrator.

    A shallow embedding of [backend/evaluation.py],
    [backend/context_extractor.py], [backend/llm_client.py],
    [backend/executor.py] and the endpoint of [backend/main.py] that starts
    a run, followed by the properties of the engine.

    Conventions.
    - Python [str] is [string]; its characters are read as the code points
      U+0000 .. U+00FF, and the character classes below ([is_space],
      [lower_char], [is_word]) are Python's on that range.
    - Python [int] is [Z]; [Optional[str]] is [option string].
    - [json.loads], [re.search] on a user pattern, the HTTP endpoint, the
      uuid generator and the clock are library or environment behaviour: they
      are the variables of Section [Engine], so every theorem holds for each
      of their possible behaviours.
    - The session takes every write and no commit fails.  [fits_tables]
      states what the tables of [backend/models.py] ask of the rows beyond
      the types used here; the theorems on how a run ends assume it of the
      store the run leaves. *)

From Stdlib Require Import ZArith Floats String Ascii List Bool Lia
  DecimalString Sorted.
From stdpp Require Import base option gmap strings list.

Set Warnings "-register-all,-inexact-float".

Open Scope string_scope.
Open Scope Z_scope.

Arguments String.append !s1 s2 : simpl nomatch.

(* ===================================================================== *)
(** ** Python [str] operations *)
(* ===================================================================== *)

Definition code (c : ascii) : Z := Z.of_N (N_of_ascii c).

Definition in_range (lo hi : Z) (c : ascii) : bool :=
  (lo <=? code c) && (code c <=? hi).

(** [str.isspace] on one character. *)
Definition is_space (c : ascii) : bool :=
  in_range 9 13 c || in_range 28 32 c || (code c =? 133) || (code c =? 160).

(** The upper-case letters, the ones [str.lower] moves. *)
Definition is_upper (c : ascii) : bool :=
  in_range 65 90 c || in_range 192 214 c || in_range 216 222 c.

Definition lower_char (c : ascii) : ascii :=
  if is_upper c then ascii_of_N (N_of_ascii c + 32) else c.

(** [s.lower()] *)
Fixpoint lower (s : string) : string :=
  match s with
  | EmptyString => EmptyString
  | String c s' => String (lower_char c) (lower s')
  end.

(** The class [\w] of [re] on [str] patterns: alphanumerics and [_]. *)
Definition is_word (c : ascii) : bool :=
  in_range 48 57 c || in_range 65 90 c || (code c =? 95) || in_range 97 122 c
  || (code c =? 170) || in_range 178 179 c || (code c =? 181)
  || in_range 185 186 c || in_range 188 190 c
  || in_range 192 214 c || in_range 216 246 c || in_range 248 255 c.

(** [not s]: the empty string is the only falsy one. *)
Definition is_empty (s : string) : bool :=
  match s with EmptyString => true | String _ _ => false end.

(** [s.lstrip()] *)
Fixpoint lstrip (s : string) : string :=
  match s with
  | EmptyString => EmptyString
  | String c s' => if is_space c then lstrip s' else s
  end.

(** [s.rstrip()] *)
Fixpoint rstrip (s : string) : string :=
  match s with
  | EmptyString => EmptyString
  | String c s' =>
      let r := rstrip s' in
      if is_empty r && is_space c then EmptyString else String c r
  end.

(** [s.strip()] *)
Definition strip (s : string) : string := rstrip (lstrip s).

(** Empty, or made of whitespace only. *)
Fixpoint whitespace_only (s : string) : bool :=
  match s with
  | EmptyString => true
  | String c s' => is_space c && whitespace_only s'
  end.

(** [s.startswith(p)] *)
Fixpoint startswith (p s : string) : bool :=
  match p, s with
  | EmptyString, _ => true
  | String _ _, EmptyString => false
  | String a p', String b s' => Ascii.eqb a b && startswith p' s'
  end.

(** [s.find(sub)]: the lowest index where [sub] occurs, [None] for -1. *)
Fixpoint find (sub s : string) : option nat :=
  if startswith sub s then Some 0%nat
  else match s with
       | EmptyString => None
       | String _ s' => S <$> find sub s'
       end.

(** [sub in s] *)
Definition contains (sub s : string) : bool :=
  match find sub s with Some _ => true | None => false end.

(** [s[n:]] *)
Fixpoint drop_str (n : nat) (s : string) : string :=
  match n, s with
  | O, _ => s
  | S n', String _ s' => drop_str n' s'
  | S _, EmptyString => EmptyString
  end.

(** [s[:n]] *)
Fixpoint take_str (n : nat) (s : string) : string :=
  match n, s with
  | S n', String c s' => String c (take_str n' s')
  | _, _ => EmptyString
  end.

(** [s[i:j]] for [0 <= i], [0 <= j]. *)
Definition slice (i j : nat) (s : string) : string :=
  take_str (j - i) (drop_str i s).

(** [sep.join(l)] *)
Fixpoint join (sep : string) (l : list string) : string :=
  match l with
  | [] => EmptyString
  | [x] => x
  | x :: l' => x ++ sep ++ join sep l'
  end.

(** [s.replace(old, new)] for a non-empty [old]: left to right, without
    overlap.  [skip] counts the characters of an occurrence that is being
    replaced and are still to be passed over. *)
Fixpoint replace_from (old new : string) (skip : nat) (s : string) : string :=
  match s with
  | EmptyString => EmptyString
  | String c s' =>
      match skip with
      | S k => replace_from old new k s'
      | O =>
          if startswith old s
          then new ++ replace_from old new (String.length old - 1) s'
          else String c (replace_from old new 0 s')
      end
  end.

Definition replace (old new s : string) : string := replace_from old new 0 s.

(** [str(n)] for an integer. *)
Definition str_of_Z (n : Z) : string :=
  DecimalString.NilZero.string_of_int (Z.to_int n).

(* ===================================================================== *)
(** ** Values decoded by [json.loads] *)
(* ===================================================================== *)

(** A number with a fraction or an exponent is kept as the decimal
    [m * 10^e] that was written; Python turns it into the nearest float. *)
Inductive json : Type :=
| JNull
| JBool (b : bool)
| JInt (n : Z)
| JFloat (m e : Z)
| JNaN
| JInf (negative : bool)
| JStr (s : string)
| JArr (items : list json)
| JObj (members : list (string * json)).

(** [bool(v)].  A float is falsy when it is zero: the decimal [m * 10^e]
    rounds to zero exactly when it is at most half the least subnormal
    number, [2^-1075]. *)
Definition py_bool (v : json) : bool :=
  match v with
  | JNull => false
  | JBool b => b
  | JInt n => negb (n =? 0)
  | JFloat m e =>
      if m =? 0 then false
      else if 0 <=? e then true
      else 10 ^ (- e) <? Z.abs m * 2 ^ 1075
  | JNaN => true
  | JInf _ => true
  | JStr s => negb (is_empty s)
  | JArr items => match items with [] => false | _ => true end
  | JObj members => match members with [] => false | _ => true end
  end.

(** [d.get(key, default)] on a decoded object: a later member with the same
    name replaces an earlier one. *)
Fixpoint dict_get (members : list (string * json)) (key : string)
    (default : json) : json :=
  match members with
  | [] => default
  | (k, v) :: rest =>
      dict_get rest key (if String.eqb k key then v else default)
  end.

(* ===================================================================== *)
(** ** A reference decoder for [json.loads]

    The engine below takes the decoder as a variable.  This one follows the
    grammar CPython's decoder accepts (RFC 8259, plus [NaN], [Infinity] and
    [-Infinity], strict strings) and serves to run the engine on concrete
    texts.  Code points above U+00FF, which a [\u] escape can name, are
    outside the modelled texts; the decoder writes [?] for them. *)
(* ===================================================================== *)

Definition dquote : ascii := "034"%char.
Definition backslash : ascii := "092"%char.
Definition newline : ascii := "010"%char.

Definition is_json_ws (c : ascii) : bool :=
  (code c =? 32) || (code c =? 9) || (code c =? 10) || (code c =? 13).

Fixpoint skip_ws (s : string) : string :=
  match s with
  | String c s' => if is_json_ws c then skip_ws s' else s
  | EmptyString => EmptyString
  end.

Definition is_digit (c : ascii) : bool := in_range 48 57 c.

(** The leading digits of [s], read as a number continuing [acc], how many
    there were, and what follows them. *)
Fixpoint read_digits (acc : Z) (count : Z) (s : string) : Z * Z * string :=
  match s with
  | String c s' =>
      if is_digit c then read_digits (10 * acc + (code c - 48)) (count + 1) s'
      else (acc, count, s)
  | EmptyString => (acc, count, s)
  end.

Definition hex_value (c : ascii) : option Z :=
  if in_range 48 57 c then Some (code c - 48)
  else if in_range 97 102 c then Some (code c - 87)
  else if in_range 65 70 c then Some (code c - 55)
  else None.

Definition read_hex4 (s : string) : option (Z * string) :=
  match s with
  | String a (String b (String c (String d rest))) =>
      match hex_value a, hex_value b, hex_value c, hex_value d with
      | Some x, Some y, Some z, Some w =>
          Some (((x * 16 + y) * 16 + z) * 16 + w, rest)
      | _, _, _, _ => None
      end
  | _ => None
  end.

Definition chr (n : Z) : ascii :=
  if n <? 256 then ascii_of_N (Z.to_N n) else "?"%char.

Definition escape_char (c : ascii) : option ascii :=
  if Ascii.eqb c dquote then Some dquote
  else if Ascii.eqb c backslash then Some backslash
  else if Ascii.eqb c "/" then Some "/"%char
  else if Ascii.eqb c "b" then Some "008"%char
  else if Ascii.eqb c "f" then Some "012"%char
  else if Ascii.eqb c "n" then Some "010"%char
  else if Ascii.eqb c "r" then Some "013"%char
  else if Ascii.eqb c "t" then Some "009"%char
  else None.

(** What follows the escape of code unit [n]: when [n] is a high surrogate
    and the escape of a low surrogate comes next, the two name one code
    point, and the second escape is passed over. *)
Definition after_surrogate (n : Z) (rest : string) : string :=
  if (55296 <=? n) && (n <=? 56319) then
    match rest with
    | String b (String u rest') =>
        if Ascii.eqb b backslash && Ascii.eqb u "u" then
          match read_hex4 rest' with
          | Some (m, rest'') =>
              if (56320 <=? m) && (m <=? 57343) then rest'' else rest
          | None => rest
          end
        else rest
    | _ => rest
    end
  else rest.

(** The body of a string, after its opening quote. *)
Fixpoint read_string (fuel : nat) (s : string) : option (string * string) :=
  match fuel with
  | O => None
  | S fuel' =>
      match s with
      | EmptyString => None
      | String c s' =>
          if Ascii.eqb c dquote then Some (EmptyString, s')
          else if Ascii.eqb c backslash then
            match s' with
            | EmptyString => None
            | String e s'' =>
                if Ascii.eqb e "u" then
                  match read_hex4 s'' with
                  | Some (n, rest) =>
                      match read_string fuel' (after_surrogate n rest) with
                      | Some (body, rest') => Some (String (chr n) body, rest')
                      | None => None
                      end
                  | None => None
                  end
                else
                  match escape_char e with
                  | Some x =>
                      match read_string fuel' s'' with
                      | Some (body, rest) => Some (String x body, rest)
                      | None => None
                      end
                  | None => None
                  end
            end
          else if code c <? 32 then None
          else
            match read_string fuel' s' with
            | Some (body, rest) => Some (String c body, rest)
            | None => None
            end
      end
  end.

(** A number: an optional minus sign, then [0] or a digit string without a
    leading zero, then optionally a point and digits, then optionally [e] or
    [E], a sign and digits; the longest prefix of [s] of that shape. *)
Definition read_number (s : string) : option (json * string) :=
  let (negative, s1) :=
    match s with
    | String "-" s' => (true, s')
    | _ => (false, s)
    end in
  let int_part :=
    match s1 with
    | String "0" s' => Some (0, s')
    | String c _ =>
        if is_digit c then let '(n, _, s') := read_digits 0 0 s1 in Some (n, s')
        else None
    | EmptyString => None
    end in
  match int_part with
  | None => None
  | Some (n, s2) =>
      let '(m, scale, s3, has_frac) :=
        match s2 with
        | String "." (String d _ as s') =>
            if is_digit d
            then let '(m, k, s'') := read_digits n 0 s' in (m, k, s'', true)
            else (n, 0, s2, false)
        | _ => (n, 0, s2, false)
        end in
      let '(ex, s4, has_exp) :=
        match s3 with
        | String e s' =>
            if Ascii.eqb e "e" || Ascii.eqb e "E" then
              let '(minus, s'') :=
                match s' with
                | String "-" t => (true, t)
                | String "+" t => (false, t)
                | _ => (false, s')
                end in
              match s'' with
              | String d _ =>
                  if is_digit d
                  then let '(x, _, t) := read_digits 0 0 s'' in
                       (if minus then - x else x, t, true)
                  else (0, s3, false)
              | EmptyString => (0, s3, false)
              end
            else (0, s3, false)
        | EmptyString => (0, s3, false)
        end in
      let signed := if negative then - m else m in
      if has_frac || has_exp then Some (JFloat signed (ex - scale), s4)
      else Some (JInt signed, s4)
  end.

(** [rest] when [s] is [p ++ rest]. *)
Fixpoint strip_prefix (p s : string) : option string :=
  match p, s with
  | EmptyString, _ => Some s
  | String a p', String b s' =>
      if Ascii.eqb a b then strip_prefix p' s' else None
  | String _ _, EmptyString => None
  end.

Fixpoint read_value (fuel : nat) (s : string) : option (json * string) :=
  match fuel with
  | O => None
  | S fuel' =>
      match s with
      | EmptyString => None
      | String c s' =>
          if Ascii.eqb c dquote then
            match read_string (S (String.length s')) s' with
            | Some (body, rest) => Some (JStr body, rest)
            | None => None
            end
          else if Ascii.eqb c "{" then
            match skip_ws s' with
            | String "}" rest => Some (JObj [], rest)
            | inner =>
                match read_members fuel' inner with
                | Some (members, rest) => Some (JObj members, rest)
                | None => None
                end
            end
          else if Ascii.eqb c "[" then
            match skip_ws s' with
            | String "]" rest => Some (JArr [], rest)
            | inner =>
                match read_items fuel' inner with
                | Some (items, rest) => Some (JArr items, rest)
                | None => None
                end
            end
          else
            match strip_prefix "null" s, strip_prefix "true" s,
                  strip_prefix "false" s, strip_prefix "NaN" s,
                  strip_prefix "Infinity" s, strip_prefix "-Infinity" s with
            | Some rest, _, _, _, _, _ => Some (JNull, rest)
            | _, Some rest, _, _, _, _ => Some (JBool true, rest)
            | _, _, Some rest, _, _, _ => Some (JBool false, rest)
            | _, _, _, Some rest, _, _ => Some (JNaN, rest)
            | _, _, _, _, Some rest, _ => Some (JInf false, rest)
            | _, _, _, _, _, Some rest => Some (JInf true, rest)
            | _, _, _, _, _, _ => read_number s
            end
      end
  end

with read_items (fuel : nat) (s : string) : option (list json * string) :=
  match fuel with
  | O => None
  | S fuel' =>
      match read_value fuel' s with
      | Some (v, rest) =>
          match skip_ws rest with
          | String "]" rest' => Some ([v], rest')
          | String "," rest' =>
              match read_items fuel' (skip_ws rest') with
              | Some (items, rest'') => Some (v :: items, rest'')
              | None => None
              end
          | _ => None
          end
      | None => None
      end
  end

with read_members (fuel : nat) (s : string)
    : option (list (string * json) * string) :=
  match fuel with
  | O => None
  | S fuel' =>
      match s with
      | String c s' =>
          if Ascii.eqb c dquote then
            match read_string (S (String.length s')) s' with
            | Some (key, rest) =>
                match skip_ws rest with
                | String ":" rest' =>
                    match read_value fuel' (skip_ws rest') with
                    | Some (v, rest'') =>
                        match skip_ws rest'' with
                        | String "}" t => Some ([(key, v)], t)
                        | String "," t =>
                            match read_members fuel' (skip_ws t) with
                            | Some (members, t') => Some ((key, v) :: members, t')
                            | None => None
                            end
                        | _ => None
                        end
                    | None => None
                    end
                | _ => None
                end
            | None => None
            end
          else None
      | EmptyString => None
      end
  end.

(** [json.loads(s)]: [Some v] when the text decodes, [None] when the decoder
    raises [JSONDecodeError]. *)
Definition json_loads_ref (s : string) : option json :=
  match read_value (2 * String.length s + 2) (skip_ws s) with
  | Some (v, rest) => if is_empty (skip_ws rest) then Some v else None
  | None => None
  end.

(** Test texts are written with ['] where the text has a double quote. *)
Fixpoint py (s : string) : string :=
  match s with
  | EmptyString => EmptyString
  | String c s' => String (if Ascii.eqb c "'" then dquote else c) (py s')
  end.

(* ===================================================================== *)
(** ** Regular expressions: the fragment the engine's own pattern uses

    A backtracking matcher in continuation style, with [re]'s priorities: a
    greedy operator tries the longer match first, a lazy one the shorter, and
    the first alternative on which the rest of the pattern succeeds wins. *)
(* ===================================================================== *)

Inductive regex : Type :=
| Lit (s : string)                  (* literal text *)
| Cat (r1 r2 : regex)               (* r1 r2 *)
| Opt (r : regex)                   (* r?, greedy *)
| Plus (cls : ascii -> bool)        (* c+, greedy, c a character class *)
| LazyStar (cls : ascii -> bool)    (* c*?, lazy *)
| Group (r : regex).                (* ( r ), the capturing group *)

(** What a match yields: the text of the group, if it took part, and the
    text after the match. *)
Definition match_result : Type := option string * string.

Definition cont : Type := string -> option string -> option match_result.

Fixpoint plus_greedy (cls : ascii -> bool) (s : string)
    (k : string -> option match_result) : option match_result :=
  match s with
  | EmptyString => None
  | String c s' =>
      if cls c then
        match plus_greedy cls s' k with
        | Some r => Some r
        | None => k s'
        end
      else None
  end.

Fixpoint star_lazy (cls : ascii -> bool) (s : string)
    (k : string -> option match_result) : option match_result :=
  match k s with
  | Some r => Some r
  | None =>
      match s with
      | EmptyString => None
      | String c s' => if cls c then star_lazy cls s' k else None
      end
  end.

Fixpoint rmatch (r : regex) (s : string) (cap : option string) (k : cont)
    : option match_result :=
  match r with
  | Lit p =>
      match strip_prefix p s with
      | Some rest => k rest cap
      | None => None
      end
  | Cat r1 r2 => rmatch r1 s cap (fun s' cap' => rmatch r2 s' cap' k)
  | Opt r1 =>
      match rmatch r1 s cap k with
      | Some x => Some x
      | None => k s cap
      end
  | Plus cls => plus_greedy cls s (fun s' => k s' cap)
  | LazyStar cls => star_lazy cls s (fun s' => k s' cap)
  | Group r1 =>
      rmatch r1 s cap
        (fun s' _ =>
           k s' (Some (take_str (String.length s - String.length s') s)))
  end.

(** A match of [r] that starts at the head of [s]. *)
Definition match_here (r : regex) (s : string) : option match_result :=
  rmatch r s None (fun rest cap => Some (cap, rest)).

(** [re.findall(r, s)] for a pattern with one group: the group's text for
    every match, found left to right without overlap.  [skip] counts the
    characters of the last match that are still to be passed over.  (A
    pattern that can match the empty text is not treated the way [re] does;
    the pattern below starts with a literal.) *)
Fixpoint findall_from (r : regex) (skip : nat) (s : string) : list string :=
  match skip with
  | S n =>
      match s with
      | String _ s' => findall_from r n s'
      | EmptyString => []
      end
  | O =>
      match match_here r s with
      | Some (cap, rest) =>
          default EmptyString cap ::
            match s with
            | String _ s' =>
                findall_from r (String.length s - String.length rest - 1) s'
            | EmptyString => []
            end
      | None =>
          match s with
          | String _ s' => findall_from r 0 s'
          | EmptyString => []
          end
      end
  end.

Definition findall (r : regex) (s : string) : list string := findall_from r 0 s.

Definition any_char (c : ascii) : bool := true.

Definition nl : string := String newline EmptyString.

Definition fence : string := "```".

(** The pattern of [extract_code_blocks]: a fence, an optional language tag,
    an optional newline, the captured body (as short as possible, over any
    characters: [re.DOTALL]), a fence. *)
Definition code_block_re : regex :=
  Cat (Lit fence)
    (Cat (Opt (Plus is_word))
       (Cat (Opt (Lit nl))
          (Cat (Group (LazyStar any_char)) (Lit fence)))).

(* ===================================================================== *)
(** ** The store: [backend/models.py] *)
(* ===================================================================== *)

Module WorkflowStep.
Record t : Type := mk {
  id : string;
  workflow_id : string;
  position : Z;
  name : string;
  prompt_template : string;
  model : string;
  max_tokens : Z;
  temperature : float;
  retry_limit : Z;
  context_mode : string;
  rule_type : string;
  rule_value : option string;
  llm_judge_enabled : bool;
  llm_judge_prompt : option string }.
End WorkflowStep.

Module Workflow.
Record t : Type := mk {
  id : string;
  name : string;
  description : option string }.
End Workflow.

Module WorkflowRun.
Record t : Type := mk {
  id : string;
  workflow_id : string;
  status : string;
  failure_reason : option string;
  started_at : option Z;
  completed_at : option Z }.

Definition set_status (v : string) (r : t) : t :=
  mk (id r) (workflow_id r) v (failure_reason r) (started_at r) (completed_at r).
Definition set_failure_reason (v : string) (r : t) : t :=
  mk (id r) (workflow_id r) (status r) (Some v) (started_at r) (completed_at r).
Definition set_started_at (v : Z) (r : t) : t :=
  mk (id r) (workflow_id r) (status r) (failure_reason r) (Some v) (completed_at r).
Definition set_completed_at (v : Z) (r : t) : t :=
  mk (id r) (workflow_id r) (status r) (failure_reason r) (started_at r) (Some v).
End WorkflowRun.

Module StepRun.
Record t : Type := mk {
  id : string;
  workflow_run_id : string;
  workflow_step_id : string;
  position : Z;
  status : string;
  attempt_number : Z;
  input_context : option string;
  output : option string;
  extracted_context : option string;
  evaluation_result : option json;
  failure_reason : option json;
  started_at : option Z;
  completed_at : option Z }.

Definition set_status (v : string) (r : t) : t :=
  mk (id r) (workflow_run_id r) (workflow_step_id r) (position r) v
     (attempt_number r) (input_context r) (output r) (extracted_context r)
     (evaluation_result r) (failure_reason r) (started_at r) (completed_at r).
Definition set_attempt_number (v : Z) (r : t) : t :=
  mk (id r) (workflow_run_id r) (workflow_step_id r) (position r) (status r)
     v (input_context r) (output r) (extracted_context r)
     (evaluation_result r) (failure_reason r) (started_at r) (completed_at r).
Definition set_output (v : string) (r : t) : t :=
  mk (id r) (workflow_run_id r) (workflow_step_id r) (position r) (status r)
     (attempt_number r) (input_context r) (Some v) (extracted_context r)
     (evaluation_result r) (failure_reason r) (started_at r) (completed_at r).
Definition set_extracted_context (v : string) (r : t) : t :=
  mk (id r) (workflow_run_id r) (workflow_step_id r) (position r) (status r)
     (attempt_number r) (input_context r) (output r) (Some v)
     (evaluation_result r) (failure_reason r) (started_at r) (completed_at r).
Definition set_evaluation_result (v : json) (r : t) : t :=
  mk (id r) (workflow_run_id r) (workflow_step_id r) (position r) (status r)
     (attempt_number r) (input_context r) (output r) (extracted_context r)
     (Some v) (failure_reason r) (started_at r) (completed_at r).
Definition set_failure_reason (v : json) (r : t) : t :=
  mk (id r) (workflow_run_id r) (workflow_step_id r) (position r) (status r)
     (attempt_number r) (input_context r) (output r) (extracted_context r)
     (evaluation_result r) (Some v) (started_at r) (completed_at r).
Definition set_completed_at (v : Z) (r : t) : t :=
  mk (id r) (workflow_run_id r) (workflow_step_id r) (position r) (status r)
     (attempt_number r) (input_context r) (output r) (extracted_context r)
     (evaluation_result r) (failure_reason r) (started_at r) (Some v).
End StepRun.

Module LLMLog.
Record t : Type := mk {
  id : string;
  step_run_id : string;
  call_type : string;
  attempt_number : Z;
  prompt : string;
  response : string;
  input_tokens : Z;
  output_tokens : Z;
  total_tokens : Z;
  cost_usd : float;
  model : string;
  latency_ms : Z }.
End LLMLog.

(** The session.  A table is the list of its rows; an object the orchestrator
    holds and keeps mutating (the run, the current [StepRun]) is known by its
    place in its table.  A write to an attribute is a write to the store: the
    commits, which publish it, are not separate steps, and none of them
    fails.  An attribute holds the value the code assigns to it, also where
    the column of [models.py] is narrower: [fits_tables] says when the
    tables take the rows of a store. *)
Record database : Type := mk_database {
  workflows : list Workflow.t;
  workflow_steps : list WorkflowStep.t;
  workflow_runs : list WorkflowRun.t;
  step_runs : list StepRun.t;
  llm_logs : list LLMLog.t }.

(** The store together with how many requests, identifiers and clock
    readings were drawn from the environment so far. *)
Record world : Type := mk_world {
  db : database;
  http_calls : nat;
  uuids : nat;
  ticks : nat }.

Definition with_db (f : database -> database) (w : world) : world :=
  mk_world (f (db w)) (http_calls w) (uuids w) (ticks w).

Definition add_step_run (r : StepRun.t) (d : database) : database :=
  mk_database (workflows d) (workflow_steps d) (workflow_runs d)
    (step_runs d ++ [r]) (llm_logs d).

Definition add_llm_log (l : LLMLog.t) (d : database) : database :=
  mk_database (workflows d) (workflow_steps d) (workflow_runs d)
    (step_runs d) (llm_logs d ++ [l]).

Definition update_step_run (ix : nat) (f : StepRun.t -> StepRun.t)
    (d : database) : database :=
  mk_database (workflows d) (workflow_steps d) (workflow_runs d)
    (alter f ix (step_runs d)) (llm_logs d).

Definition update_run (ix : nat) (f : WorkflowRun.t -> WorkflowRun.t)
    (d : database) : database :=
  mk_database (workflows d) (workflow_steps d)
    (alter f ix (workflow_runs d)) (step_runs d) (llm_logs d).


(* ===================================================================== *)
(** ** Computations: state, exceptions, and the loop bound *)
(* ===================================================================== *)

Inductive exn : Type :=
| RuntimeError (msg : string)
| AttributeError (msg : string).

(** [str(e)] *)
Definition exn_str (e : exn) : string :=
  match e with RuntimeError m => m | AttributeError m => m end.

Inductive result (A : Type) : Type :=
| Ok (a : A)
| Raise (e : exn)
| OutOfFuel.
Arguments Ok {A} a.
Arguments Raise {A} e.
Arguments OutOfFuel {A}.

Definition M (A : Type) : Type := world -> result A * world.

Definition ret {A : Type} (a : A) : M A := fun w => (Ok a, w).

Definition raise {A : Type} (e : exn) : M A := fun w => (Raise e, w).

Definition bind {A B : Type} (c : M A) (k : A -> M B) : M B :=
  fun w =>
    match c w with
    | (Ok a, w') => k a w'
    | (Raise e, w') => (Raise e, w')
    | (OutOfFuel, w') => (OutOfFuel, w')
    end.

(** [try: c  except Exception as e: h e] *)
Definition try_except {A : Type} (c : M A) (h : exn -> M A) : M A :=
  fun w =>
    match c w with
    | (Raise e, w') => h e w'
    | other => other
    end.

Definition get : M world := fun w => (Ok w, w).

Definition modify (f : world -> world) : M unit := fun w => (Ok tt, f w).

Notation "'let*' x ':=' c 'in' k" := (bind c (fun x => k))
  (at level 10, x name, c at level 100, k at level 200, only parsing).
Notation "'let*' ' pat ':=' c 'in' k" :=
  (bind c (fun x => match x with pat => k end))
  (at level 10, pat pattern, c at level 100, k at level 200, only parsing).
Notation "'do' c 'in' k" := (bind c (fun _ => k))
  (at level 10, c at level 100, k at level 200, only parsing).

(** A Python [dict] with string keys, in insertion order. *)
Definition dict : Type := list (string * json).

(** [d[key] = v] *)
Fixpoint dict_set (d : dict) (key : string) (v : json) : dict :=
  match d with
  | [] => [(key, v)]
  | (k, x) :: rest =>
      if String.eqb k key then (k, v) :: rest
      else (k, x) :: dict_set rest key v
  end.

(** [None] or a string, as a value. *)
Definition opt_str (o : option string) : json :=
  match o with Some s => JStr s | None => JNull end.

(** [x or d] for an optional string. *)
Definition or_str (x : option string) (d : string) : string :=
  match x with
  | Some s => if is_empty s then d else s
  | None => d
  end.

Record message : Type := mk_message { role : string; content : string }.

Definition message_value (m : message) : json :=
  JObj [("role", JStr (role m)); ("content", JStr (content m))].

Record request : Type := mk_request {
  req_model : string;
  req_messages : list message;
  req_max_tokens : Z;
  req_temperature : float }.

(** How one POST to the chat endpoint ends.  [HttpOk] carries what the client
    reads off a 2xx response: the content of the first choice (empty when
    absent), the two token counts of [usage] (0 when absent), and the
    milliseconds elapsed since the client started. *)
Inductive http_outcome : Type :=
| HttpOk (text : string) (prompt_tokens completion_tokens : Z) (elapsed_ms : Z)
| TransportError (repr : string)
| HTTPStatusError (status_code : Z) (text : string)
| OtherError (repr : string).

(** What an endpoint raises to refuse a request. *)
Module HTTPException.
Record t : Type := mk { status_code : Z; detail : string }.
End HTTPException.

(** Stable sort by a key: [sorted(l, key=...)].  The rows are inserted from
    the last to the first, each before the rows with a key that is not
    smaller, so that rows with equal keys keep their order. *)
Fixpoint insert_by {A : Type} (key : A -> Z) (x : A) (l : list A) : list A :=
  match l with
  | [] => [x]
  | y :: l' => if key x <=? key y then x :: l else y :: insert_by key x l'
  end.

Definition sorted_by {A : Type} (key : A -> Z) (l : list A) : list A :=
  foldr (insert_by key) [] l.

(** [int] to [float], as the true division of two [int]s makes it; exact
    up to [2^53] in absolute value, which token counts stay far below. *)
Definition float_of_int (n : Z) : float :=
  if 0 <=? n then PrimFloat.of_uint63 (Uint63.of_Z n)
  else (- PrimFloat.of_uint63 (Uint63.of_Z (- n)))%float.

(* ===================================================================== *)
(** ** The engine *)
(* ===================================================================== *)

Section Engine.

(** [json.loads]: [None] stands for [JSONDecodeError]. *)
Variable json_loads : string -> option json.
(** [re.search(pattern, text, re.DOTALL)] as a truth value; [None] stands
    for [re.error]. *)
Variable re_search : string -> string -> option bool.
(** [repr] of a value. *)
Variable py_repr : json -> string.
(** The endpoint's answer to the n-th request, the n-th identifier of
    [uuid.uuid4] and the n-th reading of the clock. *)
Variable http_post : nat -> request -> http_outcome.
Variable uuid4 : nat -> string.
Variable utcnow : nat -> Z.

(** [str(v)] *)
Definition py_str (v : json) : string :=
  match v with JStr s => s | _ => py_repr v end.

(** [repr(e)] of an exception. *)
Definition exn_repr (e : exn) : string :=
  match e with
  | RuntimeError m => "RuntimeError(" ++ py_repr (JStr m) ++ ")"
  | AttributeError m => "AttributeError(" ++ py_repr (JStr m) ++ ")"
  end.

Definition post (req : request) : M http_outcome :=
  fun w =>
    (Ok (http_post (http_calls w) req),
     mk_world (db w) (S (http_calls w)) (uuids w) (ticks w)).

Definition new_uuid : M string :=
  fun w =>
    (Ok (uuid4 (uuids w)),
     mk_world (db w) (http_calls w) (S (uuids w)) (ticks w)).

Definition now : M Z :=
  fun w =>
    (Ok (utcnow (ticks w)),
     mk_world (db w) (http_calls w) (uuids w) (S (ticks w))).

(* ------------------------------------------------------------------- *)
(** *** [backend/llm_client.py] *)
(* ------------------------------------------------------------------- *)

Record price : Type := mk_price { input : float; output : float }.

Definition MODEL_COSTS : gmap string price :=
  <["kimi-k2p5" := mk_price 0.0003 0.0012]>
    (<["kimi-k2-instruct-0905" := mk_price 0.0003 0.0012]> ∅).

(** [MODEL_COSTS["kimi-k2p5"]]; the key is present. *)
Definition default_costs : price :=
  default (mk_price 0 0) (MODEL_COSTS !! "kimi-k2p5").

Definition _estimate_cost (model : string) (input_tokens output_tokens : Z)
    : float :=
  let costs := default default_costs (MODEL_COSTS !! model) in
  ((float_of_int input_tokens / 1000 * input costs)
   + (float_of_int output_tokens / 1000 * output costs))%float.

(** [for attempt in range(2)], from the given attempts on.  A transport
    error is retried once; the second one leaves the loop. *)
Fixpoint call_llm_from (attempts : list Z) (req : request)
    (last_error : string) : M (string * Z * Z * float * Z) :=
  match attempts with
  | [] =>
      raise (RuntimeError
               ("Unbound transport failure after retry: " ++ last_error))
  | attempt :: rest =>
      let* outcome := post req in
      match outcome with
      | HttpOk text input_tokens output_tokens latency_ms =>
          ret (text, input_tokens, output_tokens,
               _estimate_cost (req_model req) input_tokens output_tokens,
               latency_ms)
      | TransportError e =>
          if attempt =? 1
          then raise (RuntimeError
                        ("Unbound transport failure after retry: " ++ e))
          else call_llm_from rest req e
      | HTTPStatusError status_code text =>
          raise (RuntimeError
                   ("Unbound API HTTP error " ++ str_of_Z status_code
                    ++ ": " ++ text))
      | OtherError repr =>
          raise (RuntimeError ("Unbound client error: " ++ repr))
      end
  end.

Definition call_llm (messages : list message) (model : string)
    (max_tokens : Z) (temperature : float)
    : M (string * Z * Z * float * Z) :=
  call_llm_from [0; 1] (mk_request model messages max_tokens temperature)
    "None".

(* ------------------------------------------------------------------- *)
(** *** [backend/evaluation.py] *)
(* ------------------------------------------------------------------- *)

Definition _rule_contains (text value : string) : bool :=
  negb (is_empty value) && negb (is_empty text) && contains value text.

Definition _rule_regex (text pattern : string) : bool :=
  if is_empty text || is_empty pattern then false
  else match re_search pattern text with
       | Some found => found
       | None => false
       end.

Definition _rule_json_valid (text : string) (_ : string) : bool :=
  if is_empty text then false
  else match json_loads text with
       | Some _ => true
       | None => false
       end.

Definition _rule_code_block_present (text : string) (_ : string) : bool :=
  negb (is_empty text) && contains fence text.

Definition RULE_HANDLERS : gmap string (string -> string -> bool) :=
  <["contains" := _rule_contains]>
    (<["regex" := _rule_regex]>
       (<["json_valid" := _rule_json_valid]>
          (<["code_block_present" := _rule_code_block_present]> ∅))).

Definition evaluate_rule (rule_type : string) (rule_value : option string)
    (output : option string) : bool * string :=
  match RULE_HANDLERS !! rule_type with
  | None => (false, "Unknown rule type: " ++ rule_type)
  | Some handler =>
      let passed : bool :=
        handler (or_str output "") (or_str rule_value "") in
      let reason :=
        "Rule '" ++ rule_type ++ "' "
        ++ (if passed then "passed" else "failed") in
      (passed, reason)
  end.

Definition default_prompt : string :=
  "Evaluate if the following output meets the expected quality and completeness. "
  ++ py "Respond ONLY in JSON: {'pass': true/false, 'reason': '...'}".

(** The request of the judge: the prompt, or the default one, followed by
    the output. *)
Definition judge_messages (output : string) (judge_prompt : option string)
    : list message :=
  let prompt := or_str judge_prompt default_prompt in
  let full_prompt :=
    prompt ++ nl ++ nl ++ "---" ++ nl ++ "Output:" ++ nl ++ output in
  [mk_message "user" full_prompt].

(** The reading of the judge's response: the [try] block and its handler.
    A response that decodes to anything but an object has no [get], which
    raises inside the [try] as well. *)
Definition judge_verdict (content : string) : bool * json :=
  match json_loads content with
  | Some (JObj data) =>
      (py_bool (dict_get data "pass" (JBool false)),
       dict_get data "reason" (JStr "No reason provided"))
  | _ =>
      let passed := contains "true" (lower content) in
      (passed, JStr (strip content))
  end.

Definition evaluate_llm_judge (output : string)
    (judge_prompt : option string) (model : string) : M (bool * json) :=
  let messages := judge_messages output judge_prompt in
  let* '(content, _, _, _, _) := call_llm messages model 512 0.7 in
  ret (judge_verdict content).

(** The record of a success. *)
Definition success (details : dict) : dict :=
  [("passed", JBool true); ("details", JObj details); ("error", JNull)].

Definition evaluate_completion (output : string) (rule_type : string)
    (rule_value : option string) (llm_judge_enabled : bool)
    (llm_judge_prompt : option string) (model : string)
    : M (bool * dict) :=
  try_except
    (if is_empty output || is_empty (strip output) then
       ret (false,
            [("passed", JBool false);
             ("reason", JStr "LLM output was empty");
             ("details", JObj []);
             ("error", JNull)])
     else
       let details : dict :=
         [("rule_passed", JNull); ("rule_reason", JNull);
          ("llm_judge_passed", JNull); ("llm_judge_reason", JNull)] in
       let '(rule_passed, rule_reason) :=
         evaluate_rule rule_type rule_value (Some output) in
       let details := dict_set details "rule_passed" (JBool rule_passed) in
       let details := dict_set details "rule_reason" (JStr rule_reason) in
       if negb rule_passed then
         ret (false,
              [("passed", JBool false);
               ("reason", JStr rule_reason);
               ("details", JObj details);
               ("error", JNull)])
       else
         if llm_judge_enabled then
           let* '(llm_passed, llm_reason) :=
             evaluate_llm_judge output llm_judge_prompt model in
           let details :=
             dict_set details "llm_judge_passed" (JBool llm_passed) in
           let details :=
             dict_set details "llm_judge_reason" llm_reason in
           if negb llm_passed then
             ret (false,
                  [("passed", JBool false);
                   ("reason", llm_reason);
                   ("details", JObj details);
                   ("error", JNull)])
           else ret (true, success details)
         else ret (true, success details))
    (fun e => ret (false, [("error", JStr (exn_repr e))])).

(* ------------------------------------------------------------------- *)
(** *** [backend/context_extractor.py] *)
(* ------------------------------------------------------------------- *)

Definition extract_code_blocks (text : string) : string :=
  let blocks := findall code_block_re text in
  match blocks with
  | [] => ""
  | _ => join (nl ++ nl) (map strip blocks)
  end.

(** The [while i < len(text)] loop of [extract_json]; [rest] is
    [text[i:]]. *)
Fixpoint scan_json (start_char end_char : ascii) (text : string)
    (start : nat) (i : nat) (depth : Z) (rest : string) : option string :=
  match rest with
  | EmptyString => None
  | String c rest' =>
      if Ascii.eqb c start_char then
        scan_json start_char end_char text start (S i) (depth + 1) rest'
      else if Ascii.eqb c end_char then
        let depth := depth - 1 in
        if depth =? 0 then
          let candidate := slice start (i + 1) text in
          match json_loads candidate with
          | Some _ => Some candidate
          | None =>
              scan_json start_char end_char text start (S i) depth rest'
          end
        else scan_json start_char end_char text start (S i) depth rest'
      else scan_json start_char end_char text start (S i) depth rest'
  end.

(** The [for start_char, end_char in ...] loop. *)
Fixpoint extract_json_from (pairs : list (ascii * ascii)) (text : string)
    : string :=
  match pairs with
  | [] => ""
  | (start_char, end_char) :: pairs' =>
      match find (String start_char EmptyString) text with
      | None => extract_json_from pairs' text
      | Some start =>
          match scan_json start_char end_char text start start 0
                  (drop_str start text) with
          | Some candidate => candidate
          | None => extract_json_from pairs' text
          end
      end
  end.

Definition extract_json (text : string) : string :=
  extract_json_from [("{"%char, "}"%char); ("["%char, "]"%char)] text.

Definition extract_summary (text : string) (model : string) : M string :=
  if Z.of_nat (String.length text) <? 500 then ret text
  else
    let messages :=
      [mk_message "user"
         ("Summarize the following in 2-4 sentences, preserving key facts and outputs:"
          ++ nl ++ nl ++ text)] in
    let* '(summary, _, _, _, _) := call_llm messages model 256 0.7 in
    ret (strip summary).

Definition extract_context (text : string) (mode : string) : string :=
  if String.eqb mode "full" then text
  else if String.eqb mode "code_only" then extract_code_blocks text
  else if String.eqb mode "json_only" then extract_json text
  else text.

Definition extract_context_async (text : string) (mode : string)
    (model : string) : M string :=
  if String.eqb mode "summary" then extract_summary text model
  else ret (extract_context text mode).

(* ------------------------------------------------------------------- *)
(** *** [backend/executor.py] *)
(* ------------------------------------------------------------------- *)

Definition RETRY_FEEDBACK_TEMPLATE (feedback : string) : string :=
  nl ++ "---" ++ nl ++ "Previous attempt failed. Feedback:" ++ nl
  ++ feedback ++ nl ++ nl
  ++ "Please address the above and try again. Your revised response:" ++ nl.

Definition _build_messages (prompt_template : string)
    (context : option string) (retry_feedback : option string)
    : M (list message) :=
  let prompt := replace "{{context}}" (or_str context "") prompt_template in
  if contains "{{context}}" prompt then
    raise (RuntimeError "Context placeholder '{{context}}' was not replaced")
  else
    let system_content :=
      if is_empty (or_str retry_feedback "") then ""
      else RETRY_FEEDBACK_TEMPLATE (or_str retry_feedback "") in
    let messages := [] in
    let messages :=
      if is_empty system_content then messages
      else (messages ++ [mk_message "system" system_content])%list in
    ret (messages ++ [mk_message "user" prompt])%list.

(** An assignment to an attribute of the [StepRun] object at [ix]. *)
Definition write_step_run (ix : nat) (f : StepRun.t -> StepRun.t)
    (step_run : StepRun.t) : M StepRun.t :=
  do modify (with_db (update_step_run ix f)) in
  ret (f step_run).

(** An assignment to an attribute of the run object at [ix]. *)
Definition write_run (ix : nat) (f : WorkflowRun.t -> WorkflowRun.t)
    : M unit :=
  modify (with_db (update_run ix f)).

(** The end of [_execute_single_step]: the fallback to the trimmed output
    and the refusal of an empty context. *)
Definition checked_context (step : WorkflowStep.t) (content extracted : string)
    : M string :=
  let extracted :=
    if negb (String.eqb (WorkflowStep.context_mode step) "full")
       && is_empty (strip extracted)
    then strip content else extracted in
  if is_empty (strip extracted) then
    raise (RuntimeError
             ("Context extraction failed for step '"
              ++ WorkflowStep.name step ++ "' (mode="
              ++ WorkflowStep.context_mode step ++ ")"))
  else ret extracted.

Definition _execute_single_step (step : WorkflowStep.t)
    (step_run : StepRun.t) (input_context : option string)
    (retry_feedback : option string)
    : M (string * string * bool * dict) :=
  let* messages :=
    _build_messages (WorkflowStep.prompt_template step) input_context
      retry_feedback in
  let* '(content, in_tok, out_tok, cost, latency) :=
    call_llm messages (WorkflowStep.model step)
      (WorkflowStep.max_tokens step) (WorkflowStep.temperature step) in
  let* log_id := new_uuid in
  let llm_log :=
    LLMLog.mk log_id (StepRun.id step_run)
      (if is_empty (or_str retry_feedback "") then "main" else "retry")
      (StepRun.attempt_number step_run)
      (py_repr (JArr (map message_value messages)))
      content in_tok out_tok (in_tok + out_tok) cost
      (WorkflowStep.model step) latency in
  do modify (with_db (add_llm_log llm_log)) in
  let* '(passed, eval_result) :=
    evaluate_completion content (WorkflowStep.rule_type step)
      (WorkflowStep.rule_value step) (WorkflowStep.llm_judge_enabled step)
      (WorkflowStep.llm_judge_prompt step) (WorkflowStep.model step) in
  let* extracted :=
    extract_context_async content (WorkflowStep.context_mode step)
      (WorkflowStep.model step) in
  let* extracted := checked_context step content extracted in
  ret (content, extracted, passed, eval_result).

(** What the orchestrator knows when the retry loop of a step is over. *)
Record loop_exit : Type := mk_loop_exit {
  exit_passed : bool;
  exit_failure_reason : json;
  exit_context : option string;
  exit_step_run : StepRun.t }.

(** [while retry_count <= step.retry_limit: ...].  [fuel] bounds the
    number of passes; [run_steps] gives enough of it. *)
Fixpoint retry_loop (fuel : nat) (step : WorkflowStep.t) (ix : nat)
    (step_run : StepRun.t) (accumulated_context : option string)
    (retry_count : Z) (failure_reason : json) : M loop_exit :=
  if retry_count <=? WorkflowStep.retry_limit step then
    match fuel with
    | O => fun w => (OutOfFuel, w)
    | S fuel' =>
        let* step_run :=
          write_step_run ix (StepRun.set_attempt_number (retry_count + 1))
            step_run in
        let retry_feedback :=
          if 0 <? retry_count
          then Some ("Attempt " ++ str_of_Z retry_count
                     ++ " failed. Reason: " ++ py_str failure_reason)
          else None in
        let* attempt :=
          try_except
            (let* r :=
               _execute_single_step step step_run accumulated_context
                 retry_feedback in
             ret (inl r))
            (fun e => ret (inr e)) in
        match attempt with
        | inl (output, extracted, true, eval_result) =>
            let* step_run :=
              write_step_run ix (StepRun.set_status "completed") step_run in
            let* step_run :=
              write_step_run ix (StepRun.set_output output) step_run in
            let* step_run :=
              write_step_run ix (StepRun.set_extracted_context extracted)
                step_run in
            let* step_run :=
              write_step_run ix (StepRun.set_evaluation_result (JObj eval_result))
                step_run in
            let* t := now in
            let* step_run :=
              write_step_run ix (StepRun.set_completed_at t) step_run in
            ret (mk_loop_exit true failure_reason (Some extracted) step_run)
        | _ =>
            let eval_result : dict :=
              match attempt with
              | inl (_, _, _, eval_result) => eval_result
              | inr e => [("error", JStr (exn_str e))]
              end in
            let* step_run :=
              write_step_run ix (StepRun.set_evaluation_result (JObj eval_result))
                step_run in
            let reason := dict_get eval_result "reason" JNull in
            let failure_reason :=
              if py_bool reason then reason
              else JStr (py_repr (JObj eval_result)) in
            retry_loop fuel' step ix step_run accumulated_context
              (retry_count + 1) failure_reason
        end
    end
  else
    ret (mk_loop_exit false failure_reason accumulated_context step_run).

(** [for step in steps: ...]; [true] when the loop ran to its end, [false]
    when a failed step made [run_workflow] return. *)
Fixpoint run_steps (run_ix : nat) (run : WorkflowRun.t)
    (steps : list WorkflowStep.t) (accumulated_context : option string)
    : M bool :=
  match steps with
  | [] => ret true
  | step :: steps' =>
      let* step_run_id := new_uuid in
      let* t := now in
      let step_run :=
        StepRun.mk step_run_id (WorkflowRun.id run) (WorkflowStep.id step)
          (WorkflowStep.position step) "running" 1 accumulated_context
          None None None None (Some t) None in
      let* w := get in
      let ix := List.length (step_runs (db w)) in
      do modify (with_db (add_step_run step_run)) in
      let* exit :=
        retry_loop (Z.to_nat (WorkflowStep.retry_limit step + 1)) step ix
          step_run accumulated_context 0 (JStr "") in
      if negb (exit_passed exit) then
        let failure_reason := exit_failure_reason exit in
        let* step_run :=
          write_step_run ix (StepRun.set_status "failed")
            (exit_step_run exit) in
        let* step_run :=
          write_step_run ix (StepRun.set_failure_reason failure_reason)
            step_run in
        let* t := now in
        let* step_run :=
          write_step_run ix (StepRun.set_completed_at t) step_run in
        do write_run run_ix (WorkflowRun.set_status "failed") in
        do write_run run_ix
             (WorkflowRun.set_failure_reason
                ("Step '" ++ WorkflowStep.name step ++ "' failed after "
                 ++ str_of_Z (WorkflowStep.retry_limit step)
                 ++ " retries: " ++ py_str failure_reason)) in
        let* t := now in
        do write_run run_ix (WorkflowRun.set_completed_at t) in
        ret false
      else run_steps run_ix run steps' (exit_context exit)
  end.

(** [workflow.steps]: the steps of the workflow, by position. *)
Definition steps_of (workflow : Workflow.t) (d : database)
    : list WorkflowStep.t :=
  sorted_by WorkflowStep.position
    (List.filter
       (fun s => String.eqb (WorkflowStep.workflow_id s) (Workflow.id workflow))
       (workflow_steps d)).

(** [db.query(T).filter(T.id == key).first()]: the first row with that id
    and its place, if there is one. *)
Definition first_run (key : string) (d : database)
    : option (nat * WorkflowRun.t) :=
  list_find (fun r => WorkflowRun.id r = key) (workflow_runs d).

Definition first_workflow (key : string) (d : database)
    : option (nat * Workflow.t) :=
  list_find (fun x => Workflow.id x = key) (workflows d).

Definition run_workflow (workflow_run_id : string) : M unit :=
  let* w := get in
  match first_run workflow_run_id (db w) with
  | None => ret tt
  | Some (run_ix, run) =>
      if negb (String.eqb (WorkflowRun.status run) "pending") then ret tt
      else
        do write_run run_ix (WorkflowRun.set_status "running") in
        let* t := now in
        do write_run run_ix (WorkflowRun.set_started_at t) in
        match first_workflow (WorkflowRun.workflow_id run) (db w) with
        | None =>
            raise (AttributeError
                     "'NoneType' object has no attribute 'steps'")
        | Some (_, workflow) =>
            let steps :=
              sorted_by WorkflowStep.position (steps_of workflow (db w)) in
            try_except
              (let* finished := run_steps run_ix run steps None in
               if finished then
                 do write_run run_ix (WorkflowRun.set_status "completed") in
                 let* t := now in
                 write_run run_ix (WorkflowRun.set_completed_at t)
               else ret tt)
              (fun e =>
                 do write_run run_ix (WorkflowRun.set_status "failed") in
                 do write_run run_ix
                      (WorkflowRun.set_failure_reason (exn_str e)) in
                 let* t := now in
                 do write_run run_ix (WorkflowRun.set_completed_at t) in
                 raise e)
        end
  end.

(* ------------------------------------------------------------------- *)
(** *** [backend/main.py]: the endpoint that starts a run *)
(* ------------------------------------------------------------------- *)


End Engine.

(* ===================================================================== *)
(** ** A scripted environment, to run the engine on concrete inputs *)
(* ===================================================================== *)

(** [re.search] on patterns without special characters, where it is a
    substring test.  It stands in for [re] on concrete inputs only. *)
Definition re_search_literal (pattern text : string) : option bool :=
  Some (contains pattern text).

(** A plain rendering of a value, standing in for [repr]. *)
Fixpoint repr_ref (v : json) : string :=
  match v with
  | JNull => "None"
  | JBool true => "True"
  | JBool false => "False"
  | JInt n => str_of_Z n
  | JFloat m e => str_of_Z m ++ "e" ++ str_of_Z e
  | JNaN => "nan"
  | JInf false => "inf"
  | JInf true => "-inf"
  | JStr s => "'" ++ s ++ "'"
  | JArr items => "[" ++ join ", " (map repr_ref items) ++ "]"
  | JObj members =>
      "{" ++ join ", " (map (fun kv => "'" ++ fst kv ++ "': " ++ repr_ref (snd kv))
                            members) ++ "}"
  end.

(** An endpoint that answers the n-th request with the n-th text of a
    script, and with a transport error once the script is over. *)
Definition scripted (script : list string) (n : nat) (_ : request)
    : http_outcome :=
  match script !! n with
  | Some text => HttpOk text 10 20 5
  | None => TransportError "ConnectError('down')"
  end.

Definition uuid_ref (n : nat) : string := "id-" ++ str_of_Z (Z.of_nat n).

Definition clock_ref (n : nat) : Z := 1000 + Z.of_nat n.

Definition step_ref (id : string) (position : Z) (retry_limit : Z)
    (context_mode rule_type : string) (rule_value : option string)
    : WorkflowStep.t :=
  WorkflowStep.mk id "wf" position id "Task: {{context}}" "kimi-k2p5" 4096 0.7
    retry_limit context_mode rule_type rule_value false None.

(** A store with one workflow of the given steps and one pending run of it. *)
Definition store_ref (steps : list WorkflowStep.t) : world :=
  mk_world
    (mk_database
       [Workflow.mk "wf" "demo" None]
       steps
       [WorkflowRun.mk "run" "wf" "pending" None None None]
       [] [])
    0 0 0.

Definition run_ref (script : list string) (steps : list WorkflowStep.t)
    : result unit * world :=
  run_workflow json_loads_ref re_search_literal repr_ref (scripted script)
    uuid_ref clock_ref "run" (store_ref steps).

Definition two_steps : list WorkflowStep.t :=
  [step_ref "s2" 2 0 "full" "contains" (Some "ok");
   step_ref "s1" 1 1 "code_only" "contains" (Some "pass")].

(** A step with a judge and no retry, followed by a step whose rule type has
    no handler. *)
Definition judged_steps : list WorkflowStep.t :=
  [WorkflowStep.mk "s1" "wf" 1 "s1" "Task: {{context}}" "kimi-k2p5" 4096 0.7 0
     "full" "contains" (Some "pass") true None;
   step_ref "s2" 2 0 "full" "sentiment" None].

(* ===================================================================== *)
(** ** The vocabulary of the properties *)
(* ===================================================================== *)

(** From [w] to [w'] nothing happened but requests to the endpoint. *)
Definition only_requests (w w' : world) : Prop :=
  db w' = db w /\ uuids w' = uuids w /\ ticks w' = ticks w
  /\ (http_calls w <= http_calls w')%nat.

(** Unfolds the combinators of [M] in the goal and the hypotheses. *)
Ltac unfold_M :=
  unfold bind, ret, raise, try_except, get, modify, post, new_uuid, now,
    write_run, write_step_run in *.

(** A context that may be handed to a step: none, or a text with more than
    whitespace in it. *)
Definition good_context (context : option string) : Prop :=
  match context with
  | None => True
  | Some x => whitespace_only x = false
  end.

(** Between two stores, everything but the log of model calls is the same. *)
Definition same_but_logs (d d' : database) : Prop :=
  workflows d' = workflows d /\ workflow_steps d' = workflow_steps d
  /\ workflow_runs d' = workflow_runs d /\ step_runs d' = step_runs d.

(** The store while a step is being run: the [StepRun] of the step is the
    last row of its table and has the value the orchestrator holds; the log
    has grown by [logs] since [base]; the other tables are those of [base]. *)
Definition at_step (pre : list StepRun.t) (step_run : StepRun.t)
    (base : database) (logs : list LLMLog.t) (w : world) : Prop :=
  workflows (db w) = workflows base
  /\ workflow_steps (db w) = workflow_steps base
  /\ workflow_runs (db w) = workflow_runs base
  /\ step_runs (db w) = (pre ++ [step_run])%list
  /\ llm_logs (db w) = (llm_logs base ++ logs)%list.

(** The attributes of a [StepRun] that no assignment of the loop touches. *)
Definition same_identity (a b : StepRun.t) : Prop :=
  StepRun.id b = StepRun.id a
  /\ StepRun.workflow_run_id b = StepRun.workflow_run_id a
  /\ StepRun.workflow_step_id b = StepRun.workflow_step_id a
  /\ StepRun.position b = StepRun.position a
  /\ StepRun.input_context b = StepRun.input_context a.

(** The attempt numbers of the rows grow along the log. *)
Definition attempts_increase (logs : list LLMLog.t) : Prop :=
  StronglySorted
    (fun a b => LLMLog.attempt_number a < LLMLog.attempt_number b) logs.

(** What a run leaves behind for one step: the step, its [StepRun] row as it
    ended, and the rows the step added to the log. *)
Record step_trace : Type := mk_trace {
  trace_step : WorkflowStep.t;
  trace_row : StepRun.t;
  trace_logs : list LLMLog.t }.

(** What holds of the trace of a step in a run of [run]: the row is the
    step's and the run's; it received a context with more than whitespace in
    it, or none; the rows logged are at most [retry_limit + 1], are the
    row's, and their attempt numbers grow within [1 .. retry_limit + 1]; the
    row ends [failed], or [completed] with a context that has more than
    whitespace in it. *)
Definition trace_ok (run : WorkflowRun.t) (t : step_trace) : Prop :=
  let step := trace_step t in
  let row := trace_row t in
  StepRun.workflow_step_id row = WorkflowStep.id step
  /\ StepRun.workflow_run_id row = WorkflowRun.id run
  /\ good_context (StepRun.input_context row)
  /\ Z.of_nat (List.length (trace_logs t))
     <= Z.max 0 (WorkflowStep.retry_limit step + 1)
  /\ Forall (fun l => LLMLog.step_run_id l = StepRun.id row
                      /\ 0 < LLMLog.attempt_number l
                         <= WorkflowStep.retry_limit step + 1) (trace_logs t)
  /\ attempts_increase (trace_logs t)
  /\ (StepRun.attempt_number row = 1
      \/ 0 < StepRun.attempt_number row <= WorkflowStep.retry_limit step + 1)
  /\ (StepRun.status row = "failed"
      \/ (StepRun.status row = "completed"
          /\ exists x, StepRun.extracted_context row = Some x
                       /\ whitespace_only x = false)).

(** Each step receives the context its predecessor extracted. *)
Fixpoint contexts_chain (context : option string) (trace : list step_trace)
    : Prop :=
  match trace with
  | [] => True
  | t :: rest =>
      StepRun.input_context (trace_row t) = context
      /\ contexts_chain (StepRun.extracted_context (trace_row t)) rest
  end.

(** The three assignments that mark a run as failed. *)
Definition mark_failed (reason : string) (t : Z) (r : WorkflowRun.t)
    : WorkflowRun.t :=
  WorkflowRun.set_completed_at t
    (WorkflowRun.set_failure_reason reason (WorkflowRun.set_status "failed" r)).

(** Opening characters minus closing ones in [s], counted the way the scan
    of [extract_json] counts them. *)
Fixpoint net_depth (start_char end_char : ascii) (s : string) : Z :=
  match s with
  | EmptyString => 0
  | String c s' =>
      (if Ascii.eqb c start_char then 1
       else if Ascii.eqb c end_char then -1 else 0)
      + net_depth start_char end_char s'
  end.

(** The wrapping of the round trip: a fence line before the text and one
    after it. *)
Definition rewrap (e : string) : string := fence ++ nl ++ e ++ nl ++ fence.

(** The other way to wrap: the fences right against the text. *)
Definition rewrap_inline (e : string) : string := fence ++ e ++ fence.

(** [s] without its leading word characters. *)
Fixpoint skip_word (s : string) : string :=
  match s with
  | EmptyString => EmptyString
  | String c s' => if is_word c then skip_word s' else s
  end.

(** What a match of the pattern at the head of [s] comes to: after the
    fence, the longest language tag and a newline are passed over, and the
    body runs to the next fence. *)
Definition fence_match (s : string) : option match_result :=
  match strip_prefix fence s with
  | None => None
  | Some s1 =>
      let s2 := skip_word s1 in
      let s3 := default s2 (strip_prefix nl s2) in
      match find fence s3 with
      | Some j => Some (Some (take_str j s3), drop_str (j + 3) s3)
      | None => None
      end
  end.

(** The body and the closing fence, from [s] on. *)
Definition body_match (s : string) : option match_result :=
  match find fence s with
  | Some j => Some (Some (take_str j s), drop_str (j + 3) s)
  | None => None
  end.

(** The optional newline, then the body. *)
Definition newline_match (s : string) : option match_result :=
  body_match (default s (strip_prefix nl s)).

(** The requests one attempt of a step sends at most: the call and its one
    retry, and as many again for the judge and for the summary, when the
    step uses them. *)
Definition attempt_requests (step : WorkflowStep.t) : nat :=
  2 + (if WorkflowStep.llm_judge_enabled step then 2 else 0)
  + (if String.eqb (WorkflowStep.context_mode step) "summary" then 2 else 0).

(** The attempts the retry loop of a step makes at most. *)
Definition attempts_allowed (step : WorkflowStep.t) : nat :=
  Z.to_nat (WorkflowStep.retry_limit step + 1).

(** The requests a run of these steps sends at most. *)
Fixpoint run_requests (steps : list WorkflowStep.t) : nat :=
  match steps with
  | [] => 0
  | step :: rest =>
      attempt_requests step * attempts_allowed step + run_requests rest
  end.

(** What a row of the log of model calls records: the total of its two
    token counts, and a call type that tells the first attempt of a step
    from the later ones. *)
Definition row_ok (l : LLMLog.t) : Prop :=
  LLMLog.total_tokens l = LLMLog.input_tokens l + LLMLog.output_tokens l
  /\ ((LLMLog.call_type l = "main" /\ LLMLog.attempt_number l = 1)
      \/ (LLMLog.call_type l = "retry" /\ 1 < LLMLog.attempt_number l)).

#[global] Instance row_ok_dec (l : LLMLog.t) : Decision (row_ok l).
Proof. unfold row_ok. apply _. Defined.

(** A step that no output of the model can make pass: its rule type has no
    handler, or its rule needs a value and has none, or its retry limit
    allows no attempt. *)
Definition cannot_pass (step : WorkflowStep.t) : Prop :=
  WorkflowStep.rule_type step
    ∉ ["contains"; "regex"; "json_valid"; "code_block_present"]
  \/ ((WorkflowStep.rule_type step = "contains"
       \/ WorkflowStep.rule_type step = "regex")
      /\ or_str (WorkflowStep.rule_value step) "" = "")
  \/ WorkflowStep.retry_limit step < 0.

#[global] Instance cannot_pass_dec (step : WorkflowStep.t)
  : Decision (cannot_pass step).
Proof. unfold cannot_pass. apply _. Defined.

(** The system message of a retry: none without feedback. *)
Definition system_messages (retry_feedback : option string) : list message :=
  match retry_feedback with
  | Some feedback =>
      if is_empty feedback then []
      else [mk_message "system" (RETRY_FEEDBACK_TEMPLATE feedback)]
  | None => []
  end.

(** The row an attempt logs. *)
Definition logged_row (step : WorkflowStep.t) (step_run : StepRun.t)
    (retry_feedback : option string) (prompt : string)
    (content : string) (in_tok out_tok : Z) (cost : float) (latency : Z)
    (log_id : string) : LLMLog.t :=
  LLMLog.mk log_id (StepRun.id step_run)
    (if is_empty (or_str retry_feedback "") then "main" else "retry")
    (StepRun.attempt_number step_run) prompt
    content in_tok out_tok (in_tok + out_tok) cost
    (WorkflowStep.model step) latency.

(** What the loop and the run leave untouched, and what they add. *)
Definition bounded_effect (budget : nat) (w w' : world) : Prop :=
  workflows (db w') = workflows (db w)
  /\ workflow_steps (db w') = workflow_steps (db w)
  /\ (exists added, llm_logs (db w') = (llm_logs (db w) ++ added)%list
                    /\ Forall row_ok added)
  /\ (http_calls w <= http_calls w' <= http_calls w + budget)%nat.

(** A write that leaves the tables of workflows and steps, the log and the
    request counter as they are. *)
Definition silent_write (f : world -> world) : Prop :=
  forall w, workflows (db (f w)) = workflows (db w)
            /\ workflow_steps (db (f w)) = workflow_steps (db w)
            /\ llm_logs (db (f w)) = llm_logs (db w)
            /\ http_calls (f w) = http_calls w.

(** The assignments that start a run and the ones that complete it. *)
Definition mark_running (t : Z) (r : WorkflowRun.t) : WorkflowRun.t :=
  WorkflowRun.set_started_at t (WorkflowRun.set_status "running" r).

Definition mark_completed (t : Z) (r : WorkflowRun.t) : WorkflowRun.t :=
  WorkflowRun.set_completed_at t (WorkflowRun.set_status "completed" r).

(** The store when the steps of a run are about to be run. *)
Definition run_started (utcnow : nat -> Z) (run_ix : nat) (w : world) : world :=
  mk_world (update_run run_ix (mark_running (utcnow (ticks w))) (db w))
    (http_calls w) (uuids w) (S (ticks w)).

(** The store when the steps of a run were run to the end. *)
Definition run_completed (utcnow : nat -> Z) (run_ix : nat) (w : world) : world :=
  mk_world (update_run run_ix (mark_completed (utcnow (ticks w))) (db w))
    (http_calls w) (uuids w) (S (ticks w)).

(** The requests an invocation of [run_workflow] sends at most: none unless
    it starts a run, and then those of the steps of the workflow. *)
Definition run_budget (workflow_run_id : string) (d : database) : nat :=
  match first_run workflow_run_id d with
  | Some (_, run) =>
      if String.eqb (WorkflowRun.status run) "pending" then
        match first_workflow (WorkflowRun.workflow_id run) d with
        | Some (_, workflow) =>
            run_requests (sorted_by WorkflowStep.position (steps_of workflow d))
        | None => 0
        end
      else 0
  | None => 0
  end.

(** How the [StepRun] of a step ends: [failed], or [completed] with an output
    on which the rule of its step passes. *)
Definition completed_row (json_loads : string -> option json)
    (re_search : string -> string -> option bool)
    (steps : list WorkflowStep.t) (row : StepRun.t) : Prop :=
  StepRun.status row = "failed"
  \/ (StepRun.status row = "completed"
      /\ exists (step : WorkflowStep.t) (output : string) (record : dict),
           In step steps
           /\ WorkflowStep.id step = StepRun.workflow_step_id row
           /\ StepRun.output row = Some output
           /\ whitespace_only output = false
           /\ fst (evaluate_rule json_loads re_search
                     (WorkflowStep.rule_type step)
                     (WorkflowStep.rule_value step) (Some output)) = true
           /\ StepRun.evaluation_result row = Some (JObj record)
           /\ dict_get record "passed" JNull = JBool true).

(** The context a step hands on, in the modes that need no call of the
    model: the extraction of the mode, or the trimmed output when that
    extraction is blank. *)
Definition handed_on (json_loads : string -> option json)
    (mode content : string) : string :=
  if whitespace_only (extract_context json_loads content mode)
  then strip content else extract_context json_loads content mode.

(** What the [StepRun] of a completed step holds as its context: it comes
    from the output stored in the same row. *)
Definition context_row (json_loads : string -> option json)
    (steps : list WorkflowStep.t) (row : StepRun.t) : Prop :=
  StepRun.status row = "completed" ->
  exists (step : WorkflowStep.t) (output x : string),
    In step steps
    /\ WorkflowStep.id step = StepRun.workflow_step_id row
    /\ StepRun.output row = Some output
    /\ StepRun.extracted_context row = Some x
    /\ whitespace_only x = false
    /\ (WorkflowStep.context_mode step <> "summary" ->
        x = handed_on json_loads (WorkflowStep.context_mode step) output).

(** The failure reason of a [StepRun] is a text, or there is none: the
    column is [Column(Text)], and the code assigns to it whatever the
    evaluation gave as its reason, which for a judge is any value of the
    decoded answer. *)
Definition text_reason (row : StepRun.t) : Prop :=
  match StepRun.failure_reason row with
  | None | Some (JStr _) => True
  | Some _ => False
  end.

#[global] Instance text_reason_dec (row : StepRun.t)
  : Decision (text_reason row).
Proof.
  unfold text_reason.
  destruct (StepRun.failure_reason row) as [[] |]; apply _.
Defined.

(** The tables of [models.py] take the rows of a store: the failure reasons
    of the step runs are texts, and no id occurs twice in one of the tables
    the orchestrator and the endpoint add rows to (the ids are primary
    keys).  On rows that the tables refuse, the commit of the code raises;
    the writes of the model go through.  A run of steps without a judge
    writes texts only ([run_workflow_text_reasons]). *)
Definition fits_tables (d : database) : Prop :=
  Forall text_reason (step_runs d)
  /\ NoDup (map WorkflowRun.id (workflow_runs d))
  /\ NoDup (map StepRun.id (step_runs d))
  /\ NoDup (map LLMLog.id (llm_logs d)).

#[global] Instance fits_tables_dec (d : database) : Decision (fits_tables d).
Proof. unfold fits_tables. apply _. Defined.

(* ===================================================================== *)
(** ** Properties of the completion rules *)
(* ===================================================================== *)

Section RuleFacts.

Variable json_loads : string -> option json.
Variable re_search : string -> string -> option bool.

Lemma RULE_HANDLERS_contains :
  RULE_HANDLERS json_loads re_search !! "contains" = Some _rule_contains.
Proof. unfold RULE_HANDLERS. apply lookup_insert_eq. Qed.

Lemma RULE_HANDLERS_unknown (rule_type : string) :
  rule_type ∉ ["contains"; "regex"; "json_valid"; "code_block_present"] ->
  RULE_HANDLERS json_loads re_search !! rule_type = None.
Proof.
  intros Hout. unfold RULE_HANDLERS.
  repeat (rewrite lookup_insert_ne;
          [| intros <-; apply Hout; repeat constructor]).
  apply lookup_empty.
Qed.

Lemma contains_empty_sub (s : string) : contains "" s = true.
Proof. destruct s; reflexivity. Qed.

Lemma rule_contains_empty_value (text : string) :
  _rule_contains text "" = false.
Proof. reflexivity. Qed.

Lemma rule_contains_empty_text (value : string) :
  _rule_contains "" value = false.
Proof. unfold _rule_contains. destruct value; reflexivity. Qed.

(** C7.  A rule type outside the four handled ones makes [evaluate_rule]
    return, without raising, a failure whose reason names the rule type. *)
Theorem evaluate_rule_unknown_type (rule_type : string)
    (rule_value output : option string) :
  rule_type ∉ ["contains"; "regex"; "json_valid"; "code_block_present"] ->
  evaluate_rule json_loads re_search rule_type rule_value output
  = (false, "Unknown rule type: " ++ rule_type).
Proof.
  intros Hout. unfold evaluate_rule.
  rewrite (RULE_HANDLERS_unknown _ Hout). reflexivity.
Qed.

(** C10.  The rule [contains] fails on an empty or absent rule value, for
    every output, although the empty string occurs in every string; and it
    fails on an empty or absent output, for every rule value. *)
Theorem evaluate_rule_contains_empty :
  (forall output : option string,
      fst (evaluate_rule json_loads re_search "contains" None output) = false
      /\ fst (evaluate_rule json_loads re_search "contains" (Some "") output)
         = false
      /\ contains "" (or_str output "") = true)
  /\ (forall rule_value : option string,
         fst (evaluate_rule json_loads re_search "contains" rule_value (Some ""))
         = false
         /\ fst (evaluate_rule json_loads re_search "contains" rule_value None)
            = false).
Proof.
  split; intros x; unfold evaluate_rule; rewrite RULE_HANDLERS_contains; cbn [fst].
  - split; [| split].
    + apply rule_contains_empty_value.
    + apply rule_contains_empty_value.
    + apply contains_empty_sub.
  - split; apply rule_contains_empty_text.
Qed.

End RuleFacts.

(** The claim of C7 at the rule type [sentiment]. *)
Lemma evaluate_rule_unknown_type_witness :
  evaluate_rule json_loads_ref re_search_literal "sentiment" (Some "x") (Some "y")
  = (false, "Unknown rule type: sentiment").
Proof.
  apply (evaluate_rule_unknown_type json_loads_ref re_search_literal "sentiment").
  apply (bool_decide_unpack _). vm_compute. exact I.
Defined.

(* ===================================================================== *)
(** ** Cost estimation *)
(* ===================================================================== *)

Lemma MODEL_COSTS_keys (model : string) (p : price) :
  MODEL_COSTS !! model = Some p ->
  (model = "kimi-k2p5" \/ model = "kimi-k2-instruct-0905")
  /\ p = mk_price 0.0003 0.0012.
Proof.
  unfold MODEL_COSTS. intros H.
  destruct (decide (model = "kimi-k2p5")) as [-> | Hne1].
  { rewrite lookup_insert_eq in H. inversion H. auto. }
  rewrite lookup_insert_ne in H by congruence.
  destruct (decide (model = "kimi-k2-instruct-0905")) as [-> | Hne2].
  { rewrite lookup_insert_eq in H. inversion H. auto. }
  rewrite lookup_insert_ne in H by congruence.
  rewrite lookup_empty in H. discriminate.
Qed.

Lemma float_of_int_nonneg (n : Z) :
  0 <= n -> float_of_int n = PrimFloat.of_uint63 (Uint63.of_Z n).
Proof.
  intros H. unfold float_of_int.
  destruct (0 <=? n) eqn:E; [reflexivity | apply Z.leb_gt in E; lia].
Qed.

(** C9.  For non-negative token counts (below [2^53], where an [int] is a
    [float] exactly) the estimated cost is
    [input_tokens / 1000 * input price + output_tokens / 1000 * output price]
    in float arithmetic, with the prices of the model's entry in the table,
    and with the entry of the default model [kimi-k2p5] when the model has no
    entry. *)
Theorem estimate_cost_formula (model : string) (input_tokens output_tokens : Z) :
  0 <= input_tokens < 2 ^ 53 -> 0 <= output_tokens < 2 ^ 53 ->
  let cost (p : price) : float :=
    (PrimFloat.of_uint63 (Uint63.of_Z input_tokens) / 1000 * input p
     + PrimFloat.of_uint63 (Uint63.of_Z output_tokens) / 1000 * output p)%float in
  match MODEL_COSTS !! model with
  | Some p => _estimate_cost model input_tokens output_tokens = cost p
  | None =>
      exists d, MODEL_COSTS !! "kimi-k2p5" = Some d
                /\ _estimate_cost model input_tokens output_tokens = cost d
  end.
Proof.
  intros [Hi _] [Ho _] cost. unfold _estimate_cost.
  rewrite (float_of_int_nonneg _ Hi), (float_of_int_nonneg _ Ho).
  destruct (MODEL_COSTS !! model) as [p |] eqn:E; cbn [default]; [reflexivity |].
  exists (mk_price 0.0003 0.0012). split; reflexivity.
Qed.

(** The claim of C9 at a model of the table and at an unknown one. *)
Lemma estimate_cost_formula_witness :
  _estimate_cost "kimi-k2-instruct-0905" 1500 200 = 0.00069%float
  /\ _estimate_cost "gpt-x" 1500 200 = 0.00069%float.
Proof.
  split.
  - exact (estimate_cost_formula "kimi-k2-instruct-0905" 1500 200
             ltac:(lia) ltac:(lia)).
  - destruct (estimate_cost_formula "gpt-x" 1500 200 ltac:(lia) ltac:(lia))
      as [d [Hd Hcost]].
    vm_compute in Hd. inversion Hd. subst d. exact Hcost.
Defined.

(* ===================================================================== *)
(** ** Facts about strings *)
(* ===================================================================== *)

Lemma is_empty_true (s : string) : is_empty s = true <-> s = "".
Proof. destruct s; simpl; split; congruence. Qed.

Lemma app_empty_r (s : string) : s ++ "" = s.
Proof. induction s as [| c s IH]; simpl; [| rewrite IH]; reflexivity. Qed.

Lemma app_assoc_str (a b c : string) : (a ++ b) ++ c = a ++ b ++ c.
Proof. induction a as [| x a IH]; simpl; [| rewrite IH]; reflexivity. Qed.

Lemma length_app_str (a b : string) :
  String.length (a ++ b) = (String.length a + String.length b)%nat.
Proof. induction a as [| x a IH]; simpl; [| rewrite IH]; reflexivity. Qed.

(** *** Trimming *)

Lemma rstrip_blank (s : string) : is_empty (rstrip s) = whitespace_only s.
Proof.
  induction s as [| c s IH]; simpl; [reflexivity |].
  rewrite <- IH.
  destruct (is_empty (rstrip s)), (is_space c); reflexivity.
Qed.

Lemma lstrip_blank (s : string) :
  whitespace_only (lstrip s) = whitespace_only s.
Proof.
  induction s as [| c s IH]; simpl; [reflexivity |].
  destruct (is_space c) eqn:E; simpl; [exact IH | rewrite E; reflexivity].
Qed.

(** [s.strip()] is empty exactly when [s] is empty or whitespace. *)
Lemma strip_blank (s : string) : is_empty (strip s) = whitespace_only s.
Proof. unfold strip. rewrite rstrip_blank. apply lstrip_blank. Qed.

Lemma rstrip_idem (s : string) : rstrip (rstrip s) = rstrip s.
Proof.
  induction s as [| c s IH]; simpl; [reflexivity |].
  destruct (is_empty (rstrip s) && is_space c) eqn:E; [reflexivity |].
  simpl. rewrite IH, E. reflexivity.
Qed.

Lemma lstrip_head (s : string) :
  match lstrip s with
  | EmptyString => True
  | String c _ => is_space c = false
  end.
Proof.
  induction s as [| c s IH]; simpl; [exact I |].
  destruct (is_space c) eqn:E; [exact IH | exact E].
Qed.

Lemma rstrip_head (c : ascii) (s : string) :
  is_space c = false -> rstrip (String c s) = String c (rstrip s).
Proof. intros E. simpl. rewrite E, andb_false_r. reflexivity. Qed.

Lemma strip_idem (s : string) : strip (strip s) = strip s.
Proof.
  unfold strip. pose proof (lstrip_head s) as H.
  destruct (lstrip s) as [| c t]; [reflexivity |].
  rewrite (rstrip_head _ _ H). simpl lstrip. rewrite H.
  rewrite <- (rstrip_head _ _ H). apply rstrip_idem.
Qed.

(** Trimming a text that neither starts nor ends with whitespace. *)
Lemma lstrip_id (c : ascii) (s : string) :
  is_space c = false -> lstrip (String c s) = String c s.
Proof. intros E. simpl. rewrite E. reflexivity. Qed.

(** *** Occurrences *)

Lemma startswith_spec (p s : string) :
  startswith p s = true <-> exists post, s = p ++ post.
Proof.
  revert s. induction p as [| a p IH]; intros s; simpl.
  - split; [intros _; exists s; reflexivity | reflexivity].
  - destruct s as [| b s].
    + split; [discriminate | intros [post H]; discriminate].
    + rewrite andb_true_iff, IH. split.
      * intros [Hab [post ->]]. apply Ascii.eqb_eq in Hab as ->.
        exists post. reflexivity.
      * intros [post H]. inversion H; subst. split.
        -- apply Ascii.eqb_refl.
        -- exists post. reflexivity.
Qed.

Lemma find_spec (sub s : string) (n : nat) :
  find sub s = Some n ->
  exists pre post, s = pre ++ sub ++ post /\ String.length pre = n.
Proof.
  revert n. induction s as [| c s IH]; intros n; simpl.
  - destruct (startswith sub "") eqn:E; [| discriminate].
    intros [= <-]. apply startswith_spec in E as [post E].
    exists "", post. split; [exact E | reflexivity].
  - destruct (startswith sub (String c s)) eqn:E.
    + intros [= <-]. apply startswith_spec in E as [post E].
      exists "", post. split; [exact E | reflexivity].
    + destruct (find sub s) as [m |] eqn:F; simpl; [| discriminate].
      intros [= <-]. destruct (IH m eq_refl) as [pre [post [-> Hlen]]].
      exists (String c pre), post. split; [reflexivity | simpl; congruence].
Qed.

Lemma find_none (sub pre post : string) :
  find sub (pre ++ sub ++ post) <> None.
Proof.
  induction pre as [| c pre IH]; simpl.
  - assert (E : startswith sub (sub ++ post) = true)
      by (apply startswith_spec; eexists; reflexivity).
    destruct (sub ++ post); simpl; rewrite E; discriminate.
  - destruct (startswith sub (String c (pre ++ sub ++ post))); [discriminate |].
    destruct (find sub (pre ++ sub ++ post)); [discriminate | contradiction].
Qed.

(** [sub in s] holds exactly when [s] is some text, [sub], some text. *)
Lemma contains_spec (sub s : string) :
  contains sub s = true <-> exists pre post, s = pre ++ sub ++ post.
Proof.
  unfold contains. split.
  - destruct (find sub s) as [n |] eqn:F; [| discriminate].
    intros _. destruct (find_spec _ _ _ F) as [pre [post [H _]]]. eauto.
  - intros [pre [post ->]].
    destruct (find sub (pre ++ sub ++ post)) eqn:F; [reflexivity |].
    exfalso. exact (find_none _ _ _ F).
Qed.

(** *** Lower case *)

Lemma lower_app (a b : string) : lower (a ++ b) = lower a ++ lower b.
Proof. induction a as [| c a IH]; simpl; [| rewrite IH]; reflexivity. Qed.

Lemma lower_split (s a b : string) :
  lower s = a ++ b ->
  exists a' b', s = a' ++ b' /\ lower a' = a /\ lower b' = b.
Proof.
  revert s. induction a as [| c a IH]; intros s H; simpl in H.
  - exists "", s. auto.
  - destruct s as [| x s]; simpl in H; [discriminate |].
    inversion H as [[Hc Hs]]. destruct (IH s Hs) as [a' [b' [-> [Ha Hb]]]].
    exists (String x a'), b'. simpl. rewrite Ha. auto.
Qed.

(** An occurrence of a lower-case word in [s.lower()] is an occurrence in
    [s] of the word in some mix of cases. *)
Lemma contains_lower (word s : string) :
  contains word (lower s) = true
  <-> exists pre mid post, s = pre ++ mid ++ post /\ lower mid = word.
Proof.
  rewrite contains_spec. split.
  - intros [pre [post H]].
    apply lower_split in H as [pre' [rest [-> [_ H]]]].
    apply lower_split in H as [mid [post' [-> [H _]]]].
    exists pre', mid, post'. auto.
  - intros [pre [mid [post [-> H]]]].
    exists (lower pre), (lower post). rewrite !lower_app, H. reflexivity.
Qed.

(* ===================================================================== *)
(** ** What a computation changes *)
(* ===================================================================== *)

Lemma only_requests_refl (w : world) : only_requests w w.
Proof. unfold only_requests. auto. Qed.

Section EvaluationFacts.

Variable json_loads : string -> option json.
Variable re_search : string -> string -> option bool.
Variable py_repr : json -> string.
Variable http_post : nat -> request -> http_outcome.

Lemma call_llm_from_effect (attempts : list Z) (req : request)
    (last_error : string) (w w' : world)
    (r : result (string * Z * Z * float * Z)) :
  call_llm_from http_post attempts req last_error w = (r, w') ->
  only_requests w w' /\ r <> OutOfFuel
  /\ (attempts <> [] -> (http_calls w < http_calls w')%nat).
Proof.
  revert last_error w. induction attempts as [| a rest IH]; intros last w H.
  - simpl in H. unfold_M. inversion H; subst.
    split; [apply only_requests_refl |]. split; [discriminate | congruence].
  - simpl in H. unfold_M.
    destruct (http_post (http_calls w) req) as [text pt ct ms | e | sc text | e].
    + inversion H; subst. unfold only_requests; simpl.
      repeat split; auto; try lia; discriminate.
    + destruct (a =? 1).
      * inversion H; subst. unfold only_requests; simpl.
        repeat split; auto; try lia; discriminate.
      * apply IH in H as (Ho & Hr & _).
        destruct Ho as (A & B & C & D); simpl in *.
        unfold only_requests. repeat split; auto; lia.
    + inversion H; subst. unfold only_requests; simpl.
      repeat split; auto; try lia; discriminate.
    + inversion H; subst. unfold only_requests; simpl.
      repeat split; auto; try lia; discriminate.
Qed.

Lemma call_llm_effect (messages : list message) (model : string)
    (max_tokens : Z) (temperature : float) (w w' : world)
    (r : result (string * Z * Z * float * Z)) :
  call_llm http_post messages model max_tokens temperature w = (r, w') ->
  only_requests w w' /\ r <> OutOfFuel
  /\ (http_calls w < http_calls w')%nat.
Proof.
  unfold call_llm. intros H. apply call_llm_from_effect in H as (A & B & C).
  split; [exact A |]. split; [exact B |]. apply C. discriminate.
Qed.

(** The judge as its request followed by the reading of the response. *)
Lemma evaluate_llm_judge_unfold (output : string) (judge_prompt : option string)
    (model : string) (w : world) :
  evaluate_llm_judge json_loads http_post output judge_prompt model w
  = match call_llm http_post (judge_messages output judge_prompt) model 512 0.7 w with
    | (Ok (content, _, _, _, _), w') => (Ok (judge_verdict json_loads content), w')
    | (Raise e, w') => (Raise e, w')
    | (OutOfFuel, w') => (OutOfFuel, w')
    end.
Proof.
  unfold evaluate_llm_judge. unfold_M.
  destruct (call_llm _ _ _ _ _ w) as [[[[[[content ?] ?] ?] ?] | e |] w'];
    reflexivity.
Qed.

(** The judge always sends a request. *)
Lemma evaluate_llm_judge_effect (output : string) (judge_prompt : option string)
    (model : string) (w w' : world) (r : result (bool * json)) :
  evaluate_llm_judge json_loads http_post output judge_prompt model w = (r, w') ->
  only_requests w w' /\ r <> OutOfFuel /\ (http_calls w < http_calls w')%nat.
Proof.
  rewrite evaluate_llm_judge_unfold.
  destruct (call_llm _ _ _ _ _ w) as [r0 w0] eqn:E.
  apply call_llm_effect in E as (A & B & C).
  destruct r0 as [[[[[content ?] ?] ?] ?] | e |]; intros H; inversion H; subst;
    (split; [exact A |]); (split; [| exact C]); congruence.
Qed.

(** C6.  When the judge's response does not decode as JSON, the verdict is
    [passed] exactly when the response contains [true] in some mix of cases,
    and the reason is the trimmed response. *)
Theorem judge_fallback_heuristic (content : string) :
  json_loads content = None ->
  judge_verdict json_loads content
  = (contains "true" (lower content), JStr (strip content))
  /\ (fst (judge_verdict json_loads content) = true
      <-> exists pre mid post,
            content = pre ++ mid ++ post /\ lower mid = "true")
  /\ (forall output judge_prompt model w pt ct cost ms w',
         call_llm http_post (judge_messages output judge_prompt) model 512 0.7 w
         = (Ok (content, pt, ct, cost, ms), w') ->
         evaluate_llm_judge json_loads http_post output judge_prompt model w
         = (Ok (contains "true" (lower content), JStr (strip content)), w')).
Proof.
  intros Hbad.
  assert (Hv : judge_verdict json_loads content
               = (contains "true" (lower content), JStr (strip content)))
    by (unfold judge_verdict; rewrite Hbad; reflexivity).
  split; [exact Hv |]. split.
  - rewrite Hv. cbn [fst]. apply contains_lower.
  - intros output judge_prompt model w pt ct cost ms w' Hcall.
    rewrite evaluate_llm_judge_unfold, Hcall, Hv. reflexivity.
Qed.

End EvaluationFacts.

(** The claim of C6 on a response in prose: it passes, for its [TRUE]. *)
Lemma judge_fallback_heuristic_witness :
  evaluate_llm_judge json_loads_ref (scripted ["  The answer is TRUE. "])
    "out" None "kimi-k2p5" (store_ref [])
  = (Ok (true, JStr "The answer is TRUE."),
     mk_world (db (store_ref [])) 1 0 0).
Proof.
  exact (proj2 (proj2 (judge_fallback_heuristic json_loads_ref
                         (scripted ["  The answer is TRUE. "])
                         "  The answer is TRUE. " eq_refl))
           "out" None "kimi-k2p5" (store_ref []) 10 20
           (_estimate_cost "kimi-k2p5" 10 20) 5
           (mk_world (db (store_ref [])) 1 0 0) eq_refl).
Defined.

(* ===================================================================== *)
(** ** The order of evaluation *)
(* ===================================================================== *)

Section CompletionFacts.

Variable json_loads : string -> option json.
Variable re_search : string -> string -> option bool.
Variable py_repr : json -> string.
Variable http_post : nat -> request -> http_outcome.

Lemma blank_test (output : string) :
  is_empty output || is_empty (strip output) = whitespace_only output.
Proof.
  rewrite strip_blank. destruct output; reflexivity.
Qed.

(** C2.  [evaluate_completion] goes through its checks in a fixed order and
    stops at the first that fails: an empty or whitespace-only output fails
    at once, with no request sent; else a failing rule fails with the rule's
    reason, with no request sent; else, when the judge is off, the output
    passes, with no request sent; else the judge is asked (a request is
    sent) and its verdict decides, a rejection carrying the judge's reason.
    A judge that raises makes the evaluation fail with the error alone. *)
Theorem evaluate_completion_order (output rule_type : string)
    (rule_value : option string) (llm_judge_enabled : bool)
    (llm_judge_prompt : option string) (model : string) (w : world) :
  let evaluated :=
    evaluate_completion json_loads re_search py_repr http_post output
      rule_type rule_value llm_judge_enabled llm_judge_prompt model w in
  let rule := evaluate_rule json_loads re_search rule_type rule_value (Some output) in
  let details (llm_judge_passed llm_judge_reason : json) : json :=
    JObj [("rule_passed", JBool (fst rule)); ("rule_reason", JStr (snd rule));
          ("llm_judge_passed", llm_judge_passed);
          ("llm_judge_reason", llm_judge_reason)] in
  let failure (reason details : json) : dict :=
    [("passed", JBool false); ("reason", reason); ("details", details);
     ("error", JNull)] in
  let passing (details : json) : dict :=
    [("passed", JBool true); ("details", details); ("error", JNull)] in
  (whitespace_only output = true ->
   evaluated = (Ok (false, failure (JStr "LLM output was empty") (JObj [])), w))
  /\ (whitespace_only output = false -> fst rule = false ->
      evaluated = (Ok (false, failure (JStr (snd rule)) (details JNull JNull)), w))
  /\ (whitespace_only output = false -> fst rule = true ->
      llm_judge_enabled = false ->
      evaluated = (Ok (true, passing (details JNull JNull)), w))
  /\ (whitespace_only output = false -> fst rule = true ->
      llm_judge_enabled = true ->
      match evaluate_llm_judge json_loads http_post output llm_judge_prompt
              model w with
      | (Ok (true, reason), w') =>
          (http_calls w < http_calls w')%nat
          /\ evaluated = (Ok (true, passing (details (JBool true) reason)), w')
      | (Ok (false, reason), w') =>
          (http_calls w < http_calls w')%nat
          /\ evaluated
             = (Ok (false, failure reason (details (JBool false) reason)), w')
      | (Raise e, w') =>
          (http_calls w < http_calls w')%nat
          /\ evaluated = (Ok (false, [("error", JStr (exn_repr py_repr e))]), w')
      | (OutOfFuel, _) => False
      end).
Proof.
  intros evaluated rule details failure passing.
  subst evaluated. unfold evaluate_completion. rewrite blank_test.
  fold rule. destruct rule as [rule_passed rule_reason] eqn:Hrule.
  cbn [fst snd] in *.
  split; [| split; [| split]].
  - intros ->. reflexivity.
  - intros -> ->. reflexivity.
  - intros -> -> ->. reflexivity.
  - intros -> -> ->. cbn [negb]. unfold try_except, bind.
    destruct (evaluate_llm_judge json_loads http_post output llm_judge_prompt
                model w) as [r w'] eqn:E.
    pose proof (evaluate_llm_judge_effect _ _ _ _ _ _ _ _ E) as (_ & Hfuel & Hcall).
    destruct r as [[[] reason] | e |]; try (split; [exact Hcall | reflexivity]).
    congruence.
Qed.

End CompletionFacts.

(* ===================================================================== *)
(** ** One attempt of a step *)
(* ===================================================================== *)

Section AttemptFacts.

Variable json_loads : string -> option json.
Variable re_search : string -> string -> option bool.
Variable py_repr : json -> string.
Variable http_post : nat -> request -> http_outcome.
Variable uuid4 : nat -> string.
Variable utcnow : nat -> Z.

Lemma evaluate_completion_effect (output rule_type : string)
    (rule_value : option string) (enabled : bool) (prompt : option string)
    (model : string) (w w' : world) (r : result (bool * dict)) :
  evaluate_completion json_loads re_search py_repr http_post output rule_type
    rule_value enabled prompt model w = (r, w') ->
  only_requests w w' /\ exists verdict, r = Ok verdict.
Proof.
  unfold evaluate_completion, try_except.
  destruct (is_empty output || is_empty (strip output)).
  { unfold ret. intros [= <- <-]. split; [apply only_requests_refl | eauto]. }
  destruct (evaluate_rule _ _ _ _ _) as [rule_passed rule_reason].
  destruct rule_passed; cbn [negb].
  2: { unfold ret. intros [= <- <-]. split; [apply only_requests_refl | eauto]. }
  destruct enabled.
  2: { unfold ret. intros [= <- <-]. split; [apply only_requests_refl | eauto]. }
  unfold bind.
  destruct (evaluate_llm_judge json_loads http_post output prompt model w)
    as [j wj] eqn:E.
  apply evaluate_llm_judge_effect in E as (Ho & Hfuel & _).
  destruct j as [[[] reason] | e |]; unfold ret; try congruence;
    intros [= <- <-]; split; eauto.
Qed.

Lemma extract_context_async_effect (text mode model : string) (w w' : world)
    (r : result string) :
  extract_context_async json_loads http_post text mode model w = (r, w') ->
  only_requests w w' /\ r <> OutOfFuel
  /\ (mode = "full" -> r = Ok text).
Proof.
  unfold extract_context_async, extract_summary, extract_context.
  destruct (String.eqb mode "summary") eqn:Hs.
  - apply String.eqb_eq in Hs as ->.
    destruct (Z.of_nat (String.length text) <? 500).
    + unfold ret. intros [= <- <-].
      split; [apply only_requests_refl |]. split; [discriminate | discriminate].
    + unfold bind.
      destruct (call_llm http_post _ model 256 0.7 w) as [c wc] eqn:E.
      apply call_llm_effect in E as (Ho & Hfuel & _).
      destruct c as [[[[[summary ?] ?] ?] ?] | e |]; unfold ret; try congruence;
        intros [= <- <-]; (split; [exact Ho |]); split; discriminate.
  - unfold ret. intros [= <- <-].
    split; [apply only_requests_refl |]. split; [discriminate |].
    intros ->. reflexivity.
Qed.

(** The check of the extracted context, case by case. *)
Lemma checked_context_cases (step : WorkflowStep.t) (content extracted : string)
    (w : world) :
  (WorkflowStep.context_mode step = "full" -> extracted = content) ->
  checked_context step content extracted w
  = (if whitespace_only extracted then
       if whitespace_only content then
         Raise (RuntimeError
                  ("Context extraction failed for step '"
                   ++ WorkflowStep.name step ++ "' (mode="
                   ++ WorkflowStep.context_mode step ++ ")"))
       else Ok (strip content)
     else Ok extracted, w).
Proof.
  intros Hfull. unfold checked_context.
  destruct (String.eqb (WorkflowStep.context_mode step) "full") eqn:Hmode;
    cbn [negb andb].
  - apply String.eqb_eq in Hmode. rewrite (Hfull Hmode), strip_blank.
    destruct (whitespace_only content); reflexivity.
  - rewrite (strip_blank extracted).
    destruct (whitespace_only extracted) eqn:E.
    + rewrite strip_idem, strip_blank.
      destruct (whitespace_only content); reflexivity.
    + rewrite strip_blank, E. reflexivity.
Qed.

Lemma checked_context_good (step : WorkflowStep.t) (content extracted : string)
    (w w' : world) (r : result string) :
  checked_context step content extracted w = (r, w') ->
  w' = w /\ r <> OutOfFuel
  /\ (forall x, r = Ok x -> whitespace_only x = false).
Proof.
  unfold checked_context.
  set (e := if negb (String.eqb (WorkflowStep.context_mode step) "full")
               && is_empty (strip extracted)
            then strip content else extracted).
  rewrite (strip_blank e).
  destruct (whitespace_only e) eqn:E; unfold raise, ret; intros [= <- <-];
    (split; [reflexivity |]); (split; [discriminate |]).
  - discriminate.
  - intros x [= <-]. exact E.
Qed.

End AttemptFacts.

Section StepFacts.

Variable json_loads : string -> option json.
Variable re_search : string -> string -> option bool.
Variable py_repr : json -> string.
Variable http_post : nat -> request -> http_outcome.
Variable uuid4 : nat -> string.
Variable utcnow : nat -> Z.

Lemma build_messages_effect (prompt_template : string)
    (context retry_feedback : option string) (w w' : world)
    (r : result (list message)) :
  _build_messages prompt_template context retry_feedback w = (r, w') ->
  w' = w /\ r <> OutOfFuel.
Proof.
  unfold _build_messages.
  destruct (contains "{{context}}" _); unfold raise, ret; intros [= <- <-];
    split; congruence.
Qed.

(** An attempt leaves the store as it was, except that it may add one row to
    the log, for this [StepRun] and its current attempt number; and the
    context it returns has more than whitespace in it. *)
Lemma execute_single_step_spec (step : WorkflowStep.t) (step_run : StepRun.t)
    (input_context retry_feedback : option string) (w w' : world)
    (r : result (string * string * bool * dict)) :
  _execute_single_step json_loads re_search py_repr http_post uuid4 step
    step_run input_context retry_feedback w = (r, w') ->
  r <> OutOfFuel
  /\ same_but_logs (db w) (db w')
  /\ (llm_logs (db w') = llm_logs (db w)
      \/ exists l, llm_logs (db w') = (llm_logs (db w) ++ [l])%list
                   /\ LLMLog.step_run_id l = StepRun.id step_run
                   /\ LLMLog.attempt_number l = StepRun.attempt_number step_run)
  /\ (forall content extracted passed eval_result,
         r = Ok (content, extracted, passed, eval_result) ->
         whitespace_only extracted = false).
Proof.
  unfold _execute_single_step. unfold bind at 1.
  destruct (_build_messages _ _ _ w) as [m wm] eqn:Em.
  apply build_messages_effect in Em as [-> Hm].
  assert (Hsame : same_but_logs (db w) (db w)) by (repeat split).
  destruct m as [messages | e |]; [| intros [= <- <-] | congruence].
  2: { split; [discriminate |]. split; [exact Hsame |]. split; [auto | discriminate]. }
  unfold bind at 1.
  destruct (call_llm http_post messages _ _ _ w) as [c wc] eqn:Ec.
  apply call_llm_effect in Ec as ((Hdb & _) & Hc & _).
  destruct c as [[[[[content in_tok] out_tok] cost] latency] | e |];
    [| intros [= <- <-] | congruence].
  2: { rewrite Hdb. split; [discriminate |]. split; [exact Hsame |].
       split; [auto | discriminate]. }
  unfold bind at 1, new_uuid at 1. unfold bind at 1, modify at 1, with_db at 1.
  cbn [db http_calls uuids ticks].
  set (l := LLMLog.mk _ _ _ _ _ _ _ _ _ _ _ _).
  set (wl := mk_world (add_llm_log l (db wc)) _ _ _).
  assert (Hl : llm_logs (db wl) = (llm_logs (db w) ++ [l])%list)
    by (subst wl; simpl; rewrite Hdb; reflexivity).
  assert (Hsl : same_but_logs (db w) (db wl))
    by (subst wl; simpl; rewrite <- Hdb; repeat split).
  clearbody wl. unfold bind at 1.
  destruct (evaluate_completion _ _ _ _ _ _ _ _ _ _ wl) as [v wv] eqn:Ev.
  apply evaluate_completion_effect in Ev as ((Hdbv & _) & [[passed ev] ->]).
  unfold bind at 1.
  destruct (extract_context_async _ _ _ _ _ wv) as [x wx] eqn:Ex.
  apply extract_context_async_effect in Ex as ((Hdbx & _) & Hx & _).
  assert (Hlog : exists l0, llm_logs (db wx) = (llm_logs (db w) ++ [l0])%list
                   /\ LLMLog.step_run_id l0 = StepRun.id step_run
                   /\ LLMLog.attempt_number l0 = StepRun.attempt_number step_run).
  { exists l. rewrite Hdbx, Hdbv. split; [exact Hl |]. split; reflexivity. }
  assert (Hsx : same_but_logs (db w) (db wx)) by (rewrite Hdbx, Hdbv; exact Hsl).
  destruct x as [extracted | e |]; [| intros [= <- <-] | congruence].
  2: { split; [discriminate |]. split; [exact Hsx |]. split; [auto | discriminate]. }
  unfold bind at 1.
  destruct (checked_context step content extracted wx) as [k wk] eqn:Ek.
  apply checked_context_good in Ek as (-> & Hk & Hgood).
  destruct k as [checked | e |]; unfold ret; [| | congruence];
    intros [= <- <-]; (split; [discriminate |]); (split; [exact Hsx |]);
    (split; [auto |]).
  - intros ? ? ? ? [= <- <- <- <-]. apply Hgood. reflexivity.
  - discriminate.
Qed.

End StepFacts.

(* ===================================================================== *)
(** ** The retry loop of a step *)
(* ===================================================================== *)

Lemma same_identity_refl (a : StepRun.t) : same_identity a a.
Proof. repeat split. Qed.

Lemma same_identity_trans (a b c : StepRun.t) :
  same_identity a b -> same_identity b c -> same_identity a c.
Proof.
  unfold same_identity. intros (A1 & A2 & A3 & A4 & A5) (B1 & B2 & B3 & B4 & B5).
  repeat split; congruence.
Qed.

Section LoopFacts.

Variable json_loads : string -> option json.
Variable re_search : string -> string -> option bool.
Variable py_repr : json -> string.
Variable http_post : nat -> request -> http_outcome.
Variable uuid4 : nat -> string.
Variable utcnow : nat -> Z.

Lemma write_step_run_at (pre : list StepRun.t) (step_run : StepRun.t)
    (base : database) (logs : list LLMLog.t) (f : StepRun.t -> StepRun.t)
    (w : world) :
  at_step pre step_run base logs w ->
  exists w', write_step_run (List.length pre) f step_run w = (Ok (f step_run), w')
             /\ at_step pre (f step_run) base logs w'.
Proof.
  intros (A & B & C & D & E). unfold write_step_run. unfold_M.
  eexists. split; [reflexivity |].
  unfold at_step, with_db, update_step_run; simpl.
  repeat split; auto.
  rewrite D. replace (List.length pre) with (List.length pre + 0)%nat by lia.
  rewrite alter_app_r. reflexivity.
Qed.

Lemma now_at (pre : list StepRun.t) (step_run : StepRun.t)
    (base : database) (logs : list LLMLog.t) (w : world) :
  at_step pre step_run base logs w ->
  exists w', now utcnow w = (Ok (utcnow (ticks w)), w')
             /\ at_step pre step_run base logs w'.
Proof.
  intros H. unfold now. eexists. split; [reflexivity | exact H].
Qed.

Lemma execute_single_step_at (pre : list StepRun.t) (step_run : StepRun.t)
    (base : database) (logs : list LLMLog.t) (step : WorkflowStep.t)
    (input_context retry_feedback : option string) (w w' : world)
    (r : result (string * string * bool * dict)) :
  at_step pre step_run base logs w ->
  _execute_single_step json_loads re_search py_repr http_post uuid4 step
    step_run input_context retry_feedback w = (r, w') ->
  r <> OutOfFuel
  /\ (exists added,
         at_step pre step_run base (logs ++ added) w'
         /\ (added = []
             \/ exists l, added = [l]
                  /\ LLMLog.step_run_id l = StepRun.id step_run
                  /\ LLMLog.attempt_number l = StepRun.attempt_number step_run))
  /\ (forall content extracted passed eval_result,
         r = Ok (content, extracted, passed, eval_result) ->
         whitespace_only extracted = false).
Proof.
  intros (A & B & C & D & E) H.
  apply execute_single_step_spec in H as (Hfuel & (A' & B' & C' & D') & Hlog & Hgood).
  split; [exact Hfuel |]. split; [| exact Hgood].
  destruct Hlog as [Hlog | [l (Hlog & Hl)]].
  - exists []. split; [| auto]. unfold at_step. rewrite app_nil_r.
    repeat split; congruence.
  - exists [l]. split; [| right; eauto]. unfold at_step.
    rewrite Hlog, E, app_assoc. repeat split; congruence.
Qed.

End LoopFacts.

Section RetryFacts.

Variable json_loads : string -> option json.
Variable re_search : string -> string -> option bool.
Variable py_repr : json -> string.
Variable http_post : nat -> request -> http_outcome.
Variable uuid4 : nat -> string.
Variable utcnow : nat -> Z.

(** What the retry loop of a step does, started at [retry_count] with enough
    fuel: it ends; it adds at most [retry_limit + 1 - retry_count] rows to the
    log, all for this [StepRun], with attempt numbers that grow and lie in
    [retry_count + 1 .. retry_limit + 1]; the attempt number of the
    [StepRun] ends in that range if any attempt was made; and when the step
    passed, its context has more than whitespace in it. *)
Lemma retry_loop_spec (step : WorkflowStep.t) (pre : list StepRun.t)
    (base : database) (accumulated_context : option string) :
  forall (fuel : nat) (step_run : StepRun.t) (logs : list LLMLog.t)
         (retry_count : Z) (failure_reason : json) (w w' : world)
         (r : result loop_exit),
    at_step pre step_run base logs w ->
    good_context accumulated_context ->
    0 <= retry_count ->
    (Z.to_nat (WorkflowStep.retry_limit step + 1 - retry_count) <= fuel)%nat ->
    retry_loop json_loads re_search py_repr http_post uuid4 utcnow fuel step
      (List.length pre) step_run accumulated_context retry_count
      failure_reason w = (r, w') ->
    exists exit added,
      r = Ok exit
      /\ at_step pre (exit_step_run exit) base (logs ++ added) w'
      /\ same_identity step_run (exit_step_run exit)
      /\ Z.of_nat (List.length added)
         <= Z.max 0 (WorkflowStep.retry_limit step + 1 - retry_count)
      /\ Forall (fun l => LLMLog.step_run_id l = StepRun.id step_run
                          /\ retry_count < LLMLog.attempt_number l
                             <= WorkflowStep.retry_limit step + 1) added
      /\ attempts_increase added
      /\ (StepRun.attempt_number (exit_step_run exit)
          = StepRun.attempt_number step_run
          \/ retry_count < StepRun.attempt_number (exit_step_run exit)
             <= WorkflowStep.retry_limit step + 1)
      /\ good_context (exit_context exit)
      /\ (if exit_passed exit then
            StepRun.status (exit_step_run exit) = "completed"
            /\ exists x, exit_context exit = Some x
                 /\ StepRun.extracted_context (exit_step_run exit) = Some x
          else
            StepRun.status (exit_step_run exit) = StepRun.status step_run
            /\ StepRun.extracted_context (exit_step_run exit)
               = StepRun.extracted_context step_run
            /\ exit_context exit = accumulated_context).
Proof.
  induction fuel as [| fuel IH];
    intros step_run logs retry_count failure_reason w w' r Hat Hacc Hrc Hfuel H.
  - cbn [retry_loop] in H.
    destruct (retry_count <=? WorkflowStep.retry_limit step) eqn:G.
    { apply Z.leb_le in G. lia. }
    unfold ret in H. inversion H; subst. eexists. exists [].
    rewrite app_nil_r. apply Z.leb_gt in G.
    split; [reflexivity |]. cbn. split; [exact Hat |].
    split; [apply same_identity_refl |]. split; [lia |].
    split; [constructor |]. split; [constructor |]. auto.
  - cbn [retry_loop] in H.
    destruct (retry_count <=? WorkflowStep.retry_limit step) eqn:G.
    2: { unfold ret in H. inversion H; subst. eexists. exists [].
         rewrite app_nil_r. apply Z.leb_gt in G.
         split; [reflexivity |]. cbn. split; [exact Hat |].
         split; [apply same_identity_refl |]. split; [lia |].
         split; [constructor |]. split; [constructor |]. auto. }
    apply Z.leb_le in G.
    destruct (write_step_run_at _ _ _ _
                (StepRun.set_attempt_number (retry_count + 1)) _ Hat)
      as (w1 & E1 & Hat1).
    unfold bind at 1 in H. rewrite E1 in H.
    set (sr1 := StepRun.set_attempt_number (retry_count + 1) step_run) in *.
    unfold bind at 1, try_except at 1, bind at 1 in H.
    destruct (_execute_single_step _ _ _ _ _ _ _ _ _ w1) as [a w2] eqn:Ea.
    destruct (execute_single_step_at _ _ _ _ _ _ _ _ _ _ _ _ _ _ _ Hat1 Ea)
      as (Hafuel & (added1 & Hat2 & Hadded1) & Hgood).
    assert (Hid1 : same_identity step_run sr1) by (repeat split).
    assert (Hadd1 : Z.of_nat (List.length added1) <= 1
                    /\ Forall (fun l => LLMLog.step_run_id l = StepRun.id step_run
                                 /\ LLMLog.attempt_number l = retry_count + 1)
                         added1).
    { destruct Hadded1 as [-> | (l & -> & Hl1 & Hl2)]; cbn; split;
        try lia; repeat constructor; auto. }
    destruct Hadd1 as [Hlen1 Hall1]. clear Hadded1.
    (* the part shared by a failed attempt and a raised one *)
    assert (Hfail : forall (eval_result : dict) (wa : world),
               at_step pre sr1 base (logs ++ added1) wa ->
               (let* step_run0 :=
                  write_step_run (List.length pre)
                    (StepRun.set_evaluation_result (JObj eval_result)) sr1 in
                retry_loop json_loads re_search py_repr http_post uuid4 utcnow
                  fuel step (List.length pre) step_run0 accumulated_context
                  (retry_count + 1)
                  (if py_bool (dict_get eval_result "reason" JNull)
                   then dict_get eval_result "reason" JNull
                   else JStr (py_repr (JObj eval_result)))) wa = (r, w') ->
               exists exit added,
                 r = Ok exit
                 /\ at_step pre (exit_step_run exit) base (logs ++ added) w'
                 /\ same_identity step_run (exit_step_run exit)
                 /\ Z.of_nat (List.length added)
                    <= Z.max 0 (WorkflowStep.retry_limit step + 1 - retry_count)
                 /\ Forall (fun l => LLMLog.step_run_id l = StepRun.id step_run
                              /\ retry_count < LLMLog.attempt_number l
                                 <= WorkflowStep.retry_limit step + 1) added
                 /\ attempts_increase added
                 /\ (StepRun.attempt_number (exit_step_run exit)
                     = StepRun.attempt_number step_run
                     \/ retry_count < StepRun.attempt_number (exit_step_run exit)
                        <= WorkflowStep.retry_limit step + 1)
                 /\ good_context (exit_context exit)
                 /\ (if exit_passed exit then
                       StepRun.status (exit_step_run exit) = "completed"
                       /\ exists x, exit_context exit = Some x
                            /\ StepRun.extracted_context (exit_step_run exit)
                               = Some x
                     else
                       StepRun.status (exit_step_run exit)
                       = StepRun.status step_run
                       /\ StepRun.extracted_context (exit_step_run exit)
                          = StepRun.extracted_context step_run
                       /\ exit_context exit = accumulated_context)).
    { intros eval_result wa Hata Hrun.
      destruct (write_step_run_at _ _ _ _
                  (StepRun.set_evaluation_result (JObj eval_result)) _ Hata)
        as (wb & Eb & Hatb).
      unfold bind at 1 in Hrun. rewrite Eb in Hrun.
      apply (IH _ _ _ _ _ _ _ Hatb Hacc) in Hrun; [| lia | lia].
      destruct Hrun as (exit & added2 & -> & Hatx & Hidx & Hlen2 & Hall2
                        & Hinc2 & Hnum & Hctx & Hend).
      exists exit, (added1 ++ added2)%list.
      split; [reflexivity |].
      split; [rewrite app_assoc; exact Hatx |].
      split; [eapply same_identity_trans; [| exact Hidx]; repeat split |].
      split; [rewrite length_app; lia |].
      split.
      { apply Forall_app. split.
        - eapply Forall_impl; [exact Hall1 |]. cbn. intros l [-> ->].
          split; [reflexivity | lia].
        - eapply Forall_impl; [exact Hall2 |]. cbn. intros l [-> ?].
          split; [reflexivity | lia]. }
      split.
      { unfold attempts_increase. clear - Hall1 Hall2 Hinc2 Hlen1.
        destruct added1 as [| l1 [| l2 rest]]; cbn in *; try lia.
        - exact Hinc2.
        - constructor; [exact Hinc2 |].
          apply Forall_cons in Hall1 as [[_ Hl] _].
          eapply Forall_impl; [exact Hall2 |]. cbn. intros l [_ ?]. lia. }
      split.
      { destruct Hnum as [Hnum | Hnum]; right.
        - rewrite Hnum. cbn. lia.
        - lia. }
      split; [exact Hctx |].
      destruct (exit_passed exit); [exact Hend |].
      destruct Hend as (S1 & S2 & S3). repeat split; auto. }
    destruct a as [[[[out extracted] passed] eval_result] | e |];
      [| | congruence].
    + unfold ret at 1 in H.
      destruct passed.
      * (* the attempt passed: the loop is left *)
        specialize (Hgood _ _ _ _ eq_refl).
        destruct (write_step_run_at _ _ _ _ (StepRun.set_status "completed")
                    _ Hat2) as (w3 & E3 & Hat3).
        unfold bind at 1 in H. rewrite E3 in H.
        destruct (write_step_run_at _ _ _ _ (StepRun.set_output out)
                    _ Hat3) as (w4 & E4 & Hat4).
        unfold bind at 1 in H. rewrite E4 in H.
        destruct (write_step_run_at _ _ _ _
                    (StepRun.set_extracted_context extracted) _ Hat4)
          as (w5 & E5 & Hat5).
        unfold bind at 1 in H. rewrite E5 in H.
        destruct (write_step_run_at _ _ _ _
                    (StepRun.set_evaluation_result (JObj eval_result)) _ Hat5)
          as (w6 & E6 & Hat6).
        unfold bind at 1 in H. rewrite E6 in H.
        destruct (now_at utcnow _ _ _ _ _ Hat6) as (w7 & E7 & Hat7).
        unfold bind at 1 in H. rewrite E7 in H.
        destruct (write_step_run_at _ _ _ _
                    (StepRun.set_completed_at (utcnow (ticks w6))) _ Hat7)
          as (w8 & E8 & Hat8).
        unfold bind at 1 in H. rewrite E8 in H.
        unfold ret in H. inversion H; subst r w'. clear H.
        eexists. exists added1.
        split; [reflexivity |]. cbn. split; [exact Hat8 |].
        split; [repeat split |]. split; [lia |].
        split.
        { eapply Forall_impl; [exact Hall1 |]. cbn. intros l [-> ->].
          split; [reflexivity | lia]. }
        split.
        { unfold attempts_increase. clear - Hlen1.
          destruct added1 as [| l1 [| l2 rest]]; cbn in *; try lia;
            repeat constructor. }
        split; [right; lia |]. split; [exact Hgood |].
        split; [reflexivity |]. exists extracted. auto.
      * apply (Hfail eval_result w2 Hat2). exact H.
    + unfold ret at 1 in H. apply (Hfail [("error", JStr (exn_str e))] w2 Hat2).
      exact H.
Qed.

End RetryFacts.

(* ===================================================================== *)
(** ** The steps of a run *)
(* ===================================================================== *)

Section RunFacts.

Variable json_loads : string -> option json.
Variable re_search : string -> string -> option bool.
Variable py_repr : json -> string.
Variable http_post : nat -> request -> http_outcome.
Variable uuid4 : nat -> string.
Variable utcnow : nat -> Z.

Lemma run_steps_spec (run_ix : nat) (run : WorkflowRun.t) :
  forall (steps : list WorkflowStep.t) (accumulated_context : option string)
         (w w' : world) (r : result bool),
    good_context accumulated_context ->
    run_steps json_loads re_search py_repr http_post uuid4 utcnow run_ix run
      steps accumulated_context w = (r, w') ->
    exists finished trace,
      r = Ok finished
      /\ workflows (db w') = workflows (db w)
      /\ workflow_steps (db w') = workflow_steps (db w)
      /\ step_runs (db w') = (step_runs (db w) ++ map trace_row trace)%list
      /\ llm_logs (db w')
         = (llm_logs (db w) ++ concat (map trace_logs trace))%list
      /\ map trace_step trace = take (List.length trace) steps
      /\ Forall (trace_ok run) trace
      /\ contexts_chain accumulated_context trace
      /\ (if finished then
            workflow_runs (db w') = workflow_runs (db w)
            /\ List.length trace = List.length steps
            /\ Forall (fun t => StepRun.status (trace_row t) = "completed") trace
          else
            (exists reason t,
                workflow_runs (db w')
                = alter (mark_failed reason t) run_ix (workflow_runs (db w)))
            /\ exists t, last trace = Some t
                         /\ StepRun.status (trace_row t) = "failed").
Proof.
  induction steps as [| step steps IH]; intros acc w w' r Hacc H.
  - cbn in H. unfold ret in H. inversion H; subst.
    exists true, []. cbn. rewrite !app_nil_r. repeat split; auto.
  - cbn [run_steps] in H.
    unfold bind at 1, new_uuid at 1 in H.
    unfold bind at 1, now at 1 in H.
    unfold bind at 1, get at 1 in H.
    unfold bind at 1, modify at 1, with_db at 1 in H.
    cbn [db http_calls uuids ticks] in H.
    set (sr0 := StepRun.mk (uuid4 (uuids w)) (WorkflowRun.id run)
                  (WorkflowStep.id step) (WorkflowStep.position step)
                  "running" 1 acc None None None None
                  (Some (utcnow (ticks w))) None) in *.
    set (w0 := mk_world (add_step_run sr0 (db w)) (http_calls w)
                 (S (uuids w)) (S (ticks w))) in *.
    assert (Hat0 : at_step (step_runs (db w)) sr0 (db w0) [] w0).
    { unfold at_step. rewrite app_nil_r. subst w0. cbn. repeat split. }
    unfold bind at 1 in H.
    destruct (retry_loop _ _ _ _ _ _ _ _ _ _ _ _ _ w0) as [x w2] eqn:Eloop.
    apply (retry_loop_spec _ _ _ _ _ _ _ _ _ _ _ _ _ _ _ _ _ _ Hat0 Hacc)
      in Eloop; [| lia | lia].
    destruct Eloop as (exit & added & -> & Hat2 & Hid & Hlen & Hall & Hinc
                       & Hnum & Hctx & Hend).
    cbn [app] in Hat2.
    assert (Hrow : forall row, same_identity (exit_step_run exit) row ->
               StepRun.attempt_number row
               = StepRun.attempt_number (exit_step_run exit) ->
               (StepRun.status row = "failed"
                \/ (StepRun.status row = "completed"
                    /\ exists x, StepRun.extracted_context row = Some x
                                 /\ whitespace_only x = false)) ->
               trace_ok run (mk_trace step row added)).
    { intros row Hidr Hnumr Hstatus.
      destruct Hid as (I1 & I2 & I3 & I4 & I5).
      destruct Hidr as (J1 & J2 & J3 & J4 & J5).
      unfold trace_ok. cbn.
      split; [rewrite J3, I3; reflexivity |].
      split; [rewrite J2, I2; reflexivity |].
      split; [rewrite J5, I5; exact Hacc |].
      split; [lia |].
      split.
      { eapply Forall_impl; [exact Hall |]. cbn. intros l [Hl ?].
        split; [rewrite Hl, J1, I1; reflexivity | lia]. }
      split; [exact Hinc |]. split; [| exact Hstatus].
      rewrite Hnumr. exact Hnum. }
    destruct (exit_passed exit) eqn:Hpassed; cbn [negb] in H.
    + (* the step passed: on to the next one *)
      destruct Hend as (Hstatus & x & Hx & Hextracted).
      pose proof Hctx as Hblank. rewrite Hx in Hblank. cbn in Hblank.
      apply (IH _ _ _ _ Hctx) in H.
      destruct H as (finished & trace & -> & A & B & C & D & E & F & G & K).
      destruct Hat2 as (A2 & B2 & C2 & D2 & E2).
      exists finished, (mk_trace step (exit_step_run exit) added :: trace).
      split; [reflexivity |].
      split; [rewrite A, A2; reflexivity |].
      split; [rewrite B, B2; reflexivity |].
      split; [rewrite C, D2; cbn; rewrite <- app_assoc; reflexivity |].
      split; [rewrite D, E2; cbn; rewrite app_assoc; reflexivity |].
      split; [cbn; rewrite E; reflexivity |].
      split.
      { constructor; [| exact F]. apply Hrow.
        - apply same_identity_refl.
        - reflexivity.
        - right. split; [exact Hstatus |]. exists x. auto. }
      split.
      { cbn. split; [apply Hid |]. rewrite Hextracted, <- Hx. exact G. }
      destruct finished.
      * destruct K as (K1 & K2 & K3).
        split; [rewrite K1; exact C2 |]. split; [cbn; lia |].
        constructor; [exact Hstatus | exact K3].
      * destruct K as ((reason & t & K1) & (t0 & K2 & K3)).
        split; [exists reason, t; rewrite K1, C2; reflexivity |].
        exists t0. split; [| exact K3].
        cbn [last]. destruct trace; [discriminate | exact K2].
    + (* the step failed: the run is marked and left *)
      destruct (write_step_run_at _ _ _ _ (StepRun.set_status "failed") _ Hat2)
        as (w3 & E3 & Hat3).
      unfold bind at 1 in H. rewrite E3 in H.
      destruct (write_step_run_at _ _ _ _
                  (StepRun.set_failure_reason (exit_failure_reason exit)) _ Hat3)
        as (w4 & E4 & Hat4).
      unfold bind at 1 in H. rewrite E4 in H.
      destruct (now_at utcnow _ _ _ _ _ Hat4) as (w5 & E5 & Hat5).
      unfold bind at 1 in H. rewrite E5 in H.
      destruct (write_step_run_at _ _ _ _
                  (StepRun.set_completed_at (utcnow (ticks w4))) _ Hat5)
        as (w6 & E6 & Hat6).
      unfold bind at 1 in H. rewrite E6 in H.
      unfold_M. unfold with_db, update_run in H. cbn in H.
      inversion H; subst r w'. clear H.
      destruct Hat6 as (A6 & B6 & C6 & D6 & E6').
      eexists false, [mk_trace step _ added].
      split; [reflexivity |]. cbn.
      split; [exact A6 |]. split; [exact B6 |].
      split; [exact D6 |].
      split; [rewrite E6', app_nil_r; reflexivity |].
      split; [reflexivity |].
      split.
      { constructor; [| constructor]. apply Hrow.
        - repeat split.
        - reflexivity.
        - left. reflexivity. }
      split; [split; [apply Hid | exact I] |].
      split.
      * eexists _, _. rewrite C6. cbn. rewrite !list_alter_alter_eq.
        reflexivity.
      * eexists. split; reflexivity.
Qed.

End RunFacts.

(* ===================================================================== *)
(** ** A whole run *)
(* ===================================================================== *)

Section WorkflowFacts.

Variable json_loads : string -> option json.
Variable re_search : string -> string -> option bool.
Variable py_repr : json -> string.
Variable http_post : nat -> request -> http_outcome.
Variable uuid4 : nat -> string.
Variable utcnow : nat -> Z.

(** The guard: without a pending run of that id, nothing happens. *)
Lemma run_workflow_skips (workflow_run_id : string) (w : world) :
  match first_run workflow_run_id (db w) with
  | None => True
  | Some (_, run) => WorkflowRun.status run <> "pending"
  end ->
  run_workflow json_loads re_search py_repr http_post uuid4 utcnow
    workflow_run_id w = (Ok tt, w).
Proof.
  intros H. unfold run_workflow. unfold bind at 1, get at 1.
  destruct (first_run workflow_run_id (db w)) as [[ix run] |]; [| reflexivity].
  destruct (String.eqb (WorkflowRun.status run) "pending") eqn:E.
  - apply String.eqb_eq in E. contradiction.
  - reflexivity.
Qed.

(** What a started run does to the store. *)
Lemma run_workflow_started (workflow_run_id : string) (w w' : world)
    (r : result unit) (run_ix : nat) (run : WorkflowRun.t) :
  first_run workflow_run_id (db w) = Some (run_ix, run) ->
  WorkflowRun.status run = "pending" ->
  run_workflow json_loads re_search py_repr http_post uuid4 utcnow
    workflow_run_id w = (r, w') ->
  exists (trace : list step_trace) (f : WorkflowRun.t -> WorkflowRun.t),
    (r = Ok tt \/ exists m, r = Raise (AttributeError m) /\ trace = [])
    /\ workflows (db w') = workflows (db w)
    /\ workflow_steps (db w') = workflow_steps (db w)
    /\ workflow_runs (db w') = alter f run_ix (workflow_runs (db w))
    /\ (forall x, WorkflowRun.id (f x) = WorkflowRun.id x)
    /\ (forall x, WorkflowRun.status (f x) = "running"
                  \/ WorkflowRun.status (f x) = "completed"
                  \/ WorkflowRun.status (f x) = "failed")
    /\ step_runs (db w') = (step_runs (db w) ++ map trace_row trace)%list
    /\ llm_logs (db w') = (llm_logs (db w) ++ concat (map trace_logs trace))%list
    /\ (forall wf_ix workflow,
           first_workflow (WorkflowRun.workflow_id run) (db w)
           = Some (wf_ix, workflow) ->
           map trace_step trace
           = take (List.length trace)
               (sorted_by WorkflowStep.position (steps_of workflow (db w))))
    /\ Forall (trace_ok run) trace
    /\ contexts_chain None trace.
Proof.
  intros Hrun Hpending H. unfold run_workflow in H.
  unfold bind at 1, get at 1 in H. rewrite Hrun, Hpending in H.
  cbn [String.eqb Ascii.eqb Bool.eqb negb] in H.
  unfold bind at 1, write_run at 1, modify at 1 in H.
  unfold bind at 1, now at 1 in H.
  unfold bind at 1, write_run at 1, modify at 1 in H.
  cbn [db http_calls uuids ticks with_db] in H.
  destruct (first_workflow (WorkflowRun.workflow_id run) (db w))
    as [[wf_ix workflow] |] eqn:Hwf.
  2: { unfold raise in H. inversion H; subst r w'. clear H.
       exists [], (fun x => WorkflowRun.set_started_at (utcnow (ticks w))
                              (WorkflowRun.set_status "running" x)).
       cbn. rewrite !app_nil_r, list_alter_alter_eq.
       split; [right; eauto |]. repeat split; auto. }
  set (steps := sorted_by WorkflowStep.position (steps_of workflow (db w))) in *.
  unfold try_except in H. unfold bind at 1 in H.
  match type of H with
  | context [run_steps _ _ _ _ _ _ _ _ _ _ ?x] => set (w1 := x) in *
  end.
  destruct (run_steps json_loads re_search py_repr http_post uuid4 utcnow
              run_ix run steps None w1) as [x w2] eqn:E.
  apply run_steps_spec in E; [| exact I].
  destruct E as (finished & trace & -> & A & B & C & D & E & F & G & K).
  assert (Hw1 : workflow_runs (db w1)
                = alter (fun x => WorkflowRun.set_started_at (utcnow (ticks w))
                                    (WorkflowRun.set_status "running" x))
                    run_ix (workflow_runs (db w))).
  { subst w1. cbn. rewrite list_alter_alter_eq. reflexivity. }
  destruct finished.
  - destruct K as (K1 & _).
    unfold_M. unfold with_db, update_run in H. cbn in H.
    inversion H; subst r w'. clear H.
    eexists trace, _. cbn.
    split; [left; reflexivity |].
    split; [exact A |]. split; [exact B |].
    split; [rewrite K1, Hw1, !list_alter_alter_eq; reflexivity |].
    split; [reflexivity |]. split; [cbn; auto |].
    split; [exact C |]. split; [exact D |].
    split; [intros ? ? [= _ <-]; exact E |]. auto.
  - destruct K as ((reason & t & K1) & _).
    unfold ret in H. inversion H; subst r w'. clear H.
    eexists trace, _.
    split; [left; reflexivity |].
    split; [exact A |]. split; [exact B |].
    split; [rewrite K1, Hw1, !list_alter_alter_eq; reflexivity |].
    split; [reflexivity |]. split; [cbn; auto |].
    split; [exact C |]. split; [exact D |].
    split; [intros ? ? [= _ <-]; exact E |]. auto.
Qed.

End WorkflowFacts.

Lemma list_find_alter_same {A : Type} (P : A -> Prop)
    `{forall x, Decision (P x)} (f : A -> A) (l : list A) (i : nat) (x : A) :
  (forall y, P (f y) <-> P y) ->
  list_find P l = Some (i, x) ->
  list_find P (alter f i l) = Some (i, f x).
Proof.
  intros Hf. revert i. induction l as [| y l IH]; intros i Hfind.
  - discriminate.
  - cbn in Hfind. destruct (decide (P y)) as [Hy | Hy].
    + inversion Hfind; subst. cbn.
      destruct (decide (P (f x))) as [| Hn]; [reflexivity |].
      exfalso. apply Hn, Hf, Hy.
    + destruct (list_find P l) as [[j z] |] eqn:E; [| discriminate].
      cbn in Hfind. inversion Hfind; subst. cbn.
      destruct (decide (P y)); [contradiction |].
      rewrite (IH j eq_refl). reflexivity.
Qed.

Section RunClaims.

Variable json_loads : string -> option json.
Variable re_search : string -> string -> option bool.
Variable py_repr : json -> string.
Variable http_post : nat -> request -> http_outcome.
Variable uuid4 : nat -> string.
Variable utcnow : nat -> Z.

(** Every invocation of [run_workflow] is of one of three kinds. *)
Lemma run_workflow_cases (workflow_run_id : string) (w : world) :
  first_run workflow_run_id (db w) = None
  \/ (exists ix run, first_run workflow_run_id (db w) = Some (ix, run)
                     /\ WorkflowRun.status run <> "pending")
  \/ (exists ix run, first_run workflow_run_id (db w) = Some (ix, run)
                     /\ WorkflowRun.status run = "pending").
Proof.
  destruct (first_run workflow_run_id (db w)) as [[ix run] |]; [| auto].
  destruct (decide (WorkflowRun.status run = "pending")); eauto 6.
Qed.

(** C5.  [run_workflow] on an id with no run, or with a run that is not
    [pending], returns at once and leaves the store as it was; so does it on
    a run that is [completed] or [failed]; and after any invocation, a second
    one on the same id changes nothing: a run is started at most once. *)
Theorem run_workflow_starts_pending_only (workflow_run_id : string) (w : world) :
  (first_run workflow_run_id (db w) = None ->
   run_workflow json_loads re_search py_repr http_post uuid4 utcnow
     workflow_run_id w = (Ok tt, w))
  /\ (forall ix run,
         first_run workflow_run_id (db w) = Some (ix, run) ->
         WorkflowRun.status run <> "pending" ->
         run_workflow json_loads re_search py_repr http_post uuid4 utcnow
           workflow_run_id w = (Ok tt, w))
  /\ (forall ix run,
         first_run workflow_run_id (db w) = Some (ix, run) ->
         WorkflowRun.status run = "completed"
         \/ WorkflowRun.status run = "failed" ->
         run_workflow json_loads re_search py_repr http_post uuid4 utcnow
           workflow_run_id w = (Ok tt, w))
  /\ (forall r w',
         run_workflow json_loads re_search py_repr http_post uuid4 utcnow
           workflow_run_id w = (r, w') ->
         run_workflow json_loads re_search py_repr http_post uuid4 utcnow
           workflow_run_id w' = (Ok tt, w')).
Proof.
  assert (Hskip : forall ix run,
             first_run workflow_run_id (db w) = Some (ix, run) ->
             WorkflowRun.status run <> "pending" ->
             run_workflow json_loads re_search py_repr http_post uuid4 utcnow
               workflow_run_id w = (Ok tt, w)).
  { intros ix run Hrun Hstatus. apply run_workflow_skips.
    rewrite Hrun. exact Hstatus. }
  split; [| split; [exact Hskip | split]].
  - intros Hnone. apply run_workflow_skips. rewrite Hnone. exact I.
  - intros ix run Hrun [Hs | Hs]; apply (Hskip ix run Hrun); rewrite Hs;
      discriminate.
  - intros r w' H.
    destruct (run_workflow_cases workflow_run_id w)
      as [Hnone | [(ix & run & Hrun & Hs) | (ix & run & Hrun & Hs)]].
    + pose proof H as H'. rewrite run_workflow_skips in H'
        by (rewrite Hnone; exact I).
      inversion H'; subst. apply run_workflow_skips. rewrite Hnone. exact I.
    + pose proof H as H'. rewrite (Hskip ix run Hrun Hs) in H'.
      inversion H'; subst. exact (Hskip ix run Hrun Hs).
    + destruct (run_workflow_started _ _ _ _ _ _ _ _ _ _ _ _ Hrun Hs H)
        as (trace & f & _ & _ & _ & Hruns & Hid & Hstatus & _).
      apply run_workflow_skips. unfold first_run in *. rewrite Hruns.
      rewrite (list_find_alter_same _ f _ _ _
                 (fun y => eq_ind_r (fun i => i = _ <-> _) (iff_refl _) (Hid y))
                 Hrun).
      destruct (Hstatus run) as [E | [E | E]]; rewrite E; discriminate.
Qed.

End RunClaims.

Section LogClaims.

Variable json_loads : string -> option json.
Variable re_search : string -> string -> option bool.
Variable py_repr : json -> string.
Variable http_post : nat -> request -> http_outcome.
Variable uuid4 : nat -> string.
Variable utcnow : nat -> Z.

(** The trace of any invocation: empty unless a pending run was started. *)
Lemma run_workflow_trace (workflow_run_id : string) (w w' : world)
    (r : result unit) :
  run_workflow json_loads re_search py_repr http_post uuid4 utcnow
    workflow_run_id w = (r, w') ->
  r <> OutOfFuel
  /\ exists trace run,
       step_runs (db w') = (step_runs (db w) ++ map trace_row trace)%list
       /\ llm_logs (db w')
          = (llm_logs (db w) ++ concat (map trace_logs trace))%list
       /\ Forall (trace_ok run) trace
       /\ contexts_chain None trace
       /\ (forall ix run0 wf_ix workflow,
              first_run workflow_run_id (db w) = Some (ix, run0) ->
              first_workflow (WorkflowRun.workflow_id run0) (db w)
              = Some (wf_ix, workflow) ->
              map trace_step trace
              = take (List.length trace)
                  (sorted_by WorkflowStep.position
                     (steps_of workflow (db w)))).
Proof.
  intros H.
  assert (Hnothing : (r, w') = (Ok tt, w) ->
            r <> OutOfFuel
            /\ exists (trace : list step_trace) (run : WorkflowRun.t),
                 step_runs (db w') = (step_runs (db w) ++ map trace_row trace)%list
                 /\ llm_logs (db w')
                    = (llm_logs (db w) ++ concat (map trace_logs trace))%list
                 /\ Forall (trace_ok run) trace
                 /\ contexts_chain None trace
                 /\ (forall ix run0 wf_ix workflow,
                        first_run workflow_run_id (db w) = Some (ix, run0) ->
                        first_workflow (WorkflowRun.workflow_id run0) (db w)
                        = Some (wf_ix, workflow) ->
                        map trace_step trace
                        = take (List.length trace)
                            (sorted_by WorkflowStep.position
                               (steps_of workflow (db w))))).
  { intros [= -> ->]. split; [discriminate |].
    exists [], (WorkflowRun.mk "" "" "" None None None). cbn.
    rewrite !app_nil_r. repeat split; auto. }
  destruct (run_workflow_cases workflow_run_id w)
    as [Hnone | [(ix & run & Hrun & Hs) | (ix & run & Hrun & Hs)]].
  - apply Hnothing. rewrite <- H. apply run_workflow_skips.
    rewrite Hnone. exact I.
  - apply Hnothing. rewrite <- H. apply run_workflow_skips.
    rewrite Hrun. exact Hs.
  - destruct (run_workflow_started _ _ _ _ _ _ _ _ _ _ _ _ Hrun Hs H)
      as (trace & f & Hr & _ & _ & _ & _ & _ & A & B & C & D & E).
    split; [destruct Hr as [-> | (m & -> & _)]; discriminate |].
    exists trace, run. split; [exact A |]. split; [exact B |].
    split; [exact D |]. split; [exact E |].
    intros ix0 run0 wf_ix workflow Hrun0. rewrite Hrun in Hrun0.
    inversion Hrun0; subst. apply C.
Qed.

(** C1.  An attempt adds at most one row to the log of model calls.  In a
    run, every step with a retry limit [r >= 0] that was executed made at
    most [r + 1] attempts (the attempt number its [StepRun] ends with) and
    added at most [r + 1] rows, all for its [StepRun], with attempt numbers
    that grow from row to row within [1 .. r + 1]; the rows the run added are
    those of its steps, in order.  The run always ends. *)
Theorem model_call_log_bound (workflow_run_id : string) (w w' : world)
    (r : result unit) :
  run_workflow json_loads re_search py_repr http_post uuid4 utcnow
    workflow_run_id w = (r, w') ->
  (forall step step_run input_context retry_feedback w0 r0 w0',
      _execute_single_step json_loads re_search py_repr http_post uuid4 step
        step_run input_context retry_feedback w0 = (r0, w0') ->
      llm_logs (db w0') = llm_logs (db w0)
      \/ exists l, llm_logs (db w0') = (llm_logs (db w0) ++ [l])%list)
  /\ r <> OutOfFuel
  /\ exists trace : list step_trace,
       step_runs (db w') = (step_runs (db w) ++ map trace_row trace)%list
       /\ llm_logs (db w')
          = (llm_logs (db w) ++ concat (map trace_logs trace))%list
       /\ (forall ix run wf_ix workflow,
              first_run workflow_run_id (db w) = Some (ix, run) ->
              first_workflow (WorkflowRun.workflow_id run) (db w)
              = Some (wf_ix, workflow) ->
              map trace_step trace
              = take (List.length trace)
                  (sorted_by WorkflowStep.position
                     (steps_of workflow (db w))))
       /\ Forall
            (fun t =>
               StepRun.workflow_step_id (trace_row t)
               = WorkflowStep.id (trace_step t)
               /\ forall retry_limit,
                    WorkflowStep.retry_limit (trace_step t) = retry_limit ->
                    0 <= retry_limit ->
                    0 < StepRun.attempt_number (trace_row t) <= retry_limit + 1
                    /\ Z.of_nat (List.length (trace_logs t)) <= retry_limit + 1
                    /\ attempts_increase (trace_logs t)
                    /\ Forall
                         (fun l =>
                            LLMLog.step_run_id l = StepRun.id (trace_row t)
                            /\ 0 < LLMLog.attempt_number l <= retry_limit + 1)
                         (trace_logs t))
            trace.
Proof.
  intros H. split.
  { intros step step_run input_context retry_feedback w0 r0 w0' H0.
    apply execute_single_step_spec in H0 as (_ & _ & [Hl | (l & Hl & _)] & _);
      eauto. }
  apply run_workflow_trace in H as (Hfuel & trace & run & A & B & C & _ & E).
  split; [exact Hfuel |].
  exists trace. split; [exact A |]. split; [exact B |]. split; [exact E |].
  eapply Forall_impl; [exact C |]. cbn.
  intros t (T1 & _ & _ & T4 & T5 & T6 & T7 & _).
  split; [exact T1 |].
  intros retry_limit <- Hr. split; [| split; [| split]].
  - destruct T7 as [-> | T7]; lia.
  - lia.
  - exact T6.
  - exact T5.
Qed.

End LogClaims.

(** The claim of C1 on a run of two steps whose first step, with retry limit
    1, fails twice. *)
Lemma model_call_log_bound_witness :
  let out := run_ref ["nope"; "still no"] two_steps in
  fst out <> OutOfFuel
  /\ exists trace : list step_trace,
       step_runs (db (snd out))
       = (step_runs (db (store_ref two_steps)) ++ map trace_row trace)%list
       /\ llm_logs (db (snd out))
          = (llm_logs (db (store_ref two_steps))
             ++ concat (map trace_logs trace))%list
       /\ Forall
            (fun t =>
               forall retry_limit,
                 WorkflowStep.retry_limit (trace_step t) = retry_limit ->
                 0 <= retry_limit ->
                 0 < StepRun.attempt_number (trace_row t) <= retry_limit + 1
                 /\ Z.of_nat (List.length (trace_logs t)) <= retry_limit + 1)
            trace.
Proof.
  intros out.
  assert (H : run_workflow json_loads_ref re_search_literal repr_ref
                (scripted ["nope"; "still no"]) uuid_ref clock_ref "run"
                (store_ref two_steps) = (fst out, snd out))
    by (vm_compute; reflexivity).
  destruct (model_call_log_bound _ _ _ _ _ _ _ _ _ _ H)
    as (_ & Hfuel & trace & A & B & _ & C).
  split; [exact Hfuel |]. exists trace.
  split; [exact A |]. split; [exact B |].
  eapply Forall_impl; [exact C |]. cbn.
  intros t [_ Ht] retry_limit E Hr.
  destruct (Ht retry_limit E Hr) as (T1 & T2 & _). auto.
Defined.

(** The run of that witness: it fails, after two logged attempts of the
    first step; the second step gets no [StepRun]. *)
Example failing_first_step :
  let out := run_ref ["nope"; "still no"] two_steps in
  fst out = Ok tt
  /\ map WorkflowRun.status (workflow_runs (db (snd out))) = ["failed"]
  /\ map (fun l => (LLMLog.call_type l, LLMLog.attempt_number l))
       (llm_logs (db (snd out))) = [("main", 1); ("retry", 2)]
  /\ map (fun s => (StepRun.workflow_step_id s, StepRun.status s,
                    StepRun.attempt_number s)) (step_runs (db (snd out)))
     = [("s1", "failed", 2)].
Proof. vm_compute. repeat split. Qed.

(** A run whose first step extracts a code block: the second step receives
    the inside of the block. *)
Example code_block_is_passed_on :
  let out :=
    run_ref ["pass ```py" ++ nl ++ "x=1" ++ nl ++ "```"; "ok"] two_steps in
  fst out = Ok tt
  /\ map WorkflowRun.status (workflow_runs (db (snd out))) = ["completed"]
  /\ map (fun s => (StepRun.workflow_step_id s, StepRun.status s,
                    StepRun.input_context s, StepRun.extracted_context s))
       (step_runs (db (snd out)))
     = [("s1", "completed", None, Some "x=1");
        ("s2", "completed", Some "x=1", Some "ok")].
Proof. vm_compute. repeat split. Qed.

(** A run whose first and only step answers with whitespace: both attempts
    fail, the second on the same grounds, and no context is passed on. *)
Example blank_output_fails :
  let out :=
    run_ref ["   "; " "] [step_ref "s1" 1 1 "json_only" "contains" (Some "x")] in
  map (fun s => (StepRun.status s, StepRun.extracted_context s))
    (step_runs (db (snd out))) = [("failed", None)].
Proof. vm_compute. reflexivity. Qed.

(* ===================================================================== *)
(** ** The pattern of code blocks *)
(* ===================================================================== *)

Lemma strip_prefix_spec (p s : string) :
  strip_prefix p s
  = if startswith p s then Some (drop_str (String.length p) s) else None.
Proof.
  revert s. induction p as [| a p IH]; intros s; cbn.
  - destruct s; reflexivity.
  - destruct s as [| b s]; [reflexivity |].
    destruct (Ascii.eqb a b); cbn; [apply IH | reflexivity].
Qed.

Lemma find_cons_other (c : ascii) (s : string) :
  Ascii.eqb "`" c = false -> find fence (String c s) = S <$> find fence s.
Proof.
  intros E. unfold fence. cbn [find startswith]. rewrite E. reflexivity.
Qed.

Lemma find_tail_none (sub : string) (c : ascii) (s : string) :
  find sub (String c s) = None -> find sub s = None.
Proof.
  cbn [find]. destruct (startswith sub (String c s)); [discriminate |].
  destruct (find sub s); [discriminate | reflexivity].
Qed.

(** The lazy body followed by the closing fence: the first fence decides. *)
Lemma star_lazy_fence (s0 : string) :
  forall (s pre : string),
    s0 = pre ++ s ->
    star_lazy any_char s
      (fun s' =>
         match strip_prefix fence s' with
         | Some rest =>
             Some (Some (take_str (String.length s0 - String.length s') s0), rest)
         | None => None
         end)
    = match find fence s with
      | Some j =>
          Some (Some (take_str (String.length pre + j) s0), drop_str (j + 3) s)
      | None => None
      end.
Proof.
  induction s as [| c s IH]; intros pre Hs0.
  - reflexivity.
  - assert (Hlen : (String.length s0 - String.length (String c s)
                    = String.length pre)%nat)
      by (rewrite Hs0, length_app_str; lia).
    cbn [star_lazy]. rewrite strip_prefix_spec.
    cbn [find]. destruct (startswith fence (String c s)) eqn:E.
    + rewrite Hlen, Nat.add_0_r. reflexivity.
    + cbn [any_char]. rewrite (IH (pre ++ String c "")).
      * destruct (find fence s) as [j |]; cbn; [| reflexivity].
        rewrite length_app_str. cbn.
        replace (String.length pre + 1 + j)%nat
          with (String.length pre + S j)%nat by lia.
        reflexivity.
      * rewrite Hs0, app_assoc_str. reflexivity.
Qed.

Lemma body_match_none (s : string) :
  body_match s = None <-> find fence s = None.
Proof.
  unfold body_match. destruct (find fence s); split; congruence.
Qed.

Lemma newline_match_none (s : string) :
  newline_match s = None -> find fence s = None.
Proof.
  unfold newline_match. rewrite body_match_none.
  destruct s as [| c s]; [auto |].
  unfold nl. cbn [strip_prefix].
  destruct (Ascii.eqb newline c) eqn:E; cbn [from_option id]; [| auto].
  apply Ascii.eqb_eq in E. subst c. intros H.
  rewrite find_cons_other by reflexivity. rewrite H. reflexivity.
Qed.

Lemma newline_match_word (c : ascii) (s : string) :
  is_word c = true -> find fence s = None ->
  newline_match (String c s) = None.
Proof.
  intros W H. unfold newline_match.
  assert (Hnl : strip_prefix nl (String c s) = None).
  { unfold nl. cbn [strip_prefix].
    destruct (Ascii.eqb newline c) eqn:E; [| reflexivity].
    apply Ascii.eqb_eq in E. subst c. discriminate W. }
  rewrite Hnl. cbn [from_option id]. apply body_match_none.
  rewrite find_cons_other.
  - rewrite H. reflexivity.
  - destruct (Ascii.eqb "`" c) eqn:E; [| reflexivity].
    apply Ascii.eqb_eq in E. subst c. discriminate W.
Qed.

(** The greedy tag gives back nothing useful: a match with a shorter tag
    exists only if one with the longest tag does. *)
Lemma plus_greedy_word (s : string) :
  match s with
  | String c _ => is_word c = true
  | EmptyString => False
  end ->
  plus_greedy is_word s newline_match = newline_match (skip_word s)
  /\ (newline_match (skip_word s) = None -> find fence s = None).
Proof.
  assert (Hword : forall c t, is_word c = true -> find fence t = None ->
                              find fence (String c t) = None).
  { intros c t W H. rewrite find_cons_other; [rewrite H; reflexivity |].
    destruct (Ascii.eqb "`" c) eqn:E; [| reflexivity].
    apply Ascii.eqb_eq in E. subst c. discriminate W. }
  induction s as [| c s IH]; [contradiction |].
  intros W. cbn [plus_greedy skip_word]. rewrite W.
  destruct s as [| d s].
  - cbn [plus_greedy skip_word]. split; [reflexivity |]. intros _.
    apply Hword; [exact W | reflexivity].
  - destruct (is_word d) eqn:Wd.
    + destruct (IH eq_refl) as [IH1 IH2]. rewrite IH1.
      destruct (newline_match (skip_word (String d s))) eqn:N.
      * split; [reflexivity | discriminate].
      * specialize (IH2 eq_refl).
        split; [| intros _; apply Hword; assumption].
        apply newline_match_word; [exact Wd |].
        exact (find_tail_none _ _ _ IH2).
    + clear IH. cbn [plus_greedy skip_word]. rewrite Wd.
      split; [reflexivity |]. intros N. apply newline_match_none in N.
      apply Hword; assumption.
Qed.

Lemma plus_greedy_ext (cls : ascii -> bool) (k k' : string -> option match_result) :
  (forall s, k s = k' s) ->
  forall s, plus_greedy cls s k = plus_greedy cls s k'.
Proof.
  intros Hk. induction s as [| c s IH]; cbn; [reflexivity |].
  rewrite IH, Hk. reflexivity.
Qed.

(** The continuation the matcher runs after the tag is [newline_match]. *)
Lemma after_tag_newline_match (s : string) (cap : option string) :
  rmatch (Cat (Opt (Lit nl)) (Cat (Group (LazyStar any_char)) (Lit fence)))
    s cap (fun rest cap' => Some (cap', rest))
  = newline_match s.
Proof.
  assert (Hbody : forall t,
             rmatch (Cat (Group (LazyStar any_char)) (Lit fence)) t cap
               (fun rest cap' => Some (cap', rest))
             = body_match t).
  { intros t. cbn [rmatch]. rewrite (star_lazy_fence t t "" eq_refl).
    reflexivity. }
  cbn [rmatch] in *. unfold newline_match.
  destruct (strip_prefix nl s) as [rest |] eqn:E; cbn [from_option id].
  - rewrite Hbody. destruct (body_match rest) eqn:B; [reflexivity |].
    rewrite Hbody. apply body_match_none. apply body_match_none in B.
    destruct s as [| c s]; [discriminate |].
    unfold nl in E. cbn [strip_prefix] in E.
    destruct (Ascii.eqb newline c) eqn:Ec; [| discriminate].
    apply Ascii.eqb_eq in Ec. subst c. inversion E; subst.
    rewrite find_cons_other by reflexivity. rewrite B. reflexivity.
  - apply Hbody.
Qed.

(** The matcher on the pattern of code blocks is [fence_match]. *)
Lemma match_here_code_block (s : string) :
  match_here code_block_re s = fence_match s.
Proof.
  replace (fence_match s)
    with (match strip_prefix fence s with
          | Some s1 => newline_match (skip_word s1)
          | None => None
          end) by reflexivity.
  unfold match_here, code_block_re.
  cbn [rmatch]. destruct (strip_prefix fence s) as [s1 |]; [| reflexivity].
  pose proof (fun t => after_tag_newline_match t None) as Hk.
  cbn [rmatch] in Hk.
  rewrite (plus_greedy_ext is_word _ newline_match Hk), Hk.
  destruct s1 as [| c s1]; [reflexivity |].
  destruct (is_word c) eqn:W.
  - destruct (plus_greedy_word (String c s1) W) as [H1 H2]. rewrite H1.
    destruct (newline_match (skip_word (String c s1))) eqn:N; [reflexivity |].
    apply newline_match_word; [exact W |].
    exact (find_tail_none _ _ _ (H2 eq_refl)).
  - cbn [plus_greedy skip_word]. rewrite W. reflexivity.
Qed.

(* ===================================================================== *)
(** ** Texts without a fence *)
(* ===================================================================== *)

Lemma take_app_length (a b : string) : take_str (String.length a) (a ++ b) = a.
Proof. induction a as [| c a IH]; cbn; [destruct b | rewrite IH]; reflexivity. Qed.

Lemma drop_app_length (a b : string) : drop_str (String.length a) (a ++ b) = b.
Proof. induction a as [| c a IH]; cbn; [| rewrite IH]; reflexivity. Qed.

Lemma startswith_take (p s : string) (n : nat) :
  startswith p (take_str n s) = true -> startswith p s = true.
Proof.
  revert s n. induction p as [| a p IH]; intros s n; [reflexivity |].
  destruct n as [| n], s as [| b s]; cbn; try discriminate.
  rewrite !andb_true_iff. intros [H1 H2]. split; [exact H1 | eauto].
Qed.

(** Before the first fence there is no fence. *)
Lemma find_fence_take (s : string) (j : nat) :
  find fence s = Some j -> find fence (take_str j s) = None.
Proof.
  revert j. induction s as [| c s IH]; intros j; [discriminate |].
  cbn [find]. destruct (startswith fence (String c s)) eqn:E.
  - intros [= <-]. reflexivity.
  - destruct (find fence s) as [k |] eqn:F; [| discriminate].
    intros [= <-]. cbn [take_str find].
    destruct (startswith fence (String c (take_str k s))) eqn:E'.
    + apply (startswith_take fence (String c s) (S k)) in E'. congruence.
    + rewrite (IH k eq_refl). reflexivity.
Qed.

Lemma lstrip_suffix (s : string) : exists a, s = a ++ lstrip s.
Proof.
  induction s as [| c s [a IH]]; [exists ""; reflexivity |].
  cbn. destruct (is_space c).
  - exists (String c a). cbn. rewrite <- IH. reflexivity.
  - exists "". reflexivity.
Qed.

Lemma rstrip_prefix (s : string) : exists b, s = rstrip s ++ b.
Proof.
  induction s as [| c s [b IH]]; [exists ""; reflexivity |].
  cbn. destruct (is_empty (rstrip s) && is_space c).
  - exists (String c s). reflexivity.
  - exists b. cbn. rewrite <- IH. reflexivity.
Qed.

Lemma find_none_contains (sub s : string) :
  find sub s = None <-> contains sub s = false.
Proof. unfold contains. destruct (find sub s); split; congruence. Qed.

(** A part of a text without a fence has no fence. *)
Lemma find_fence_part (a s b : string) :
  find fence (a ++ s ++ b) = None -> find fence s = None.
Proof.
  rewrite !find_none_contains. intros H.
  destruct (contains fence s) eqn:E; [| reflexivity].
  apply contains_spec in E as [pre [post ->]].
  assert (C : contains fence (a ++ (pre ++ fence ++ post) ++ b) = true).
  { apply contains_spec. exists (a ++ pre), (post ++ b).
    rewrite !app_assoc_str. reflexivity. }
  congruence.
Qed.

Lemma find_fence_strip (s : string) :
  find fence s = None -> find fence (strip s) = None.
Proof.
  intros H. unfold strip.
  destruct (lstrip_suffix s) as [a Ha].
  destruct (rstrip_prefix (lstrip s)) as [b Hb].
  apply (find_fence_part a _ b). rewrite <- Hb, <- Ha. exact H.
Qed.

Lemma startswith_fence_before_newline (u t : string) :
  startswith fence (u ++ nl ++ t) = startswith fence u.
Proof.
  destruct u as [| x [| y [| z u]]]; cbn;
    repeat match goal with
           | |- context [Ascii.eqb ?a ?b] => destruct (Ascii.eqb a b)
           end; reflexivity.
Qed.

(** The first fence after a text without one, a newline in between. *)
Lemma find_fence_after (a t : string) :
  find fence a = None ->
  find fence (a ++ nl ++ t)
  = (fun k => (String.length a + 1 + k)%nat) <$> find fence t.
Proof.
  induction a as [| c a IH]; intros H.
  - cbn [String.append nl]. rewrite find_cons_other by reflexivity.
    destruct (find fence t); reflexivity.
  - pose proof (find_tail_none _ _ _ H) as Ha.
    cbn [find] in H. destruct (startswith fence (String c a)) eqn:E;
      [discriminate |].
    change (String c a ++ nl ++ t) with (String c (a ++ nl ++ t)).
    cbn [find].
    change (String c (a ++ nl ++ t)) with (String c a ++ nl ++ t).
    rewrite startswith_fence_before_newline, E, (IH Ha).
    destruct (find fence t); reflexivity.
Qed.

Lemma find_fence_join (blocks : list string) :
  Forall (fun b => find fence b = None) blocks ->
  find fence (join (nl ++ nl) blocks) = None.
Proof.
  induction blocks as [| x [| y rest] IH]; intros H.
  - reflexivity.
  - inversion H; assumption.
  - inversion H as [| ? ? Hx Hrest]; subst.
    change (join (nl ++ nl) (x :: y :: rest))
      with (x ++ (nl ++ nl) ++ join (nl ++ nl) (y :: rest)).
    rewrite app_assoc_str, (find_fence_after x _ Hx).
    change (nl ++ join (nl ++ nl) (y :: rest))
      with ("" ++ nl ++ join (nl ++ nl) (y :: rest)).
    rewrite (find_fence_after "" _ eq_refl), (IH Hrest). reflexivity.
Qed.

(** The bodies the pattern finds have no fence in them. *)
Lemma findall_code_blocks_no_fence (s : string) :
  forall skip : nat,
    Forall (fun b => find fence b = None) (findall_from code_block_re skip s).
Proof.
  induction s as [| c s IH]; intros [| n]; cbn [findall_from];
    try (constructor; fail); try apply IH.
  rewrite match_here_code_block. unfold fence_match.
  destruct (strip_prefix fence (String c s)) as [s1 |]; [| apply IH].
  cbn zeta. set (s3 := default _ _).
  destruct (find fence s3) as [j |] eqn:F; [| apply IH].
  constructor; [| apply IH]. cbn. apply find_fence_take. exact F.
Qed.

(** The result of [extract_code_blocks] has no fence in it. *)
Lemma extract_code_blocks_no_fence (text : string) :
  find fence (extract_code_blocks text) = None.
Proof.
  unfold extract_code_blocks, findall.
  pose proof (findall_code_blocks_no_fence text 0) as H.
  destruct (findall_from code_block_re 0 text) as [| b blocks]; [reflexivity |].
  apply find_fence_join. apply Forall_map.
  eapply Forall_impl; [exact H |]. cbn. apply find_fence_strip.
Qed.

Lemma findall_skip_all (r : regex) (s : string) :
  findall_from r (String.length s) s = findall_from r 0 "".
Proof. induction s as [| c s IH]; [reflexivity | exact IH]. Qed.

(** A text without a fence, wrapped, is one block: the text and the newline
    before the closing fence. *)
Lemma findall_rewrap (e : string) :
  find fence e = None -> findall code_block_re (rewrap e) = [e ++ nl].
Proof.
  intros H. unfold findall, rewrap.
  change (fence ++ nl ++ e ++ nl ++ fence)
    with (String "`" (String "`" (String "`" (String newline (e ++ nl ++ fence))))).
  cbn [findall_from]. rewrite match_here_code_block.
  assert (Hm : fence_match
                 (String "`" (String "`" (String "`"
                    (String newline (e ++ nl ++ fence)))))
               = Some (Some (e ++ nl), "")).
  { unfold fence_match.
    change (strip_prefix fence
              (String "`" (String "`" (String "`"
                 (String newline (e ++ nl ++ fence))))))
      with (Some (String newline (e ++ nl ++ fence))).
    cbn beta iota zeta.
    change (skip_word (String newline (e ++ nl ++ fence)))
      with (String newline (e ++ nl ++ fence)).
    change (strip_prefix nl (String newline (e ++ nl ++ fence)))
      with (Some (e ++ nl ++ fence)).
    cbn [from_option id].
    rewrite (find_fence_after e fence H).
    change (find fence fence) with (Some 0%nat). cbn [fmap option_fmap option_map].
    replace (String.length e + 1 + 0)%nat with (String.length (e ++ nl))
      by (rewrite length_app_str; cbn; lia).
    rewrite <- (app_assoc_str e nl fence), take_app_length.
    replace (String.length (e ++ nl) + 3)%nat
      with (String.length ((e ++ nl) ++ fence))
      by (rewrite !length_app_str; cbn; lia).
    rewrite <- (app_empty_r ((e ++ nl) ++ fence)) at 2.
    rewrite drop_app_length. reflexivity. }
  rewrite Hm. cbn [from_option id]. f_equal.
  assert (Hskip : forall (n : nat) (t : string),
             n = String.length t -> findall_from code_block_re n t = []).
  { intros n t ->. rewrite findall_skip_all. reflexivity. }
  apply Hskip. cbn [String.length]. reflexivity.
Qed.

Lemma lstrip_app (s t : string) :
  lstrip (s ++ t) = if whitespace_only s then lstrip t else lstrip s ++ t.
Proof.
  induction s as [| c s IH]; cbn; [reflexivity |].
  destruct (is_space c); cbn; [exact IH | reflexivity].
Qed.

Lemma rstrip_app_newline (s : string) : rstrip (s ++ nl) = rstrip s.
Proof.
  induction s as [| c s IH]; cbn; [reflexivity |]. rewrite IH. reflexivity.
Qed.

Lemma strip_app_newline (s : string) : strip (s ++ nl) = strip s.
Proof.
  unfold strip. rewrite lstrip_app.
  destruct (whitespace_only s) eqn:E.
  - rewrite <- lstrip_blank in E. rewrite <- rstrip_blank in E.
    apply is_empty_true in E. fold (strip s) in E. unfold strip in E.
    rewrite E. reflexivity.
  - apply rstrip_app_newline.
Qed.

Lemma join_snoc (sep : string) (l : list string) (y : string) :
  l <> [] -> join sep (l ++ [y]) = join sep l ++ sep ++ y.
Proof.
  induction l as [| x [| x' l] IH]; intros Hl.
  - contradiction.
  - reflexivity.
  - change (join sep ((x :: x' :: l) ++ [y]))
      with (x ++ sep ++ join sep ((x' :: l) ++ [y])).
    rewrite IH by discriminate.
    change (join sep (x :: x' :: l)) with (x ++ sep ++ join sep (x' :: l)).
    rewrite !app_assoc_str. reflexivity.
Qed.

Lemma rstrip_app_keep (a y : string) :
  is_empty (rstrip y) = false -> rstrip (a ++ y) = a ++ rstrip y.
Proof.
  intros Hy. induction a as [| c a IH]; cbn; [reflexivity |].
  rewrite IH.
  assert (E : is_empty (a ++ rstrip y) = false)
    by (destruct a; [exact Hy | reflexivity]).
  rewrite E. reflexivity.
Qed.

Lemma strip_head (b : string) :
  whitespace_only b = false ->
  exists c t, strip b = String c t /\ is_space c = false.
Proof.
  intros Hb. unfold strip. pose proof (lstrip_head b) as Hhead.
  rewrite <- lstrip_blank in Hb.
  destruct (lstrip b) as [| c t]; [discriminate |].
  rewrite (rstrip_head _ _ Hhead). eauto.
Qed.

Lemma join_head (sep x : string) (rest : list string) (c : ascii) (t : string) :
  x = String c t -> exists t', join sep (x :: rest) = String c t'.
Proof.
  intros ->. destruct rest as [| y rest]; cbn; eauto.
Qed.

(** Blocks joined after trimming are trimmed as a whole, when the first and
    the last of them are not blank. *)
Lemma strip_join_trimmed (x y : string) (mid : list string) :
  whitespace_only x = false -> whitespace_only y = false ->
  strip (join (nl ++ nl) (map strip (x :: mid ++ [y])))
  = join (nl ++ nl) (map strip (x :: mid ++ [y])).
Proof.
  intros Hx Hy.
  destruct (strip_head x Hx) as (c & t & Hc & Hspace).
  replace (map strip (x :: mid ++ [y]))
    with ((strip x :: map strip mid) ++ [strip y])%list
    by (cbn; rewrite map_app; reflexivity).
  destruct (join_head (nl ++ nl) (strip x) (map strip mid ++ [strip y]) c t Hc)
    as [t' Hjoin].
  change ((strip x :: map strip mid) ++ [strip y])%list
    with (strip x :: map strip mid ++ [strip y]) at 1.
  unfold strip at 1. rewrite Hjoin, (lstrip_id _ _ Hspace), <- Hjoin.
  change (strip x :: map strip mid ++ [strip y])
    with ((strip x :: map strip mid) ++ [strip y])%list.
  rewrite join_snoc by discriminate.
  assert (Hr : rstrip (strip y) = strip y) by apply rstrip_idem.
  rewrite <- app_assoc_str, rstrip_app_keep.
  - rewrite Hr. reflexivity.
  - rewrite Hr, strip_blank. exact Hy.
Qed.

(** When [extract_code_blocks] returns a trimmed text: always for a single
    block, and for several when the first and the last are not blank. *)
Lemma extract_code_blocks_trimmed (text : string) :
  (forall b, findall code_block_re text = [b] ->
             strip (extract_code_blocks text) = extract_code_blocks text)
  /\ (forall x mid y,
         findall code_block_re text = (x :: mid ++ [y])%list ->
         whitespace_only x = false -> whitespace_only y = false ->
         strip (extract_code_blocks text) = extract_code_blocks text).
Proof.
  unfold extract_code_blocks. split.
  - intros b ->. cbn. apply strip_idem.
  - intros x mid y -> Hx Hy. apply strip_join_trimmed; assumption.
Qed.

(** C8, as the code has it.  For every text, with [E] what
    [extract_code_blocks] returns on it: wrapping [E] between two fence
    lines and extracting again returns [E] trimmed; so it returns [E] itself
    whenever [E] neither starts nor ends with whitespace. *)
Theorem extract_code_blocks_rewrap (text : string) :
  let E := extract_code_blocks text in
  extract_code_blocks (rewrap E) = strip E
  /\ (strip E = E -> extract_code_blocks (rewrap E) = E).
Proof.
  intros E.
  assert (H : extract_code_blocks (rewrap E) = strip E).
  { unfold extract_code_blocks at 1.
    rewrite (findall_rewrap E (extract_code_blocks_no_fence text)).
    cbn [map join]. apply strip_app_newline. }
  split; [exact H |]. intros Hs. rewrite H. exact Hs.
Qed.

(** C8 as stated fails: a text whose first block is blank yields an [E] that
    starts with blank lines, which no re-extraction gives back, whichever
    way [E] is wrapped. *)
Lemma extract_code_blocks_not_idempotent :
  let text := "``` ``````" ++ nl ++ "x```" in
  let E := extract_code_blocks text in
  E = nl ++ nl ++ "x"
  /\ E <> ""
  /\ extract_code_blocks (rewrap E) = "x"
  /\ extract_code_blocks (rewrap_inline E) = "x"
  /\ extract_code_blocks (rewrap E) <> E
  /\ extract_code_blocks (rewrap_inline E) <> E.
Proof. vm_compute. repeat split; discriminate. Qed.

(** With the fences right against the text, a one-word [E] is taken for a
    language tag and lost. *)
Example inline_rewrap_loses_a_word :
  extract_code_blocks ("```" ++ nl ++ "hello```") = "hello"
  /\ extract_code_blocks (rewrap_inline "hello") = ""
  /\ extract_code_blocks (rewrap "hello") = "hello".
Proof. vm_compute. repeat split. Qed.

(* ===================================================================== *)
(** ** The extraction of JSON *)
(* ===================================================================== *)

Section JsonFacts.

Variable json_loads : string -> option json.

Lemma scan_json_sound (start_char end_char : ascii) (text : string)
    (start : nat) (rest : string) :
  forall (i : nat) (depth : Z) (candidate : string),
    scan_json json_loads start_char end_char text start i depth rest
    = Some candidate ->
    exists (j : nat) (v : json),
      (i <= j)%nat /\ candidate = slice start (j + 1) text
      /\ json_loads candidate = Some v.
Proof.
  induction rest as [| c rest IH]; intros i depth candidate; cbn [scan_json];
    [discriminate |].
  assert (Hnext : forall d,
             scan_json json_loads start_char end_char text start (S i) d rest
             = Some candidate ->
             exists (j : nat) (v : json),
               (i <= j)%nat /\ candidate = slice start (j + 1) text
               /\ json_loads candidate = Some v).
  { intros d H. destruct (IH _ _ _ H) as (j & v & Hj & Hc & Hv).
    exists j, v. split; [lia | auto]. }
  destruct (Ascii.eqb c start_char); [apply Hnext |].
  destruct (Ascii.eqb c end_char); [| apply Hnext].
  destruct (depth - 1 =? 0); [| apply Hnext].
  destruct (json_loads (slice start (i + 1) text)) as [v |] eqn:E;
    [| apply Hnext].
  intros [= <-]. exists i, v. split; [lia | auto].
Qed.

(** What [extract_json] returns is empty or decodes, and then it is a span
    of the text that starts at the first opening character of its kind. *)
Lemma extract_json_sound (text : string) :
  extract_json json_loads text = ""
  \/ exists (open : string) (start j : nat) (v : json),
       (open = "{" \/ open = "[")
       /\ find open text = Some start
       /\ (start <= j)%nat
       /\ extract_json json_loads text = slice start (j + 1) text
       /\ json_loads (extract_json json_loads text) = Some v.
Proof.
  unfold extract_json. cbn [extract_json_from].
  destruct (find "{" text) as [start |] eqn:F1.
  - destruct (scan_json json_loads "{" "}" text start start 0
                (drop_str start text)) as [c |] eqn:S1.
    + right. destruct (scan_json_sound _ _ _ _ _ _ _ _ S1)
        as (j & v & Hj & Hc & Hv).
      exists "{", start, j, v. subst c. auto 6.
    + destruct (find "[" text) as [start2 |] eqn:F2; [| auto].
      destruct (scan_json json_loads "[" "]" text start2 start2 0
                  (drop_str start2 text)) as [c |] eqn:S2; [| auto].
      right. destruct (scan_json_sound _ _ _ _ _ _ _ _ S2)
        as (j & v & Hj & Hc & Hv).
      exists "[", start2, j, v. subst c. auto 6.
  - destruct (find "[" text) as [start2 |] eqn:F2; [| auto].
    destruct (scan_json json_loads "[" "]" text start2 start2 0
                (drop_str start2 text)) as [c |] eqn:S2; [| auto].
    right. destruct (scan_json_sound _ _ _ _ _ _ _ _ S2)
      as (j & v & Hj & Hc & Hv).
    exists "[", start2, j, v. subst c. auto 6.
Qed.

(** The scan finds a span when there is one to find: a closing character
    [k] characters on, at which the depth is back to zero and where the text
    from [start] decodes. *)
Lemma scan_json_complete (start_char end_char : ascii) (text : string)
    (start : nat) (v : json) :
  forall (rest : string) (k i : nat) (depth : Z),
    String.get k rest = Some end_char ->
    Ascii.eqb end_char start_char = false ->
    depth + net_depth start_char end_char (take_str (k + 1) rest) = 0 ->
    json_loads (slice start (i + k + 1) text) = Some v ->
    exists candidate,
      scan_json json_loads start_char end_char text start i depth rest
      = Some candidate.
Proof.
  induction rest as [| c rest IH]; intros k i depth Hget Hne Hdepth Hv;
    [destruct k; discriminate |].
  cbn [scan_json]. destruct k as [| k].
  - cbn in Hget. inversion Hget; subst c. rewrite Hne.
    rewrite Ascii.eqb_refl. cbn in Hdepth. rewrite Hne, Ascii.eqb_refl in Hdepth.
    replace (depth - 1 =? 0) with true by (symmetry; apply Z.eqb_eq; lia).
    rewrite Nat.add_0_r in Hv. rewrite Hv. eauto.
  - cbn [String.get] in Hget.
    change (take_str (S k + 1) (String c rest))
      with (String c (take_str (k + 1) rest)) in Hdepth.
    cbn [net_depth] in Hdepth.
    replace (i + S k + 1)%nat with (S i + k + 1)%nat in Hv by lia.
    destruct (Ascii.eqb c start_char).
    + apply (IH k (S i)); auto; lia.
    + destruct (Ascii.eqb c end_char).
      * destruct (depth - 1 =? 0).
        -- destruct (json_loads (slice start (i + 1) text)); [eauto |].
           apply (IH k (S i)); auto; lia.
        -- apply (IH k (S i)); auto; lia.
      * apply (IH k (S i)); auto; lia.
Qed.

(** X13.  What [extract_json] does find: when the text from its first brace
    to a closing brace, with as many braces opened as closed, decodes, the
    result is a part of the text that starts at that brace and decodes. *)
Lemma extract_json_finds_anchored_span (text : string) (start k : nat)
    (v : json) :
  find "{" text = Some start ->
  String.get k (drop_str start text) = Some "}"%char ->
  net_depth "{" "}" (slice start (start + k + 1) text) = 0 ->
  json_loads (slice start (start + k + 1) text) = Some v ->
  exists (j : nat) (v' : json),
    (start <= j)%nat
    /\ extract_json json_loads text = slice start (j + 1) text
    /\ json_loads (extract_json json_loads text) = Some v'.
Proof.
  intros Hfind Hget Hdepth Hv.
  unfold extract_json. cbn [extract_json_from]. rewrite Hfind.
  destruct (scan_json_complete "{" "}" text start v (drop_str start text)
              k start 0 Hget eq_refl) as [candidate Hscan].
  - unfold slice in Hdepth.
    replace (start + k + 1 - start)%nat with (k + 1)%nat in Hdepth by lia.
    rewrite Hdepth. reflexivity.
  - exact Hv.
  - rewrite Hscan.
    destruct (scan_json_sound _ _ _ _ _ _ _ _ Hscan) as (j & v' & Hj & Hc & Hv').
    exists j, v'. subst candidate. auto.
Qed.

(** An opening brace that is never closed hides every object after it,
    whatever the decoder accepts. *)
Lemma extract_json_unclosed_brace :
  extract_json json_loads "{{}" = "".
Proof. reflexivity. Qed.

End JsonFacts.

(** C3 fails on the code.  The text below holds the valid object
    [{"x": 1}], a balanced span, and [extract_json] returns the empty
    string: it only tries spans that start at the first brace. *)
Theorem extract_json_misses_valid_span :
  let text := py "Use {name} here: {'x': 1}" in
  extract_json json_loads_ref text = ""
  /\ slice 17 25 text = py "{'x': 1}"
  /\ json_loads_ref (slice 17 25 text) = Some (JObj [("x", JInt 1)]).
Proof. vm_compute. repeat split. Qed.

(** Where the span to find starts at the first brace, it is found. *)
Example extract_json_finds_first_span :
  extract_json json_loads_ref (py "Result: {'a': {'b': [1, 2]}} done")
  = py "{'a': {'b': [1, 2]}}"
  /\ extract_json json_loads_ref (py "see [1, {'k': 2}] and {'x': 1}")
     = py "{'k': 2}"
  /\ extract_json json_loads_ref "no json here" = "".
Proof. vm_compute. repeat split. Qed.

(* ===================================================================== *)
(** ** The rules, one by one *)
(* ===================================================================== *)

Section MoreRuleFacts.

Variable json_loads : string -> option json.
Variable re_search : string -> string -> option bool.

(** The handlers of the table are the four of the module. *)
Lemma RULE_HANDLERS_cases (rule_type : string) (handler : string -> string -> bool) :
  RULE_HANDLERS json_loads re_search !! rule_type = Some handler ->
  (rule_type = "contains" /\ handler = _rule_contains)
  \/ (rule_type = "regex" /\ handler = _rule_regex re_search)
  \/ (rule_type = "json_valid" /\ handler = _rule_json_valid json_loads)
  \/ (rule_type = "code_block_present" /\ handler = _rule_code_block_present).
Proof.
  unfold RULE_HANDLERS. intros H.
  destruct (decide (rule_type = "contains")) as [-> | N1].
  { rewrite lookup_insert_eq in H. inversion H. auto. }
  rewrite lookup_insert_ne in H by congruence.
  destruct (decide (rule_type = "regex")) as [-> | N2].
  { rewrite lookup_insert_eq in H. inversion H. auto. }
  rewrite lookup_insert_ne in H by congruence.
  destruct (decide (rule_type = "json_valid")) as [-> | N3].
  { rewrite lookup_insert_eq in H. inversion H. auto 6. }
  rewrite lookup_insert_ne in H by congruence.
  destruct (decide (rule_type = "code_block_present")) as [-> | N4].
  { rewrite lookup_insert_eq in H. inversion H. auto 6. }
  rewrite lookup_insert_ne in H by congruence.
  rewrite lookup_empty in H. discriminate.
Qed.

Lemma RULE_HANDLERS_regex :
  RULE_HANDLERS json_loads re_search !! "regex" = Some (_rule_regex re_search).
Proof. reflexivity. Qed.

Lemma RULE_HANDLERS_json_valid :
  RULE_HANDLERS json_loads re_search !! "json_valid"
  = Some (_rule_json_valid json_loads).
Proof. reflexivity. Qed.

Lemma RULE_HANDLERS_code_block_present :
  RULE_HANDLERS json_loads re_search !! "code_block_present"
  = Some _rule_code_block_present.
Proof. reflexivity. Qed.

(** X1.  No rule passes on an empty or absent output, whatever the rule type
    (handled or not) and the rule value. *)
Theorem evaluate_rule_empty_output (rule_type : string)
    (rule_value : option string) :
  fst (evaluate_rule json_loads re_search rule_type rule_value None) = false
  /\ fst (evaluate_rule json_loads re_search rule_type rule_value (Some ""))
     = false.
Proof.
  unfold evaluate_rule.
  destruct (RULE_HANDLERS json_loads re_search !! rule_type) as [handler |] eqn:E;
    [| split; reflexivity].
  cbn [or_str is_empty fst].
  destruct (RULE_HANDLERS_cases _ _ E)
    as [[_ ->] | [[_ ->] | [[_ ->] | [_ ->]]]].
  - split; apply rule_contains_empty_text.
  - split; reflexivity.
  - split; reflexivity.
  - split; reflexivity.
Qed.

Lemma is_empty_false (s : string) : is_empty s = false <-> s <> "".
Proof. destruct s; simpl; split; congruence. Qed.

Lemma or_str_some (s : string) : or_str (Some s) "" = s.
Proof. destruct s; reflexivity. Qed.

(** X2.  The rule [contains] with a value passes exactly when the value is
    not empty and occurs in the output, letter for letter; the reason tells
    the outcome. *)
Theorem evaluate_rule_contains_occurrence (value output : string) :
  let verdict :=
    evaluate_rule json_loads re_search "contains" (Some value) (Some output) in
  (fst verdict = true
   <-> value <> "" /\ exists pre post, output = pre ++ value ++ post)
  /\ snd verdict
     = if fst verdict then "Rule 'contains' passed" else "Rule 'contains' failed".
Proof.
  cbn zeta. unfold evaluate_rule. rewrite RULE_HANDLERS_contains.
  rewrite !or_str_some. cbn [fst snd]. split.
  - unfold _rule_contains. rewrite !andb_true_iff, !negb_true_iff.
    rewrite !is_empty_false, contains_spec. split.
    + intros [[Hv _] Hc]. auto.
    + intros [Hv (pre & post & ->)]. split; [split |]; eauto.
      destruct pre; [destruct value; [congruence | discriminate] | discriminate].
  - destruct (_rule_contains output value); reflexivity.
Qed.

(** X3.  The rule [code_block_present] passes exactly when a fence of three
    backticks occurs in the output; the rule value plays no part. *)
Theorem evaluate_rule_code_block_present (rule_value : option string)
    (output : string) :
  let verdict :=
    evaluate_rule json_loads re_search "code_block_present" rule_value
      (Some output) in
  (fst verdict = true <-> exists pre post, output = pre ++ "```" ++ post)
  /\ snd verdict
     = if fst verdict then "Rule 'code_block_present' passed"
       else "Rule 'code_block_present' failed".
Proof.
  cbn zeta. unfold evaluate_rule. rewrite RULE_HANDLERS_code_block_present.
  rewrite or_str_some. cbn [fst snd]. split.
  - unfold _rule_code_block_present. rewrite andb_true_iff, negb_true_iff.
    rewrite is_empty_false. fold fence. rewrite contains_spec. split.
    + intros [_ H]. exact H.
    + intros (pre & post & ->). split; eauto.
      destruct pre; discriminate.
  - destruct (_rule_code_block_present output _); reflexivity.
Qed.

(** X4.  The rule [regex]: an empty or absent pattern fails on every output,
    although the empty pattern matches everywhere; a pattern that [re]
    refuses makes the rule fail, it does not raise; otherwise the rule is
    the search of the pattern in the output. *)
Theorem evaluate_rule_regex (output : string) :
  fst (evaluate_rule json_loads re_search "regex" None (Some output)) = false
  /\ fst (evaluate_rule json_loads re_search "regex" (Some "") (Some output))
     = false
  /\ (forall pattern,
         re_search pattern output = None ->
         evaluate_rule json_loads re_search "regex" (Some pattern) (Some output)
         = (false, "Rule 'regex' failed"))
  /\ (forall pattern found,
         pattern <> "" -> output <> "" ->
         re_search pattern output = Some found ->
         fst (evaluate_rule json_loads re_search "regex" (Some pattern)
                (Some output)) = found).
Proof.
  unfold evaluate_rule. rewrite RULE_HANDLERS_regex.
  split; [| split; [| split]].
  - cbn [fst or_str]. unfold _rule_regex. rewrite orb_true_r. reflexivity.
  - cbn [fst or_str is_empty]. unfold _rule_regex. rewrite orb_true_r.
    reflexivity.
  - intros pattern H. rewrite !or_str_some. unfold _rule_regex. rewrite H.
    destruct (is_empty output || is_empty pattern); reflexivity.
  - intros pattern found Hp Ho H. rewrite !or_str_some. cbn [fst].
    unfold _rule_regex. rewrite H.
    apply is_empty_false in Hp, Ho. rewrite Hp, Ho. reflexivity.
Qed.

End MoreRuleFacts.

(* ===================================================================== *)
(** ** The client of the model *)
(* ===================================================================== *)

(** The estimate at the prices of the table, which are the same for every
    entry. *)
Lemma estimate_cost_prices (model : string) :
  default default_costs (MODEL_COSTS !! model) = mk_price 0.0003 0.0012.
Proof.
  destruct (MODEL_COSTS !! model) as [p |] eqn:E; cbn [default from_option id].
  - apply MODEL_COSTS_keys in E as [_ ->]. reflexivity.
  - reflexivity.
Qed.

(** X5.  The estimate does not depend on the model: the two models of the
    table have the same prices, and they are those of the default.  No
    tokens cost nothing. *)
Theorem estimate_cost_any_model (model model' : string)
    (input_tokens output_tokens : Z) :
  _estimate_cost model input_tokens output_tokens
  = _estimate_cost model' input_tokens output_tokens
  /\ _estimate_cost model 0 0 = 0%float.
Proof.
  unfold _estimate_cost. rewrite !estimate_cost_prices.
  split; reflexivity.
Qed.

Section ClientFacts.

Variable http_post : nat -> request -> http_outcome.

(** The requests of [call_llm]: one or two, and nothing else. *)
Lemma call_llm_requests (messages : list message) (model : string)
    (max_tokens : Z) (temperature : float) (w w' : world)
    (r : result (string * Z * Z * float * Z)) :
  call_llm http_post messages model max_tokens temperature w = (r, w') ->
  db w' = db w /\ uuids w' = uuids w /\ ticks w' = ticks w
  /\ (http_calls w < http_calls w' <= http_calls w + 2)%nat
  /\ r <> OutOfFuel
  /\ (forall content input_tokens output_tokens cost latency_ms,
         r = Ok (content, input_tokens, output_tokens, cost, latency_ms) ->
         cost = _estimate_cost model input_tokens output_tokens).
Proof.
  unfold call_llm. cbn [call_llm_from].
  change (0 =? 1) with false. change (1 =? 1) with true.
  unfold_M. cbn [http_calls db uuids ticks].
  set (req := mk_request model messages max_tokens temperature).
  destruct (http_post (http_calls w) req) as [text pt ct ms | e | sc text | e].
  all: cbn [http_calls db uuids ticks].
  2: destruct (http_post (S (http_calls w)) req)
       as [text pt ct ms | e2 | sc text | e2].
  all: intros [= <- <-]; cbn; repeat split; auto; try lia; try discriminate.
  all: intros ? ? ? ? ? [= _ <- <- <- _]; reflexivity.
Qed.

(** X6.  [call_llm] sends one request, or two: a second one is sent exactly
    when the first ended in a transport error; an HTTP error status and any
    other failure are not retried.  Nothing else changes.  It raises
    [RuntimeError] only; when it returns, it returns what the last request
    brought, with the estimated cost of its token counts. *)
Theorem call_llm_retry_policy (messages : list message) (model : string)
    (max_tokens : Z) (temperature : float) (w : world) :
  let req := mk_request model messages max_tokens temperature in
  let out := call_llm http_post messages model max_tokens temperature w in
  let sent := (http_calls (snd out) - http_calls w)%nat in
  db (snd out) = db w /\ uuids (snd out) = uuids w /\ ticks (snd out) = ticks w
  /\ (http_calls w < http_calls (snd out))%nat
  /\ (sent = 1 \/ sent = 2)%nat
  /\ (sent = 2%nat
      <-> exists e, http_post (http_calls w) req = TransportError e)
  /\ match fst out with
     | Ok (content, input_tokens, output_tokens, cost, latency_ms) =>
         http_post (http_calls (snd out) - 1) req
         = HttpOk content input_tokens output_tokens latency_ms
         /\ cost = _estimate_cost model input_tokens output_tokens
     | Raise (RuntimeError msg) =>
         match http_post (http_calls (snd out) - 1) req with
         | HttpOk _ _ _ _ => False
         | TransportError e =>
             sent = 2%nat
             /\ msg = "Unbound transport failure after retry: " ++ e
         | HTTPStatusError status_code text =>
             msg = "Unbound API HTTP error " ++ str_of_Z status_code ++ ": "
                   ++ text
         | OtherError e => msg = "Unbound client error: " ++ e
         end
     | _ => False
     end.
Proof.
  intros req out sent. subst out sent. unfold call_llm. fold req.
  cbn [call_llm_from]. change (0 =? 1) with false. change (1 =? 1) with true.
  unfold_M. cbn [http_calls db uuids ticks].
  destruct (http_post (http_calls w) req) as [text pt ct ms | e | sc text | e] eqn:E1;
    cbn [fst snd http_calls db uuids ticks Z.eqb].
  2: destruct (http_post (S (http_calls w)) req)
       as [text pt ct ms | e2 | sc text | e2] eqn:E2;
     cbn [fst snd http_calls db uuids ticks Z.eqb].
  all: try replace (S (S (http_calls w)) - http_calls w)%nat with 2%nat by lia.
  all: try replace (S (S (http_calls w)) - 1)%nat with (S (http_calls w)) by lia.
  all: try replace (S (http_calls w) - http_calls w)%nat with 1%nat by lia.
  all: try replace (S (http_calls w) - 1)%nat with (http_calls w) by lia.
  all: try rewrite E2; try rewrite E1.
  all: repeat split; eauto; try lia; try (intros; discriminate).
  all: intros [e0 He0]; discriminate He0.
Qed.

End ClientFacts.

(* ===================================================================== *)
(** ** The judge and the verdict of an evaluation *)
(* ===================================================================== *)

(** A key that no member has gives the default. *)
Lemma dict_get_absent (members : list (string * json)) (key : string)
    (default : json) :
  (forall v, (key, v) ∉ members) -> dict_get members key default = default.
Proof.
  revert default. induction members as [| [k v] rest IH]; intros default H;
    cbn [dict_get]; [reflexivity |].
  destruct (String.eqb k key) eqn:E.
  - apply String.eqb_eq in E. subst k. exfalso. apply (H v). left.
  - apply IH. intros v' Hin. apply (H v'). right. exact Hin.
Qed.

(** The last member of that name gives the value. *)
Lemma dict_get_decides (before after : list (string * json)) (key : string)
    (v default : json) :
  (forall v', (key, v') ∉ after) ->
  dict_get (before ++ (key, v) :: after) key default = v.
Proof.
  intros H. revert default.
  induction before as [| [k x] rest IH]; intros default; cbn [dict_get app].
  - rewrite String.eqb_refl. apply dict_get_absent. exact H.
  - apply IH.
Qed.

Section JudgeFacts.

Variable json_loads : string -> option json.
Variable http_post : nat -> request -> http_outcome.

(** X7.  How the judge's response is read.  A response that decodes to an
    object decides by the truth value of its member [pass]: without such a
    member the output is rejected, and a non-empty string under [pass], the
    word [false] included, counts as a pass; without a member [reason] the
    reason is [No reason provided].  A response that decodes to anything
    but an object is read like one that does not decode: it passes exactly
    when it contains [true] in some mix of cases.  Reading the response
    never raises: the judge raises only when its call does. *)
Theorem judge_verdict_reading (content : string) :
  (forall data,
      json_loads content = Some (JObj data) ->
      ((forall v, ("pass", v) ∉ data) ->
       fst (judge_verdict json_loads content) = false)
      /\ (forall before v after,
             data = (before ++ ("pass", v) :: after)%list ->
             (forall v', ("pass", v') ∉ after) ->
             fst (judge_verdict json_loads content) = py_bool v
             /\ (forall s, v = JStr s -> s <> "" -> py_bool v = true))
      /\ ((forall v, ("reason", v) ∉ data) ->
          snd (judge_verdict json_loads content) = JStr "No reason provided")
      /\ (forall before v after,
             data = (before ++ ("reason", v) :: after)%list ->
             (forall v', ("reason", v') ∉ after) ->
             snd (judge_verdict json_loads content) = v))
  /\ (forall v,
         json_loads content = Some v -> (forall data, v <> JObj data) ->
         judge_verdict json_loads content
         = (contains "true" (lower content), JStr (strip content)))
  /\ (forall output judge_prompt model w,
         match call_llm http_post (judge_messages output judge_prompt) model
                 512 0.7 w with
         | (Ok (response, _, _, _, _), w') =>
             evaluate_llm_judge json_loads http_post output judge_prompt model w
             = (Ok (judge_verdict json_loads response), w')
         | (Raise e, w') =>
             evaluate_llm_judge json_loads http_post output judge_prompt model w
             = (Raise e, w')
         | (OutOfFuel, _) => False
         end).
Proof.
  split; [| split].
  - intros data H. unfold judge_verdict. rewrite H. cbn [fst snd].
    split; [| split; [| split]].
    + intros Habsent. rewrite dict_get_absent by exact Habsent. reflexivity.
    + intros before v after -> Hafter. rewrite dict_get_decides by exact Hafter.
      split; [reflexivity |]. intros s -> Hs. cbn [py_bool].
      destruct s; [congruence | reflexivity].
    + intros Habsent. apply dict_get_absent. exact Habsent.
    + intros before v after -> Hafter. apply dict_get_decides. exact Hafter.
  - intros v H Hv. unfold judge_verdict. rewrite H.
    destruct v; try reflexivity. exfalso. exact (Hv _ eq_refl).
  - intros output judge_prompt model w. rewrite evaluate_llm_judge_unfold.
    destruct (call_llm _ _ _ _ _ w) as [r w'] eqn:E.
    apply call_llm_requests in E as (_ & _ & _ & _ & Hfuel & _).
    destruct r as [[[[[response ?] ?] ?] ?] | e |]; try reflexivity.
    congruence.
Qed.

End JudgeFacts.

Section MoreCompletionFacts.

Variable json_loads : string -> option json.
Variable re_search : string -> string -> option bool.
Variable py_repr : json -> string.
Variable http_post : nat -> request -> http_outcome.

(** What a verdict [passed] of [evaluate_completion] stands on. *)
Lemma evaluate_completion_passed (output rule_type : string)
    (rule_value : option string) (llm_judge_enabled : bool)
    (llm_judge_prompt : option string) (model : string) (w w' : world)
    (record : dict) :
  evaluate_completion json_loads re_search py_repr http_post output rule_type
    rule_value llm_judge_enabled llm_judge_prompt model w
  = (Ok (true, record), w') ->
  whitespace_only output = false
  /\ fst (evaluate_rule json_loads re_search rule_type rule_value (Some output))
     = true
  /\ (if llm_judge_enabled then
        exists reason,
          evaluate_llm_judge json_loads http_post output llm_judge_prompt
            model w = (Ok (true, reason), w')
      else w' = w)
  /\ dict_get record "passed" JNull = JBool true
  /\ dict_get record "error" (JBool false) = JNull.
Proof.
  unfold evaluate_completion. rewrite blank_test.
  destruct (whitespace_only output); [intros [=] |].
  destruct (evaluate_rule _ _ _ _ _) as [rule_passed rule_reason].
  destruct rule_passed; cbn [negb fst]; [| intros [=]].
  destruct llm_judge_enabled.
  - unfold try_except, bind.
    destruct (evaluate_llm_judge json_loads http_post output llm_judge_prompt
                model w) as [j wj].
    destruct j as [[[] reason] | e |]; cbn [negb]; unfold ret; intros [= <- <-].
    repeat split; eauto.
  - unfold try_except, ret. intros [= <- <-]. repeat split.
Qed.

(** The judge sends the requests of one call. *)
Lemma evaluate_llm_judge_requests (output : string)
    (judge_prompt : option string) (model : string) (w w' : world)
    (r : result (bool * json)) :
  evaluate_llm_judge json_loads http_post output judge_prompt model w = (r, w') ->
  db w' = db w /\ uuids w' = uuids w /\ ticks w' = ticks w
  /\ (http_calls w < http_calls w' <= http_calls w + 2)%nat
  /\ r <> OutOfFuel.
Proof.
  rewrite evaluate_llm_judge_unfold.
  destruct (call_llm _ _ _ _ _ w) as [r0 w0] eqn:E.
  apply call_llm_requests in E as (A & B & C & D & F & _).
  destruct r0 as [[[[[content ?] ?] ?] ?] | e |]; intros [= <- <-];
    repeat split; auto; try lia; congruence.
Qed.

(** The requests of [evaluate_completion], which always returns. *)
Lemma evaluate_completion_requests (output rule_type : string)
    (rule_value : option string) (llm_judge_enabled : bool)
    (llm_judge_prompt : option string) (model : string) (w w' : world)
    (r : result (bool * dict)) :
  evaluate_completion json_loads re_search py_repr http_post output rule_type
    rule_value llm_judge_enabled llm_judge_prompt model w = (r, w') ->
  db w' = db w /\ uuids w' = uuids w /\ ticks w' = ticks w
  /\ (http_calls w <= http_calls w'
      <= http_calls w + (if llm_judge_enabled then 2 else 0))%nat
  /\ (llm_judge_enabled = false -> w' = w)
  /\ exists passed record,
       r = Ok (passed, record)
       /\ (passed = false -> dict_get record "passed" JNull <> JBool true).
Proof.
  unfold evaluate_completion, try_except.
  assert (Hstop : forall (record : dict),
             dict_get record "passed" JNull <> JBool true ->
             (r, w') = (Ok (false, record), w) ->
             db w' = db w /\ uuids w' = uuids w /\ ticks w' = ticks w
             /\ (http_calls w <= http_calls w'
                 <= http_calls w + (if llm_judge_enabled then 2 else 0))%nat
             /\ (llm_judge_enabled = false -> w' = w)
             /\ exists passed record0,
                  r = Ok (passed, record0)
                  /\ (passed = false
                      -> dict_get record0 "passed" JNull <> JBool true)).
  { intros record Hrecord [= -> ->]. repeat split; auto; try lia.
    eexists _, _. split; [reflexivity | auto]. }
  destruct (is_empty output || is_empty (strip output)).
  { unfold ret. intros H. symmetry in H. revert H. apply Hstop. discriminate. }
  destruct (evaluate_rule _ _ _ _ _) as [rule_passed rule_reason].
  destruct rule_passed; cbn [negb].
  2: { unfold ret. intros H. symmetry in H. revert H. apply Hstop.
       discriminate. }
  destruct llm_judge_enabled.
  2: { unfold ret. intros [= <- <-]. repeat split; auto; try lia.
       eexists _, _. split; [reflexivity | discriminate]. }
  unfold bind.
  destruct (evaluate_llm_judge json_loads http_post output llm_judge_prompt
              model w) as [j wj] eqn:E.
  apply evaluate_llm_judge_requests in E as (A & B & C & D & F).
  destruct j as [[[] reason] | e |]; cbn [negb]; unfold ret; try congruence;
    intros [= <- <-]; repeat split; auto; try lia; try discriminate;
    eexists _, _; (split; [reflexivity |]); discriminate.
Qed.

(** X8.  [evaluate_completion] never raises, sends no request unless the
    judge is enabled, and then at most the two of one call, and changes
    nothing else.  It passes an output only if the output has more than
    whitespace in it, the rule passes on it and, when the judge is enabled,
    the judge passed it; and the record it returns says [passed] exactly
    when it passes. *)
Theorem evaluate_completion_sound (output rule_type : string)
    (rule_value : option string) (llm_judge_enabled : bool)
    (llm_judge_prompt : option string) (model : string) (w : world) :
  let out :=
    evaluate_completion json_loads re_search py_repr http_post output
      rule_type rule_value llm_judge_enabled llm_judge_prompt model w in
  db (snd out) = db w /\ uuids (snd out) = uuids w /\ ticks (snd out) = ticks w
  /\ (http_calls w <= http_calls (snd out)
      <= http_calls w + (if llm_judge_enabled then 2 else 0))%nat
  /\ match fst out with
     | Ok (true, record) =>
         whitespace_only output = false
         /\ fst (evaluate_rule json_loads re_search rule_type rule_value
                   (Some output)) = true
         /\ (llm_judge_enabled = true ->
             exists reason,
               evaluate_llm_judge json_loads http_post output llm_judge_prompt
                 model w = (Ok (true, reason), snd out))
         /\ dict_get record "passed" JNull = JBool true
     | Ok (false, record) => dict_get record "passed" JNull <> JBool true
     | _ => False
     end.
Proof.
  intros out.
  destruct out as [r w'] eqn:E. subst out. cbn [fst snd].
  pose proof (evaluate_completion_requests _ _ _ _ _ _ _ _ _ E)
    as (A & B & C & D & _ & (passed & record & -> & Hrecord)).
  split; [exact A |]. split; [exact B |]. split; [exact C |].
  split; [exact D |].
  destruct passed; [| auto].
  apply evaluate_completion_passed in E as (E1 & E2 & E3 & E4 & _).
  split; [exact E1 |]. split; [exact E2 |]. split; [| exact E4].
  intros ->. exact E3.
Qed.

End MoreCompletionFacts.

(* ===================================================================== *)
(** ** Code blocks, summaries and JSON *)
(* ===================================================================== *)

Lemma find_none_startswith (sub s : string) :
  find sub s = None -> startswith sub s = false.
Proof.
  destruct s; cbn [find]; destruct (startswith sub _); congruence.
Qed.

(** A text without a fence has no block. *)
Lemma findall_no_fence (s : string) :
  find fence s = None ->
  forall skip : nat, findall_from code_block_re skip s = [].
Proof.
  induction s as [| c s IH]; intros H [| n]; cbn [findall_from];
    try reflexivity.
  - rewrite match_here_code_block. unfold fence_match.
    rewrite strip_prefix_spec, (find_none_startswith _ _ H).
    apply IH. exact (find_tail_none _ _ _ H).
  - apply IH. exact (find_tail_none _ _ _ H).
Qed.

(** X9.  A text without a fence has no code block: [extract_code_blocks]
    returns the empty string on it.  What [extract_code_blocks] returns has
    no fence in it, so that a second extraction always comes out empty. *)
Theorem extract_code_blocks_twice (text : string) :
  (contains "```" text = false -> extract_code_blocks text = "")
  /\ contains "```" (extract_code_blocks text) = false
  /\ extract_code_blocks (extract_code_blocks text) = "".
Proof.
  assert (Hnone : forall t, find fence t = None -> extract_code_blocks t = "").
  { intros t H. unfold extract_code_blocks, findall.
    rewrite (findall_no_fence t H). reflexivity. }
  split; [| split].
  - intros H. apply Hnone. apply find_none_contains. exact H.
  - apply find_none_contains. apply extract_code_blocks_no_fence.
  - apply Hnone. apply extract_code_blocks_no_fence.
Qed.

(** Passing over the characters of a match. *)
Lemma findall_from_skip (r : regex) (a b : string) :
  findall_from r (String.length a) (a ++ b) = findall_from r 0 b.
Proof.
  induction a as [| c a IH]; [reflexivity | exact IH].
Qed.

Lemma contains_cons_false (sub : string) (c : ascii) (s : string) :
  contains sub (String c s) = false -> contains sub s = false.
Proof.
  rewrite <- !find_none_contains. apply find_tail_none.
Qed.

Lemma contains_backtick_head (c : ascii) (s : string) :
  contains "`" (String c s) = false -> Ascii.eqb "`" c = false.
Proof.
  unfold contains. cbn [find startswith].
  destruct (Ascii.eqb "`" c); [discriminate | reflexivity].
Qed.

(** The first fence after a text without a backtick. *)
Lemma find_fence_after_plain (a t : string) :
  contains "`" a = false ->
  find fence (a ++ fence ++ t) = Some (String.length a).
Proof.
  induction a as [| c a IH]; intros H.
  - reflexivity.
  - change (String c a ++ fence ++ t) with (String c (a ++ fence ++ t)).
    rewrite find_cons_other by exact (contains_backtick_head _ _ H).
    rewrite (IH (contains_cons_false _ _ _ H)). reflexivity.
Qed.

(** The language tag is passed over up to the newline. *)
Lemma skip_word_tag (tag rest : string) :
  skip_word tag = "" -> skip_word (tag ++ nl ++ rest) = nl ++ rest.
Proof.
  induction tag as [| c tag IH]; cbn [skip_word String.append].
  - reflexivity.
  - destruct (is_word c); [exact IH | discriminate].
Qed.

(** X10.  One fenced block with a language tag on the line of its opening
    fence (no tag is a tag), in a text with no other fence: what is
    extracted is the body of the block, trimmed; the tag, the newline after
    it and the text around the block are left out. *)
Theorem extract_code_blocks_single_block (before tag body after : string) :
  contains "`" before = false ->
  skip_word tag = "" ->
  contains "`" body = false ->
  contains "```" after = false ->
  extract_code_blocks
    (before ++ "```" ++ tag ++ nl ++ body ++ "```" ++ after)
  = strip body.
Proof.
  intros Hbefore Htag Hbody Hafter. fold fence.
  apply find_none_contains in Hafter.
  assert (Hblock : findall_from code_block_re 0
                     (fence ++ tag ++ nl ++ body ++ fence ++ after) = [body]).
  { change (fence ++ tag ++ nl ++ body ++ fence ++ after)
      with (String "`" ("``" ++ tag ++ nl ++ body ++ fence ++ after)).
    cbn [findall_from]. rewrite match_here_code_block.
    assert (Hm : fence_match
                   (String "`" ("``" ++ tag ++ nl ++ body ++ fence ++ after))
                 = Some (Some body, after)).
    { unfold fence_match.
      change (strip_prefix fence
                (String "`" ("``" ++ tag ++ nl ++ body ++ fence ++ after)))
        with (Some (tag ++ nl ++ body ++ fence ++ after)).
      cbn beta iota zeta. rewrite (skip_word_tag _ _ Htag).
      change (strip_prefix nl (nl ++ body ++ fence ++ after))
        with (Some (body ++ fence ++ after)).
      cbn [from_option id].
      rewrite (find_fence_after_plain body after Hbody).
      rewrite take_app_length.
      replace (String.length body + 3)%nat
        with (String.length (body ++ fence))
        by (rewrite length_app_str; reflexivity).
      rewrite <- (app_assoc_str body fence after), drop_app_length.
      reflexivity. }
    rewrite Hm. cbn [from_option id]. f_equal.
    replace (String.length
               (String "`" ("``" ++ tag ++ nl ++ body ++ fence ++ after))
             - String.length after - 1)%nat
      with (String.length ("``" ++ tag ++ nl ++ body ++ fence)).
    - replace ("``" ++ tag ++ nl ++ body ++ fence ++ after)
        with (("``" ++ tag ++ nl ++ body ++ fence) ++ after)
        by (rewrite !app_assoc_str; reflexivity).
      rewrite findall_from_skip. apply findall_no_fence. exact Hafter.
    - cbn [String.length]. rewrite !length_app_str. cbn [String.length]. lia. }
  assert (Hscan : findall_from code_block_re 0
                    (before ++ fence ++ tag ++ nl ++ body ++ fence ++ after)
                  = [body]).
  { clear - Hbefore Hblock. induction before as [| c before IH].
    - exact Hblock.
    - change (String c before ++ fence ++ tag ++ nl ++ body ++ fence ++ after)
        with (String c (before ++ fence ++ tag ++ nl ++ body ++ fence ++ after)).
      cbn [findall_from]. rewrite match_here_code_block. unfold fence_match.
      unfold fence at 1. cbn [strip_prefix].
      rewrite (contains_backtick_head _ _ Hbefore).
      apply IH. exact (contains_cons_false _ _ _ Hbefore). }
  unfold extract_code_blocks, findall. rewrite Hscan. reflexivity.
Qed.

(** X10 at a block tagged [python] between two sentences. *)
Lemma extract_code_blocks_single_block_witness :
  extract_code_blocks
    ("Here it is: " ++ "```" ++ "python" ++ nl ++ ("  x = 1" ++ nl) ++ "```"
     ++ " That is all.")
  = strip ("  x = 1" ++ nl).
Proof.
  apply (extract_code_blocks_single_block "Here it is: " "python"
           ("  x = 1" ++ nl) " That is all."); reflexivity.
Defined.

Section SummaryFacts.

Variable http_post : nat -> request -> http_outcome.

(** The requests of [extract_summary]. *)
Lemma extract_summary_requests (text model : string) (w w' : world)
    (r : result string) :
  extract_summary http_post text model w = (r, w') ->
  db w' = db w /\ uuids w' = uuids w /\ ticks w' = ticks w
  /\ (http_calls w <= http_calls w' <= http_calls w + 2)%nat
  /\ r <> OutOfFuel.
Proof.
  unfold extract_summary.
  destruct (Z.of_nat (String.length text) <? 500).
  - unfold ret. intros [= <- <-]. repeat split; auto; try lia; discriminate.
  - unfold bind.
    destruct (call_llm http_post _ model 256 0.7 w) as [c wc] eqn:E.
    apply call_llm_requests in E as (A & B & C & D & F & _).
    destruct c as [[[[[summary ?] ?] ?] ?] | e |]; unfold ret;
      intros [= <- <-]; repeat split; auto; try lia; congruence.
Qed.

(** X11.  [extract_summary] returns a text of fewer than 500 characters as
    it is, without a request.  On a longer text it asks the model, with the
    requests of one call, and returns the trimmed answer, which may be
    empty; it raises when the call does. *)
Theorem extract_summary_threshold (text model : string) (w : world) :
  let out := extract_summary http_post text model w in
  ((String.length text < 500)%nat -> out = (Ok text, w))
  /\ ((500 <= String.length text)%nat ->
      db (snd out) = db w /\ uuids (snd out) = uuids w
      /\ ticks (snd out) = ticks w
      /\ (http_calls w < http_calls (snd out) <= http_calls w + 2)%nat
      /\ match
           call_llm http_post
             [mk_message "user"
                ("Summarize the following in 2-4 sentences, preserving key facts and outputs:"
                 ++ nl ++ nl ++ text)] model 256 0.7 w
         with
         | (Ok (summary, _, _, _, _), w') =>
             out = (Ok (strip summary), w')
             /\ strip (strip summary) = strip summary
         | (Raise e, w') => out = (Raise e, w')
         | (OutOfFuel, _) => False
         end).
Proof.
  intros out. subst out. unfold extract_summary. split.
  - intros H. replace (Z.of_nat (String.length text) <? 500) with true
      by (symmetry; apply Z.ltb_lt; lia). reflexivity.
  - intros H. replace (Z.of_nat (String.length text) <? 500) with false
      by (symmetry; apply Z.ltb_ge; lia).
    unfold bind.
    destruct (call_llm http_post _ model 256 0.7 w) as [c wc] eqn:E.
    apply call_llm_requests in E as (A & B & C & D & F & _).
    destruct c as [[[[[summary ?] ?] ?] ?] | e |]; unfold ret; cbn [fst snd];
      repeat split; auto; try lia; try congruence.
    apply strip_idem.
Qed.

End SummaryFacts.

Section MoreJsonFacts.

Variable json_loads : string -> option json.
Variable re_search : string -> string -> option bool.

(** X12.  What [extract_json] returns is the empty string, or a part of the
    text that starts at the first opening brace, or at the first opening
    bracket, of the text, ends at a closing one, and decodes; so that what
    it returns, when it is not empty, passes the rule [json_valid].  A text
    with neither a brace nor a bracket gives the empty string. *)
Theorem extract_json_result (text : string) :
  let found := extract_json json_loads text in
  (found = ""
   \/ exists (open : string) (start j : nat) (v : json),
        (open = "{" \/ open = "[")
        /\ find open text = Some start
        /\ (start <= j)%nat
        /\ found = slice start (j + 1) text
        /\ json_loads found = Some v)
  /\ (found <> "" ->
      forall rule_value,
        evaluate_rule json_loads re_search "json_valid" rule_value (Some found)
        = (true, "Rule 'json_valid' passed"))
  /\ (contains "{" text = false -> contains "[" text = false -> found = "").
Proof.
  intros found. subst found. split; [apply extract_json_sound | split].
  - intros Hne rule_value.
    destruct (extract_json_sound json_loads text)
      as [H | (open & start & j & v & _ & _ & _ & _ & Hv)]; [contradiction |].
    unfold evaluate_rule. rewrite RULE_HANDLERS_json_valid.
    rewrite or_str_some. unfold _rule_json_valid. rewrite Hv.
    apply is_empty_false in Hne. rewrite Hne. reflexivity.
  - intros H1 H2. apply find_none_contains in H1, H2.
    unfold extract_json. cbn [extract_json_from]. rewrite H1, H2. reflexivity.
Qed.

End MoreJsonFacts.

(** X13 at a text whose object starts at its first brace. *)
Lemma extract_json_finds_anchored_span_witness :
  exists (j : nat) (v' : json),
    (8 <= j)%nat
    /\ extract_json json_loads_ref (py "Result: {'a': {'b': 1}} done")
       = slice 8 (j + 1) (py "Result: {'a': {'b': 1}} done")
    /\ json_loads_ref
         (extract_json json_loads_ref (py "Result: {'a': {'b': 1}} done"))
       = Some v'.
Proof.
  apply (extract_json_finds_anchored_span json_loads_ref
           (py "Result: {'a': {'b': 1}} done") 8 14
           (JObj [("a", JObj [("b", JInt 1)])])).
  - reflexivity.
  - reflexivity.
  - reflexivity.
  - vm_compute. reflexivity.
Defined.

(* ===================================================================== *)
(** ** The prompt of an attempt *)
(* ===================================================================== *)

(** *** Replacement *)

Lemma replace_from_skip (old new a b : string) :
  replace_from old new (String.length a) (a ++ b) = replace_from old new 0 b.
Proof.
  induction a as [| c a IH]; [reflexivity | exact IH].
Qed.

(** Nothing to replace: the text is returned. *)
Lemma replace_absent (old new s : string) :
  contains old s = false -> replace old new s = s.
Proof.
  unfold replace. rewrite <- find_none_contains.
  induction s as [| c s IH]; intros H; cbn [replace_from]; [reflexivity |].
  rewrite (find_none_startswith _ _ H), (IH (find_tail_none _ _ _ H)).
  reflexivity.
Qed.

Lemma contains_char_head (a c : ascii) (s : string) :
  contains (String a "") (String c s) = false -> Ascii.eqb a c = false.
Proof.
  unfold contains. cbn [find startswith].
  destruct (Ascii.eqb a c); [discriminate | reflexivity].
Qed.

(** The first occurrence, after a text in which it cannot start. *)
Lemma replace_first (a : ascii) (old' new pre post : string) :
  contains (String a "") pre = false ->
  replace (String a old') new (pre ++ String a old' ++ post)
  = pre ++ new ++ replace (String a old') new post.
Proof.
  unfold replace. induction pre as [| c pre IH]; intros H.
  - change ("" ++ String a old' ++ post) with (String a (old' ++ post)).
    cbn [replace_from].
    assert (E : startswith (String a old') (String a (old' ++ post)) = true)
      by (apply startswith_spec; exists post; reflexivity).
    rewrite E.
    replace (String.length (String a old') - 1)%nat with (String.length old')
      by (cbn [String.length]; lia).
    rewrite replace_from_skip.
    reflexivity.
  - change (String c pre ++ String a old' ++ post)
      with (String c (pre ++ String a old' ++ post)).
    cbn [replace_from startswith].
    rewrite (contains_char_head _ _ _ H). cbn [andb].
    rewrite (IH (contains_cons_false _ _ _ H)). reflexivity.
Qed.

(** Every occurrence is replaced, the first one by [new] where it stood. *)
Lemma replace_at_find (a : ascii) (old' new s : string) (n : nat) :
  find (String a old') s = Some n ->
  exists rest, replace (String a old') new s = take_str n s ++ new ++ rest.
Proof.
  unfold replace. revert n. induction s as [| c s IH]; intros n.
  - cbn. discriminate.
  - cbn [find replace_from].
    destruct (startswith (String a old') (String c s)) eqn:E.
    + intros [= <-]. eexists. reflexivity.
    + destruct (find (String a old') s) as [m |]; [| discriminate].
      intros [= <-]. destruct (IH m eq_refl) as [rest Hrest].
      exists rest. cbn [take_str String.append]. rewrite Hrest. reflexivity.
Qed.

(** [_build_messages] in terms of the prompt it builds. *)
Lemma build_messages_prompt (prompt_template : string)
    (context retry_feedback : option string) (w : world) :
  _build_messages prompt_template context retry_feedback w
  = let prompt := replace "{{context}}" (or_str context "") prompt_template in
    if contains "{{context}}" prompt
    then (Raise (RuntimeError
                   "Context placeholder '{{context}}' was not replaced"), w)
    else (Ok (system_messages retry_feedback ++ [mk_message "user" prompt])%list,
          w).
Proof.
  unfold _build_messages. cbn zeta.
  destruct (contains "{{context}}" _); [reflexivity |].
  destruct retry_feedback as [[| c f] |]; reflexivity.
Qed.

(** X14.  The prompt [_build_messages] builds.  A template without the
    placeholder is the prompt, as it is: the context is left out, and
    nothing is raised.  A template with one placeholder (after a text
    without a brace) becomes the template with the context, or nothing
    when there is none, in the place of the placeholder; should the result
    hold the placeholder, [RuntimeError] is raised.  The prompt is the one
    [user] message, which a [system] message with the feedback precedes
    exactly when there is a non-empty feedback. *)
Theorem build_messages_prompt_cases (context retry_feedback : option string)
    (w : world) :
  let returns (prompt : string) :=
    (Ok (system_messages retry_feedback ++ [mk_message "user" prompt])%list, w) in
  (forall prompt_template,
      contains "{{context}}" prompt_template = false ->
      _build_messages prompt_template context retry_feedback w
      = returns prompt_template)
  /\ (forall before after,
         contains "{" before = false ->
         contains "{{context}}" after = false ->
         let prompt := before ++ or_str context "" ++ after in
         _build_messages (before ++ "{{context}}" ++ after) context
           retry_feedback w
         = if contains "{{context}}" prompt
           then (Raise (RuntimeError
                          "Context placeholder '{{context}}' was not replaced"),
                 w)
           else returns prompt).
Proof.
  intros returns. subst returns. split.
  - intros prompt_template H. rewrite build_messages_prompt. cbn zeta.
    rewrite (replace_absent _ _ _ H), H. reflexivity.
  - intros before after Hb Ha prompt. subst prompt.
    rewrite build_messages_prompt. cbn zeta.
    rewrite (replace_first "{" "{context}}" _ before after Hb).
    rewrite (replace_absent _ _ _ Ha). reflexivity.
Qed.

(** A context that holds the placeholder stays in the prompt with it. *)
Lemma replace_keeps_placeholder (prompt_template context : string) :
  contains "{{context}}" prompt_template = true ->
  contains "{{context}}" context = true ->
  contains "{{context}}" (replace "{{context}}" context prompt_template) = true.
Proof.
  intros Ht Hc. unfold contains in Ht.
  destruct (find "{{context}}" prompt_template) as [n |] eqn:F; [| discriminate].
  destruct (replace_at_find "{" "{context}}" context _ _ F) as [rest ->].
  apply contains_spec in Hc as (pre & post & ->).
  apply contains_spec.
  exists (take_str n prompt_template ++ pre), (post ++ rest).
  rewrite !app_assoc_str. reflexivity.
Qed.

(* ===================================================================== *)
(** ** What an attempt logs *)
(* ===================================================================== *)

Section MoreAttemptFacts.

Variable json_loads : string -> option json.
Variable re_search : string -> string -> option bool.
Variable py_repr : json -> string.
Variable http_post : nat -> request -> http_outcome.
Variable uuid4 : nat -> string.
Variable utcnow : nat -> Z.

Lemma extract_context_async_requests (text mode model : string) (w w' : world)
    (r : result string) :
  extract_context_async json_loads http_post text mode model w = (r, w') ->
  db w' = db w /\ uuids w' = uuids w /\ ticks w' = ticks w
  /\ (http_calls w <= http_calls w'
      <= http_calls w + (if String.eqb mode "summary" then 2 else 0))%nat
  /\ r <> OutOfFuel.
Proof.
  unfold extract_context_async.
  destruct (String.eqb mode "summary").
  - apply extract_summary_requests.
  - unfold ret. intros [= <- <-]. repeat split; auto; try lia; discriminate.
Qed.

(** An attempt, phase by phase: what it leaves in the store and what its
    verdict stands on. *)
Lemma execute_single_step_phases (step : WorkflowStep.t) (step_run : StepRun.t)
    (input_context retry_feedback : option string) (w w' : world)
    (r : result (string * string * bool * dict)) :
  _execute_single_step json_loads re_search py_repr http_post uuid4 step
    step_run input_context retry_feedback w = (r, w') ->
  same_but_logs (db w) (db w')
  /\ ticks w' = ticks w
  /\ (http_calls w <= http_calls w' <= http_calls w + attempt_requests step)%nat
  /\ r <> OutOfFuel
  /\ match _build_messages (WorkflowStep.prompt_template step) input_context
             retry_feedback w with
     | (Ok messages, _) =>
         match call_llm http_post messages (WorkflowStep.model step)
                 (WorkflowStep.max_tokens step) (WorkflowStep.temperature step)
                 w with
         | (Ok (answer, in_tok, out_tok, cost, latency), wc) =>
             uuids w' = S (uuids w)
             /\ llm_logs (db w')
                = (llm_logs (db w)
                   ++ [logged_row step step_run retry_feedback
                         (py_repr (JArr (map message_value messages))) answer
                         in_tok out_tok cost latency (uuid4 (uuids w))])%list
             /\ cost = _estimate_cost (WorkflowStep.model step) in_tok out_tok
             /\ forall content extracted passed eval_result,
                  r = Ok (content, extracted, passed, eval_result) ->
                  content = answer
                  /\ (passed = true ->
                      whitespace_only content = false
                      /\ fst (evaluate_rule json_loads re_search
                                (WorkflowStep.rule_type step)
                                (WorkflowStep.rule_value step) (Some content))
                         = true)
         | (Raise e, wc) => r = Raise e /\ w' = wc /\ db w' = db w
         | (OutOfFuel, _) => False
         end
     | (Raise e, _) => r = Raise e /\ w' = w
     | (OutOfFuel, _) => False
     end.
Proof.
  unfold _execute_single_step. unfold bind at 1.
  assert (Hsame : same_but_logs (db w) (db w)) by (repeat split).
  destruct (_build_messages _ _ _ w) as [m wm] eqn:Em.
  apply build_messages_effect in Em as [-> Hm].
  destruct m as [messages | e |]; [| intros [= <- <-] | congruence].
  2: { repeat split; auto; try lia; discriminate. }
  unfold bind at 1.
  destruct (call_llm http_post messages _ _ _ w) as [c wc] eqn:Ec.
  apply call_llm_requests in Ec as (Hdb & Hu & Ht & Hc & Hfuel & Hcost).
  destruct c as [[[[[content in_tok] out_tok] cost] latency] | e |];
    [| intros [= <- <-] | congruence].
  2: { rewrite Hdb. repeat split; auto; try lia; try discriminate.
       unfold attempt_requests. lia. }
  specialize (Hcost _ _ _ _ _ eq_refl).
  unfold bind at 1, new_uuid at 1. unfold bind at 1, modify at 1, with_db at 1.
  cbn [db http_calls uuids ticks].
  match goal with
  | |- context [add_llm_log ?row _] => set (l := row)
  end.
  set (wl := mk_world (add_llm_log l (db wc)) _ _ _).
  assert (Hwl : llm_logs (db wl) = (llm_logs (db w) ++ [l])%list
                /\ same_but_logs (db w) (db wl)
                /\ uuids wl = S (uuids w) /\ ticks wl = ticks w
                /\ http_calls wl = http_calls wc).
  { subst wl. cbn. rewrite Hdb, Hu, Ht. repeat split. }
  destruct Hwl as (Hl & Hsl & Hul & Htl & Hcl). clearbody wl.
  unfold bind at 1.
  destruct (evaluate_completion _ _ _ _ _ _ _ _ _ _ wl) as [v wv] eqn:Ev.
  pose proof (evaluate_completion_requests _ _ _ _ _ _ _ _ _ _ _ _ _ Ev)
    as (Hdbv & Huv & Htv & Hcv & _ & (passed & record & -> & _)).
  unfold bind at 1.
  destruct (extract_context_async _ _ _ _ _ wv) as [x wx] eqn:Ex.
  apply extract_context_async_requests in Ex as (Hdbx & Hux & Htx & Hcx & Hx).
  assert (Hreq : (http_calls w <= http_calls wx
                  <= http_calls w + attempt_requests step)%nat).
  { unfold attempt_requests.
    destruct (WorkflowStep.llm_judge_enabled step),
             (String.eqb (WorkflowStep.context_mode step) "summary"); lia. }
  assert (Hstore : same_but_logs (db w) (db wx)
                   /\ ticks wx = ticks w /\ uuids wx = S (uuids w)
                   /\ llm_logs (db wx) = (llm_logs (db w) ++ [l])%list).
  { rewrite Hdbx, Hdbv, Htx, Htv, Hux, Huv. auto. }
  destruct Hstore as (Hsx & Hticks & Huuids & Hlogs).
  assert (Hrow : l = logged_row step step_run retry_feedback
                       (py_repr (JArr (map message_value messages)))
                       content in_tok out_tok cost latency (uuid4 (uuids w))).
  { subst l. unfold logged_row. rewrite Hu. reflexivity. }
  destruct x as [extracted | e |]; [| intros [= <- <-] | congruence].
  2: { split; [exact Hsx |]. split; [exact Hticks |]. split; [exact Hreq |].
       split; [discriminate |]. split; [exact Huuids |].
       split; [rewrite Hlogs, Hrow; reflexivity |].
       split; [exact Hcost |]. discriminate. }
  unfold bind at 1.
  destruct (checked_context step content extracted wx) as [k wk] eqn:Ek.
  apply checked_context_good in Ek as (-> & Hk & _).
  destruct k as [checked | e |]; unfold ret; [| | congruence];
    intros [= <- <-]; (split; [exact Hsx |]); (split; [exact Hticks |]);
    (split; [exact Hreq |]); (split; [discriminate |]);
    (split; [exact Huuids |]);
    (split; [rewrite Hlogs, Hrow; reflexivity |]);
    (split; [exact Hcost |]).
  - intros ? ? ? ? [= <- <- <- <-]. split; [reflexivity |]. intros ->.
    apply evaluate_completion_passed in Ev as (E1 & E2 & _). auto.
  - discriminate.
Qed.

(** X15.  A context that holds the text of the placeholder cannot be handed
    to a step whose template has the placeholder: [_build_messages] raises,
    and so does the attempt, before any request is sent and with nothing
    logged; the feedback of a retry changes nothing to it. *)
Theorem placeholder_in_context_raises (step : WorkflowStep.t)
    (step_run : StepRun.t) (context : string) (retry_feedback : option string)
    (w : world) :
  contains "{{context}}" (WorkflowStep.prompt_template step) = true ->
  contains "{{context}}" context = true ->
  _build_messages (WorkflowStep.prompt_template step) (Some context)
    retry_feedback w
  = (Raise (RuntimeError "Context placeholder '{{context}}' was not replaced"),
     w)
  /\ _execute_single_step json_loads re_search py_repr http_post uuid4 step
       step_run (Some context) retry_feedback w
     = (Raise (RuntimeError
                 "Context placeholder '{{context}}' was not replaced"), w).
Proof.
  intros Ht Hc.
  assert (H : _build_messages (WorkflowStep.prompt_template step)
                (Some context) retry_feedback w
              = (Raise (RuntimeError
                          "Context placeholder '{{context}}' was not replaced"),
                 w)).
  { rewrite build_messages_prompt. cbn zeta. rewrite or_str_some.
    rewrite (replace_keeps_placeholder _ _ Ht Hc). reflexivity. }
  split; [exact H |].
  unfold _execute_single_step. unfold bind at 1. rewrite H. reflexivity.
Qed.

(** X16.  What an attempt leaves in the log.  When the prompt cannot be built
    or the call of the model raises, the attempt raises the same error and
    logs nothing.  When the call returns, one row is added, before the
    answer is evaluated: it stays whether the attempt then passes, fails or
    raises on an empty context.  The row has the answer, its token counts
    with their sum, the cost the call returned, the id and the attempt
    number of the [StepRun], and the call type [retry] exactly when there
    is a non-empty feedback.  The output of an attempt that returns is the
    answer that was logged.  Nothing else in the store changes. *)
Theorem execute_single_step_logs_answer (step : WorkflowStep.t)
    (step_run : StepRun.t) (input_context retry_feedback : option string)
    (w : world) :
  let out :=
    _execute_single_step json_loads re_search py_repr http_post uuid4 step
      step_run input_context retry_feedback w in
  same_but_logs (db w) (db (snd out))
  /\ match _build_messages (WorkflowStep.prompt_template step) input_context
             retry_feedback w with
     | (Ok messages, _) =>
         match call_llm http_post messages (WorkflowStep.model step)
                 (WorkflowStep.max_tokens step) (WorkflowStep.temperature step)
                 w with
         | (Ok (answer, in_tok, out_tok, cost, latency), _) =>
             llm_logs (db (snd out))
             = (llm_logs (db w)
                ++ [LLMLog.mk (uuid4 (uuids w)) (StepRun.id step_run)
                      (match retry_feedback with
                       | Some (String _ _) => "retry"
                       | _ => "main"
                       end)
                      (StepRun.attempt_number step_run)
                      (py_repr (JArr (map message_value messages)))
                      answer in_tok out_tok (in_tok + out_tok) cost
                      (WorkflowStep.model step) latency])%list
             /\ match fst out with
                | Ok (content, _, _, _) => content = answer
                | Raise _ => True
                | OutOfFuel => False
                end
         | (Raise e, wc) => out = (Raise e, wc) /\ db wc = db w
         | (OutOfFuel, _) => False
         end
     | (Raise e, _) => out = (Raise e, w)
     | (OutOfFuel, _) => False
     end.
Proof.
  intros out. destruct out as [r w'] eqn:E. subst out. cbn [fst snd].
  apply execute_single_step_phases in E as (Hsame & _ & _ & Hfuel & H).
  split; [exact Hsame |].
  destruct (_build_messages _ _ _ w) as [[messages | e |] wm]; [| | exact H].
  2: { destruct H as [-> ->]. reflexivity. }
  destruct (call_llm http_post messages _ _ _ w)
    as [[[[[[answer in_tok] out_tok] cost] latency] | e |] wc]; [| | exact H].
  2: { destruct H as (-> & -> & Hdb). auto. }
  destruct H as (_ & Hlogs & _ & Hout).
  split.
  - rewrite Hlogs. unfold logged_row.
    destruct retry_feedback as [[| c f] |]; reflexivity.
  - destruct r as [[[[content extracted] passed] ev] | e |];
      [| exact I | congruence].
    exact (proj1 (Hout _ _ _ _ eq_refl)).
Qed.

End MoreAttemptFacts.

(** X15 at a step that receives, as its context, an answer that quotes the
    placeholder. *)
Lemma placeholder_in_context_raises_witness :
  _build_messages
    (WorkflowStep.prompt_template
       (step_ref "s2" 2 0 "full" "contains" (Some "ok")))
    (Some "Use {{context}} in the template") None (store_ref [])
  = (Raise (RuntimeError "Context placeholder '{{context}}' was not replaced"),
     store_ref [])
  /\ _execute_single_step json_loads_ref re_search_literal repr_ref
       (scripted ["ok"]) uuid_ref
       (step_ref "s2" 2 0 "full" "contains" (Some "ok"))
       (StepRun.mk "sr" "run" "s2" 2 "running" 1
          (Some "Use {{context}} in the template") None None None None None
          None)
       (Some "Use {{context}} in the template") None (store_ref [])
     = (Raise (RuntimeError
                 "Context placeholder '{{context}}' was not replaced"),
        store_ref []).
Proof.
  apply (placeholder_in_context_raises json_loads_ref re_search_literal repr_ref
           (scripted ["ok"]) uuid_ref
           (step_ref "s2" 2 0 "full" "contains" (Some "ok"))); reflexivity.
Defined.

(* ===================================================================== *)
(** ** The log and the requests of a run *)
(* ===================================================================== *)

(** The row of an attempt of the retry loop is as [row_ok] has it. *)
Lemma logged_row_ok (step : WorkflowStep.t) (step_run : StepRun.t)
    (retry_count : Z) (reason prompt content : string) (in_tok out_tok : Z)
    (cost : float) (latency : Z) (log_id : string) :
  0 <= retry_count ->
  row_ok
    (logged_row step (StepRun.set_attempt_number (retry_count + 1) step_run)
       (if 0 <? retry_count
        then Some ("Attempt " ++ str_of_Z retry_count ++ " failed. Reason: "
                   ++ reason)
        else None)
       prompt content in_tok out_tok cost latency log_id).
Proof.
  intros Hrc. unfold row_ok, logged_row. cbn.
  split; [reflexivity |].
  destruct (0 <? retry_count) eqn:E.
  - right. apply Z.ltb_lt in E. split; [reflexivity | lia].
  - left. apply Z.ltb_ge in E. split; [reflexivity | lia].
Qed.

Lemma effect_refl (w : world) : bounded_effect 0 w w.
Proof.
  unfold bounded_effect. repeat split; try lia. exists []. rewrite app_nil_r. auto.
Qed.

Lemma effect_trans (b1 b2 : nat) (w1 w2 w3 : world) :
  bounded_effect b1 w1 w2 -> bounded_effect b2 w2 w3 -> bounded_effect (b1 + b2) w1 w3.
Proof.
  intros (A1 & B1 & (l1 & C1 & D1) & E1) (A2 & B2 & (l2 & C2 & D2) & E2).
  unfold bounded_effect. repeat split; try congruence; try lia.
  exists (l1 ++ l2)%list. rewrite C2, C1, app_assoc. split; [reflexivity |].
  apply Forall_app. auto.
Qed.

Lemma effect_weaken (b b' : nat) (w w' : world) :
  (b <= b')%nat -> bounded_effect b w w' -> bounded_effect b' w w'.
Proof.
  intros Hb (A & B & C & D). unfold bounded_effect. repeat split; auto; lia.
Qed.

Lemma effect_silent (f : world -> world) (w : world) :
  silent_write f -> bounded_effect 0 w (f w).
Proof.
  intros H. destruct (H w) as (A & B & C & D). unfold bounded_effect.
  repeat split; auto; try lia. exists []. rewrite app_nil_r. auto.
Qed.

Section MoreLoopFacts.

Variable json_loads : string -> option json.
Variable re_search : string -> string -> option bool.
Variable py_repr : json -> string.
Variable http_post : nat -> request -> http_outcome.
Variable uuid4 : nat -> string.
Variable utcnow : nat -> Z.

Lemma write_step_run_effect (ix : nat) (f : StepRun.t -> StepRun.t)
    (step_run : StepRun.t) (w : world) :
  exists w', write_step_run ix f step_run w = (Ok (f step_run), w')
             /\ bounded_effect 0 w w'.
Proof.
  eexists. split; [reflexivity |]. unfold bounded_effect. cbn.
  repeat split; try lia. exists []. rewrite app_nil_r. auto.
Qed.

(** An attempt of the retry loop. *)
Lemma attempt_effect (step : WorkflowStep.t) (step_run : StepRun.t)
    (context : option string) (retry_count : Z) (reason : string)
    (w w' : world) (r : result (string * string * bool * dict)) :
  0 <= retry_count ->
  _execute_single_step json_loads re_search py_repr http_post uuid4 step
    (StepRun.set_attempt_number (retry_count + 1) step_run) context
    (if 0 <? retry_count
     then Some ("Attempt " ++ str_of_Z retry_count ++ " failed. Reason: "
                ++ reason)
     else None) w = (r, w') ->
  bounded_effect (attempt_requests step) w w' /\ r <> OutOfFuel.
Proof.
  intros Hrc H.
  apply execute_single_step_phases in H
    as ((A & B & C & D) & _ & Hreq & Hfuel & H).
  split; [| exact Hfuel]. unfold bounded_effect.
  split; [exact A |]. split; [exact B |]. split; [| exact Hreq].
  destruct (_build_messages _ _ _ w) as [[messages | e |] wm]; [| | contradiction].
  2: { destruct H as [_ ->]. exists []. rewrite app_nil_r. auto. }
  destruct (call_llm http_post messages _ _ _ w)
    as [[[[[[answer in_tok] out_tok] cost] latency] | e |] wc]; [| | contradiction].
  2: { destruct H as (_ & _ & ->). exists []. rewrite app_nil_r. auto. }
  destruct H as (_ & Hlogs & _ & _).
  eexists. split; [exact Hlogs |]. constructor; [| constructor].
  apply logged_row_ok; assumption.
Qed.

(** The retry loop of a step: the rows it adds to the log, and the requests
    it sends at most. *)
Lemma retry_loop_effect (step : WorkflowStep.t) (ix : nat)
    (context : option string) :
  forall (fuel : nat) (step_run : StepRun.t) (retry_count : Z)
         (failure_reason : json) (w w' : world) (r : result loop_exit),
    0 <= retry_count ->
    retry_loop json_loads re_search py_repr http_post uuid4 utcnow fuel step
      ix step_run context retry_count failure_reason w = (r, w') ->
    bounded_effect (attempt_requests step
            * Z.to_nat (WorkflowStep.retry_limit step + 1 - retry_count)) w w'.
Proof.
  induction fuel as [| fuel IH];
    intros step_run retry_count failure_reason w w' r Hrc H;
    cbn [retry_loop] in H;
    (destruct (retry_count <=? WorkflowStep.retry_limit step) eqn:G;
     [| unfold ret in H; inversion H; subst;
        eapply effect_weaken; [| apply effect_refl]; apply Nat.le_0_l]).
  - inversion H; subst. eapply effect_weaken; [| apply effect_refl].
    apply Nat.le_0_l.
  - apply Z.leb_le in G.
    replace (Z.to_nat (WorkflowStep.retry_limit step + 1 - retry_count))
      with (S (Z.to_nat (WorkflowStep.retry_limit step + 1 - (retry_count + 1))))
      by lia.
    rewrite Nat.mul_succ_r, Nat.add_comm.
    destruct (write_step_run_effect ix
                (StepRun.set_attempt_number (retry_count + 1)) step_run w)
      as (w1 & E1 & F1).
    unfold bind at 1 in H. rewrite E1 in H.
    unfold bind at 1, try_except at 1, bind at 1 in H.
    destruct (_execute_single_step _ _ _ _ _ _ _ _ _ w1) as [a w2] eqn:Ea.
    destruct (attempt_effect _ _ _ _ _ _ _ _ Hrc Ea) as [F2 Hfuel].
    pose proof (effect_trans _ _ _ _ _ F1 F2) as F12. cbn [Nat.add] in F12.
    assert (Hfail : forall (eval_result : dict) (reason : json),
               (let* step_run0 :=
                  write_step_run ix
                    (StepRun.set_evaluation_result (JObj eval_result))
                    (StepRun.set_attempt_number (retry_count + 1) step_run) in
                retry_loop json_loads re_search py_repr http_post uuid4 utcnow
                  fuel step ix step_run0 context (retry_count + 1) reason) w2
               = (r, w') ->
               bounded_effect (attempt_requests step
                       + attempt_requests step
                         * Z.to_nat (WorkflowStep.retry_limit step + 1
                                     - (retry_count + 1))) w w').
    { intros eval_result reason Hrun.
      destruct (write_step_run_effect ix
                  (StepRun.set_evaluation_result (JObj eval_result))
                  (StepRun.set_attempt_number (retry_count + 1) step_run) w2)
        as (w3 & E3 & F3).
      unfold bind at 1 in Hrun. rewrite E3 in Hrun.
      apply IH in Hrun; [| lia].
      pose proof (effect_trans _ _ _ _ _ F12 (effect_trans _ _ _ _ _ F3 Hrun))
        as F. exact F. }
    destruct a as [[[[out extracted] passed] eval_result] | e |];
      [| | congruence].
    + unfold ret at 1 in H. destruct passed.
      * unfold_M. cbn in H. inversion H; subst r w'. clear H.
        eapply effect_weaken;
          [| eapply effect_trans; [exact F12 |];
             apply (effect_silent
                      (fun w =>
                         mk_world
                           (update_step_run ix _
                              (update_step_run ix _
                                 (update_step_run ix _
                                    (update_step_run ix _
                                       (update_step_run ix _ (db w))))))
                           (http_calls w) (uuids w) (S (ticks w))))].
        -- set (k := (_ * _)%nat). clearbody k. lia.
        -- intros w0. cbn. auto.
      * apply (Hfail eval_result _ H).
    + unfold ret at 1 in H. apply (Hfail [("error", JStr (exn_str e))] _ H).
Qed.

End MoreLoopFacts.

Section MoreRunFacts.

Variable json_loads : string -> option json.
Variable re_search : string -> string -> option bool.
Variable py_repr : json -> string.
Variable http_post : nat -> request -> http_outcome.
Variable uuid4 : nat -> string.
Variable utcnow : nat -> Z.

(** The steps of a run: the rows they add to the log, and the requests they
    send at most. *)
Lemma run_steps_effect (run_ix : nat) (run : WorkflowRun.t) :
  forall (steps : list WorkflowStep.t) (context : option string)
         (w w' : world) (r : result bool),
    run_steps json_loads re_search py_repr http_post uuid4 utcnow run_ix run
      steps context w = (r, w') ->
    bounded_effect (run_requests steps) w w'.
Proof.
  induction steps as [| step steps IH]; intros context w w' r H.
  - cbn in H. unfold ret in H. inversion H; subst. apply effect_refl.
  - cbn [run_steps] in H.
    unfold bind at 1, new_uuid at 1 in H.
    unfold bind at 1, now at 1 in H.
    unfold bind at 1, get at 1 in H.
    unfold bind at 1, modify at 1, with_db at 1 in H.
    cbn [db http_calls uuids ticks] in H.
    unfold bind at 1 in H.
    match type of H with
    | context [retry_loop _ _ _ _ _ _ _ _ _ _ _ _ _ ?x] => set (w0 := x) in *
    end.
    assert (F0 : bounded_effect 0 w w0).
    { subst w0. unfold bounded_effect. cbn. repeat split; try lia.
      exists []. rewrite app_nil_r. auto. }
    clearbody w0.
    destruct (retry_loop _ _ _ _ _ _ _ _ _ _ _ _ _ w0) as [x w2] eqn:Eloop.
    apply retry_loop_effect in Eloop; [| lia].
    rewrite Z.sub_0_r in Eloop. fold (attempts_allowed step) in Eloop.
    pose proof (effect_trans _ _ _ _ _ F0 Eloop) as F2. cbn [Nat.add] in F2.
    cbn [run_requests].
    destruct x as [exit | e |].
    2, 3: inversion H; subst; eapply effect_weaken; [| exact F2]; lia.
    destruct (exit_passed exit); cbn [negb] in H.
    + apply IH in H. exact (effect_trans _ _ _ _ _ F2 H).
    + unfold_M. unfold with_db in H. cbn in H. inversion H; subst r w'. clear H.
      eapply effect_weaken;
        [| eapply effect_trans; [exact F2 |];
           apply (effect_silent
                    (fun w =>
                       mk_world
                         (update_run run_ix _
                            (update_run run_ix _
                               (update_run run_ix _
                                  (update_step_run _ _
                                     (update_step_run _ _
                                        (update_step_run _ _ (db w)))))))
                         (http_calls w) (uuids w) (S (S (ticks w)))))].
      * lia.
      * intros w1. cbn. auto.
Qed.

(** What a passed attempt stands on. *)
Lemma execute_single_step_passed (step : WorkflowStep.t) (step_run : StepRun.t)
    (input_context retry_feedback : option string) (w w' : world)
    (content extracted : string) (eval_result : dict) :
  _execute_single_step json_loads re_search py_repr http_post uuid4 step
    step_run input_context retry_feedback w
  = (Ok (content, extracted, true, eval_result), w') ->
  whitespace_only content = false
  /\ fst (evaluate_rule json_loads re_search (WorkflowStep.rule_type step)
            (WorkflowStep.rule_value step) (Some content)) = true.
Proof.
  intros H. apply execute_single_step_phases in H as (_ & _ & _ & _ & H).
  destruct (_build_messages _ _ _ w) as [[messages | e |] wm];
    [| destruct H; discriminate | contradiction].
  destruct (call_llm http_post messages _ _ _ w)
    as [[[[[[answer in_tok] out_tok] cost] latency] | e |] wc];
    [| destruct H; discriminate | contradiction].
  destruct H as (_ & _ & _ & H).
  destruct (H _ _ _ _ eq_refl) as [_ Hp]. apply Hp. reflexivity.
Qed.




End MoreRunFacts.

Lemma list_find_lookup {A : Type} (P : A -> Prop) `{forall x, Decision (P x)}
    (l : list A) (i : nat) (x : A) :
  list_find P l = Some (i, x) -> l !! i = Some x /\ P x.
Proof. intros H0. apply list_find_Some in H0 as (A1 & A2 & _). auto. Qed.


Section MoreWorkflowFacts.

Variable json_loads : string -> option json.
Variable re_search : string -> string -> option bool.
Variable py_repr : json -> string.
Variable http_post : nat -> request -> http_outcome.
Variable uuid4 : nat -> string.
Variable utcnow : nat -> Z.

(** A pending run of a workflow that is there: the run is marked as started,
    its steps are run, and it is marked as completed when they were run to
    the end; the invocation returns. *)
Lemma run_workflow_pending (workflow_run_id : string) (w w' : world)
    (r : result unit) (run_ix : nat) (run : WorkflowRun.t) (wf_ix : nat)
    (workflow : Workflow.t) :
  first_run workflow_run_id (db w) = Some (run_ix, run) ->
  WorkflowRun.status run = "pending" ->
  first_workflow (WorkflowRun.workflow_id run) (db w) = Some (wf_ix, workflow) ->
  run_workflow json_loads re_search py_repr http_post uuid4 utcnow
    workflow_run_id w = (r, w') ->
  exists (finished : bool) (w2 : world),
    run_steps json_loads re_search py_repr http_post uuid4 utcnow run_ix run
      (sorted_by WorkflowStep.position (steps_of workflow (db w))) None
      (run_started utcnow run_ix w) = (Ok finished, w2)
    /\ r = Ok tt
    /\ w' = if finished then run_completed utcnow run_ix w2 else w2.
Proof.
  intros Hrun Hpending Hwf H. unfold run_workflow in H.
  unfold bind at 1, get at 1 in H. rewrite Hrun, Hpending in H.
  cbn [String.eqb Ascii.eqb Bool.eqb negb] in H.
  unfold bind at 1, write_run at 1, modify at 1 in H.
  unfold bind at 1, now at 1 in H.
  unfold bind at 1, write_run at 1, modify at 1 in H.
  cbn [db http_calls uuids ticks with_db] in H.
  rewrite Hwf in H.
  unfold try_except in H. unfold bind at 1 in H.
  match type of H with
  | context [run_steps _ _ _ _ _ _ _ _ _ _ ?x] =>
      replace x with (run_started utcnow run_ix w) in H
  end.
  2: { unfold run_started, update_run, with_db.
       cbn [db workflows workflow_steps workflow_runs step_runs llm_logs
            http_calls uuids ticks].
       rewrite list_alter_alter_eq. reflexivity. }
  destruct (run_steps json_loads re_search py_repr http_post uuid4 utcnow
              run_ix run _ None (run_started utcnow run_ix w)) as [x w2] eqn:E.
  pose proof E as E'. apply run_steps_spec in E'; [| exact I].
  destruct E' as (finished & trace & -> & _).
  exists finished, w2. split; [reflexivity |].
  destruct finished.
  - unfold_M. unfold with_db in H. cbn in H. inversion H; subst r w'.
    split; [reflexivity |].
    unfold run_completed, update_run, with_db.
    cbn [db workflows workflow_steps workflow_runs step_runs llm_logs
         http_calls uuids ticks].
    rewrite list_alter_alter_eq. reflexivity.
  - unfold ret in H. inversion H; subst r w'. auto.
Qed.

End MoreWorkflowFacts.

Lemma In_insert_by {A : Type} (key : A -> Z) (x y : A) (l : list A) :
  In x (insert_by key y l) <-> x = y \/ In x l.
Proof.
  induction l as [| z l IH]; cbn.
  - intuition congruence.
  - destruct (key y <=? key z); cbn; rewrite ?IH; intuition congruence.
Qed.

Lemma In_sorted_by {A : Type} (key : A -> Z) (x : A) (l : list A) :
  In x (sorted_by key l) <-> In x l.
Proof.
  unfold sorted_by. induction l as [| y l IH]; cbn; [reflexivity |].
  rewrite In_insert_by, IH. intuition congruence.
Qed.


Lemma map_id_alter (f : WorkflowRun.t -> WorkflowRun.t) (i : nat)
    (l : list WorkflowRun.t) :
  (forall x, WorkflowRun.id (f x) = WorkflowRun.id x) ->
  map WorkflowRun.id (alter f i l) = map WorkflowRun.id l.
Proof.
  intros Hf. revert i. induction l as [| y l IH]; intros [| i]; cbn;
    try reflexivity.
  - rewrite Hf. reflexivity.
  - rewrite IH. reflexivity.
Qed.

Section RunProperties.

Variable json_loads : string -> option json.
Variable re_search : string -> string -> option bool.
Variable py_repr : json -> string.
Variable http_post : nat -> request -> http_outcome.
Variable uuid4 : nat -> string.
Variable utcnow : nat -> Z.

Lemma run_workflow_effect (workflow_run_id : string) (w w' : world)
    (r : result unit) :
  run_workflow json_loads re_search py_repr http_post uuid4 utcnow
    workflow_run_id w = (r, w') ->
  bounded_effect (run_budget workflow_run_id (db w)) w w'.
Proof.
  intros H. unfold run_budget.
  destruct (run_workflow_cases workflow_run_id w)
    as [Hnone | [(ix & run & Hrun & Hs) | (ix & run & Hrun & Hs)]].
  - rewrite run_workflow_skips in H by (rewrite Hnone; exact I).
    inversion H; subst. eapply effect_weaken; [| apply effect_refl]. lia.
  - rewrite run_workflow_skips in H by (rewrite Hrun; exact Hs).
    inversion H; subst. eapply effect_weaken; [| apply effect_refl]. lia.
  - rewrite Hrun, Hs. cbn [String.eqb Ascii.eqb Bool.eqb].
    destruct (first_workflow (WorkflowRun.workflow_id run) (db w))
      as [[wf_ix workflow] |] eqn:Hwf.
    + destruct (run_workflow_pending _ _ _ _ _ _ _ _ _ _ _ _ _ _ Hrun Hs Hwf H)
        as (finished & w2 & Hsteps & _ & ->).
      apply run_steps_effect in Hsteps.
      assert (F0 : bounded_effect 0 w (run_started utcnow ix w)).
      { unfold bounded_effect, run_started. cbn. repeat split; try lia.
        exists []. rewrite app_nil_r. auto. }
      pose proof (effect_trans _ _ _ _ _ F0 Hsteps) as F. cbn [Nat.add] in F.
      destruct finished; [| exact F].
      eapply effect_weaken;
        [| eapply effect_trans; [exact F |];
           apply (effect_silent (run_completed utcnow ix))].
      * lia.
      * intros w0. unfold run_completed. cbn. auto.
    + unfold run_workflow in H.
      unfold bind at 1, get at 1 in H. rewrite Hrun, Hs, Hwf in H.
      cbn [String.eqb Ascii.eqb Bool.eqb negb] in H.
      unfold_M. unfold with_db in H. cbn in H. inversion H; subst r w'.
      unfold bounded_effect. cbn. repeat split; try lia.
      exists []. rewrite app_nil_r. auto.
Qed.

(** X17.  Every row a run adds to the log of model calls has, as its total,
    the sum of its two token counts, and has the call type [main] when it
    is of the first attempt of a step, [retry] when it is of a later one. *)
Theorem run_workflow_log_rows (workflow_run_id : string) (w : world) :
  let out :=
    run_workflow json_loads re_search py_repr http_post uuid4 utcnow
      workflow_run_id w in
  exists added : list LLMLog.t,
    llm_logs (db (snd out)) = (llm_logs (db w) ++ added)%list
    /\ Forall
         (fun l =>
            LLMLog.total_tokens l
            = LLMLog.input_tokens l + LLMLog.output_tokens l
            /\ ((LLMLog.call_type l = "main" /\ LLMLog.attempt_number l = 1)
                \/ (LLMLog.call_type l = "retry"
                    /\ 1 < LLMLog.attempt_number l)))
         added.
Proof.
  intros out. destruct out as [r w'] eqn:E. subst out. cbn [snd].
  apply run_workflow_effect in E as (_ & _ & H & _). exact H.
Qed.

(** X18.  The requests of a run are bounded.  An attempt of a step sends at
    most two requests for the answer (the call and its one retry), two more
    when the judge is enabled and two more in mode [summary]; a step makes
    at most [retry_limit + 1] attempts; so that an invocation that starts a
    run sends at most the sum of these products over the steps of the
    workflow, and an invocation that starts nothing sends none. *)
Theorem run_workflow_request_bound (workflow_run_id : string) (w : world) :
  let out :=
    run_workflow json_loads re_search py_repr http_post uuid4 utcnow
      workflow_run_id w in
  (forall step step_run input_context retry_feedback w0,
      (http_calls
         (snd (_execute_single_step json_loads re_search py_repr http_post
                 uuid4 step step_run input_context retry_feedback w0))
       <= http_calls w0
          + (2 + (if WorkflowStep.llm_judge_enabled step then 2 else 0)
             + (if String.eqb (WorkflowStep.context_mode step) "summary"
                then 2 else 0)))%nat)
  /\ (http_calls w <= http_calls (snd out))%nat
  /\ match first_run workflow_run_id (db w) with
     | Some (_, run) =>
         if String.eqb (WorkflowRun.status run) "pending" then
           match first_workflow (WorkflowRun.workflow_id run) (db w) with
           | Some (_, workflow) =>
               (http_calls (snd out)
                <= http_calls w
                   + run_requests
                       (sorted_by WorkflowStep.position
                          (steps_of workflow (db w))))%nat
           | None => http_calls (snd out) = http_calls w
           end
         else http_calls (snd out) = http_calls w
     | None => http_calls (snd out) = http_calls w
     end.
Proof.
  intros out. split.
  { intros step step_run input_context retry_feedback w0.
    destruct (_execute_single_step _ _ _ _ _ _ _ _ _ w0) as [r0 w0'] eqn:E0.
    apply execute_single_step_phases in E0 as (_ & _ & H & _).
    cbn [snd]. exact (proj2 H). }
  destruct out as [r w'] eqn:E. subst out. cbn [snd].
  apply run_workflow_effect in E as (_ & _ & _ & H). unfold run_budget in H.
  split; [lia |].
  destruct (first_run workflow_run_id (db w)) as [[ix run] |]; [| lia].
  destruct (String.eqb (WorkflowRun.status run) "pending"); [| lia].
  destruct (first_workflow (WorkflowRun.workflow_id run) (db w))
    as [[wf_ix workflow] |]; lia.
Qed.

End RunProperties.

(* ===================================================================== *)
(** ** How a run ends *)
(* ===================================================================== *)

Section RunOutcome.

Variable json_loads : string -> option json.
Variable re_search : string -> string -> option bool.
Variable py_repr : json -> string.
Variable http_post : nat -> request -> http_outcome.
Variable uuid4 : nat -> string.
Variable utcnow : nat -> Z.



(** X20.  An invocation of [run_workflow] leaves the workflows and their
    steps as they are, keeps every row of [StepRun] and of the log that was
    there (it only adds rows after them), keeps the ids of the runs, and
    leaves every run with another id as it was. *)
Theorem run_workflow_frame (workflow_run_id : string) (w : world) :
  let out :=
    run_workflow json_loads re_search py_repr http_post uuid4 utcnow
      workflow_run_id w in
  workflows (db (snd out)) = workflows (db w)
  /\ workflow_steps (db (snd out)) = workflow_steps (db w)
  /\ (exists rows, step_runs (db (snd out)) = (step_runs (db w) ++ rows)%list)
  /\ (exists rows, llm_logs (db (snd out)) = (llm_logs (db w) ++ rows)%list)
  /\ map WorkflowRun.id (workflow_runs (db (snd out)))
     = map WorkflowRun.id (workflow_runs (db w))
  /\ (forall j other,
         workflow_runs (db w) !! j = Some other ->
         WorkflowRun.id other <> workflow_run_id ->
         workflow_runs (db (snd out)) !! j = Some other).
Proof.
  intros out. destruct out as [r w'] eqn:E. subst out. cbn [fst snd].
  assert (Hskip : (r, w') = (Ok tt, w) ->
            workflows (db w') = workflows (db w)
            /\ workflow_steps (db w') = workflow_steps (db w)
            /\ (exists rows, step_runs (db w') = (step_runs (db w) ++ rows)%list)
            /\ (exists rows, llm_logs (db w') = (llm_logs (db w) ++ rows)%list)
            /\ map WorkflowRun.id (workflow_runs (db w'))
               = map WorkflowRun.id (workflow_runs (db w))
            /\ (forall j other,
                   workflow_runs (db w) !! j = Some other ->
                   WorkflowRun.id other <> workflow_run_id ->
                   workflow_runs (db w') !! j = Some other)).
  { intros [= -> ->]. repeat split; auto; exists []; rewrite app_nil_r; reflexivity. }
  destruct (run_workflow_cases workflow_run_id w)
    as [Hnone | [(ix & run & Hrun & Hs) | (ix & run & Hrun & Hs)]].
  - apply Hskip. rewrite <- E. apply run_workflow_skips.
    rewrite Hnone. exact I.
  - apply Hskip. rewrite <- E. apply run_workflow_skips.
    rewrite Hrun. exact Hs.
  - destruct (run_workflow_started _ _ _ _ _ _ _ _ _ _ _ _ Hrun Hs E)
      as (trace & f & Hr & A & B & C & Hid & _ & D & F & _).
    split; [exact A |]. split; [exact B |].
    split; [eauto |]. split; [eauto |].
    split; [rewrite C; apply map_id_alter; exact Hid |].
    intros j other Hj Hother. rewrite C.
    rewrite list_lookup_alter_ne; [exact Hj |].
    intros <-. apply list_find_lookup in Hrun as [Hrun Hkey].
    rewrite Hrun in Hj. inversion Hj; subst. contradiction.
Qed.


End RunOutcome.



(** A judge that gives an object as its reason: the run of the model writes
    it as the failure reason of the [StepRun], which the tables refuse. *)
Example object_reason_is_refused :
  let out :=
    run_ref ["pass"; py "{'pass': false, 'reason': {'why': 'bad'}}"]
      judged_steps in
  map StepRun.failure_reason (step_runs (db (snd out)))
  = [Some (JObj [("why", JStr "bad")])]
  /\ ~ fits_tables (db (snd out)).
Proof.
  split; [vm_compute; reflexivity |].
  apply (bool_decide_unpack _). vm_compute. exact I.
Qed.

(** A judge that gives a text as its reason: the tables take the rows, and
    the run is [failed]. *)
Example text_reason_is_taken :
  let out :=
    run_ref ["pass"; py "{'pass': false, 'reason': 'bad'}"] judged_steps in
  fst out = Ok tt
  /\ map StepRun.failure_reason (step_runs (db (snd out))) = [Some (JStr "bad")]
  /\ map WorkflowRun.status (workflow_runs (db (snd out))) = ["failed"]
  /\ fits_tables (db (snd out)).
Proof.
  split; [vm_compute; reflexivity |].
  split; [vm_compute; reflexivity |].
  split; [vm_compute; reflexivity |].
  apply (bool_decide_unpack _). vm_compute. exact I.
Qed.

(* ===================================================================== *)
(** ** From the endpoint to the end of the run *)
(* ===================================================================== *)

Section EndpointFacts.

Variable json_loads : string -> option json.
Variable re_search : string -> string -> option bool.
Variable py_repr : json -> string.
Variable http_post : nat -> request -> http_outcome.
Variable uuid4 : nat -> string.
Variable utcnow : nat -> Z.


End EndpointFacts.

(* ===================================================================== *)
(** ** What a completed step stands on *)
(* ===================================================================== *)

Section CompletedSteps.

Variable json_loads : string -> option json.
Variable re_search : string -> string -> option bool.
Variable py_repr : json -> string.
Variable http_post : nat -> request -> http_outcome.
Variable uuid4 : nat -> string.
Variable utcnow : nat -> Z.

(** The record of a passed attempt says so. *)
Lemma execute_single_step_record (step : WorkflowStep.t) (step_run : StepRun.t)
    (input_context retry_feedback : option string) (w w' : world)
    (content extracted : string) (eval_result : dict) :
  _execute_single_step json_loads re_search py_repr http_post uuid4 step
    step_run input_context retry_feedback w
  = (Ok (content, extracted, true, eval_result), w') ->
  dict_get eval_result "passed" JNull = JBool true.
Proof.
  unfold _execute_single_step. unfold bind at 1.
  destruct (_build_messages _ _ _ w) as [[messages | e |] wm]; try discriminate.
  unfold bind at 1.
  destruct (call_llm http_post messages _ _ _ wm)
    as [[[[[[answer in_tok] out_tok] cost] latency] | e |] wc];
    try discriminate.
  unfold bind at 1, new_uuid at 1. unfold bind at 1, modify at 1.
  unfold bind at 1.
  match goal with
  | |- context [evaluate_completion _ _ _ _ _ _ _ _ _ _ ?x] => set (wl := x)
  end.
  destruct (evaluate_completion _ _ _ _ _ _ _ _ _ _ wl)
    as [[[passed record] | e |] wv] eqn:Ev; try discriminate.
  unfold bind at 1.
  destruct (extract_context_async _ _ _ _ _ wv) as [[x | e |] wx];
    try discriminate.
  unfold bind at 1.
  destruct (checked_context step answer x wx) as [[k | e |] wk];
    try discriminate.
  unfold ret. intros [= _ _ -> <- _].
  apply evaluate_completion_passed in Ev as (_ & _ & _ & H & _). exact H.
Qed.

(** The retry loop of a step that passed: what its [StepRun] holds. *)
Lemma retry_loop_passed (step : WorkflowStep.t) (ix : nat)
    (context : option string) :
  forall (fuel : nat) (step_run : StepRun.t) (retry_count : Z)
         (failure_reason : json) (w w' : world) (exit : loop_exit),
    retry_loop json_loads re_search py_repr http_post uuid4 utcnow fuel step
      ix step_run context retry_count failure_reason w = (Ok exit, w') ->
    exit_passed exit = true ->
    exists (output : string) (record : dict),
      StepRun.output (exit_step_run exit) = Some output
      /\ whitespace_only output = false
      /\ fst (evaluate_rule json_loads re_search (WorkflowStep.rule_type step)
                (WorkflowStep.rule_value step) (Some output)) = true
      /\ StepRun.evaluation_result (exit_step_run exit) = Some (JObj record)
      /\ dict_get record "passed" JNull = JBool true.
Proof.
  induction fuel as [| fuel IH];
    intros step_run retry_count failure_reason w w' exit H Hpassed;
    cbn [retry_loop] in H;
    (destruct (retry_count <=? WorkflowStep.retry_limit step) eqn:G;
     [| unfold ret in H; inversion H; subst; discriminate]).
  - discriminate.
  - unfold bind at 1, write_step_run at 1 in H.
    unfold bind at 1, modify at 1 in H. unfold ret at 1 in H.
    unfold bind at 1, try_except at 1, bind at 1 in H.
    match type of H with
    | context [_execute_single_step _ _ _ _ _ _ _ _ _ ?x] => set (w1 := x) in *
    end.
    clearbody w1.
    destruct (_execute_single_step _ _ _ _ _ _ _ _ _ w1) as [a w2] eqn:Ea.
    destruct a as [[[[out extracted] passed] eval_result] | e |];
      [| | discriminate].
    + unfold ret at 1 in H. destruct passed.
      * pose proof (execute_single_step_record _ _ _ _ _ _ _ _ _ Ea) as Hrecord.
        apply execute_single_step_passed in Ea as [Hblank Hrule].
        unfold_M. cbn in H. inversion H; subst exit w'. cbn.
        exists out, eval_result. auto.
      * unfold bind at 1, write_step_run at 1 in H.
        unfold bind at 1, modify at 1 in H. unfold ret at 1 in H.
        exact (IH _ _ _ _ _ _ H Hpassed).
    + unfold ret at 1 in H.
      unfold bind at 1, write_step_run at 1 in H.
      unfold bind at 1, modify at 1 in H. unfold ret at 1 in H.
      exact (IH _ _ _ _ _ _ H Hpassed).
Qed.

Lemma completed_row_more (steps : list WorkflowStep.t) (step : WorkflowStep.t)
    (row : StepRun.t) :
  completed_row json_loads re_search steps row ->
  completed_row json_loads re_search (step :: steps) row.
Proof.
  intros [H | (H & s & output & record & Hin & Hrest)]; [left; exact H |].
  right. split; [exact H |]. exists s, output, record.
  split; [right; exact Hin | exact Hrest].
Qed.

(** The rows of [StepRun] that the steps of a run leave. *)
Lemma run_steps_rows (run_ix : nat) (run : WorkflowRun.t) :
  forall (steps : list WorkflowStep.t) (accumulated_context : option string)
         (w w' : world) (r : result bool),
    good_context accumulated_context ->
    run_steps json_loads re_search py_repr http_post uuid4 utcnow run_ix run
      steps accumulated_context w = (r, w') ->
    exists rows,
      step_runs (db w') = (step_runs (db w) ++ rows)%list
      /\ Forall (completed_row json_loads re_search steps) rows.
Proof.
  induction steps as [| step steps IH]; intros acc w w' r Hacc H.
  - cbn in H. unfold ret in H. inversion H; subst.
    exists []. rewrite app_nil_r. auto.
  - cbn [run_steps] in H.
    unfold bind at 1, new_uuid at 1 in H.
    unfold bind at 1, now at 1 in H.
    unfold bind at 1, get at 1 in H.
    unfold bind at 1, modify at 1, with_db at 1 in H.
    cbn [db http_calls uuids ticks] in H.
    set (sr0 := StepRun.mk (uuid4 (uuids w)) (WorkflowRun.id run)
                  (WorkflowStep.id step) (WorkflowStep.position step)
                  "running" 1 acc None None None None
                  (Some (utcnow (ticks w))) None) in *.
    set (w0 := mk_world (add_step_run sr0 (db w)) (http_calls w)
                 (S (uuids w)) (S (ticks w))) in *.
    assert (Hat0 : at_step (step_runs (db w)) sr0 (db w0) [] w0).
    { unfold at_step. rewrite app_nil_r. subst w0. cbn. repeat split. }
    unfold bind at 1 in H.
    destruct (retry_loop _ _ _ _ _ _ _ _ _ _ _ _ _ w0) as [x w2] eqn:Eloop.
    pose proof Eloop as Eloop'.
    apply (retry_loop_spec _ _ _ _ _ _ _ _ _ _ _ _ _ _ _ _ _ _ Hat0 Hacc)
      in Eloop; [| lia | lia].
    destruct Eloop as (exit & added & -> & Hat2 & Hid & _ & _ & _ & _ & Hctx
                       & Hend).
    destruct (exit_passed exit) eqn:Hpassed; cbn [negb] in H.
    + destruct Hend as (Hstatus & _).
      destruct (retry_loop_passed _ _ _ _ _ _ _ _ _ _ Eloop' Hpassed)
        as (output & record & Ho & Hblank & Hrule & Hev & Hrecord).
      apply (IH _ _ _ _ Hctx) in H. destruct H as (rows & Hrows & Hall).
      destruct Hat2 as (_ & _ & _ & D2 & _).
      exists (exit_step_run exit :: rows). split.
      * rewrite Hrows, D2, <- app_assoc. reflexivity.
      * constructor.
        -- right. split; [exact Hstatus |]. exists step, output, record.
           split; [left; reflexivity |].
           split; [symmetry; apply Hid |]. auto.
        -- eapply Forall_impl; [exact Hall |]. intros row.
           apply completed_row_more.
    + destruct (write_step_run_at _ _ _ _ (StepRun.set_status "failed") _ Hat2)
        as (w3 & E3 & Hat3).
      unfold bind at 1 in H. rewrite E3 in H.
      destruct (write_step_run_at _ _ _ _
                  (StepRun.set_failure_reason (exit_failure_reason exit)) _ Hat3)
        as (w4 & E4 & Hat4).
      unfold bind at 1 in H. rewrite E4 in H.
      destruct (now_at utcnow _ _ _ _ _ Hat4) as (w5 & E5 & Hat5).
      unfold bind at 1 in H. rewrite E5 in H.
      destruct (write_step_run_at _ _ _ _
                  (StepRun.set_completed_at (utcnow (ticks w4))) _ Hat5)
        as (w6 & E6 & Hat6).
      unfold bind at 1 in H. rewrite E6 in H.
      unfold_M. unfold with_db, update_run in H. cbn in H.
      inversion H; subst r w'. clear H.
      destruct Hat6 as (_ & _ & _ & D6 & _).
      eexists [_]. split; [exact D6 |].
      constructor; [| constructor]. left. reflexivity.
Qed.

Lemma In_steps_of (workflow : Workflow.t) (d : database) (step : WorkflowStep.t) :
  In step (sorted_by WorkflowStep.position (steps_of workflow d)) ->
  In step (workflow_steps d)
  /\ WorkflowStep.workflow_id step = Workflow.id workflow.
Proof.
  unfold steps_of. rewrite !In_sorted_by, filter_In.
  intros [Hin Heq]. apply String.eqb_eq in Heq. auto.
Qed.

(** X23.  A [StepRun] that a run creates and leaves [completed] belongs to
    a step of the workflow of the run and stores an output of the model that
    has more than whitespace in it and on which the rule of that step
    passes, and an evaluation record that says [passed]. *)
Theorem completed_step_passed_its_rule (workflow_run_id : string) (w : world) :
  let out :=
    run_workflow json_loads re_search py_repr http_post uuid4 utcnow
      workflow_run_id w in
  exists rows : list StepRun.t,
    step_runs (db (snd out)) = (step_runs (db w) ++ rows)%list
    /\ Forall
         (fun row =>
            StepRun.status row = "completed" ->
            exists (step : WorkflowStep.t) (output : string) (record : dict),
              In step (workflow_steps (db w))
              /\ (forall ix run,
                     first_run workflow_run_id (db w) = Some (ix, run) ->
                     WorkflowStep.workflow_id step
                     = WorkflowRun.workflow_id run)
              /\ WorkflowStep.id step = StepRun.workflow_step_id row
              /\ StepRun.output row = Some output
              /\ whitespace_only output = false
              /\ fst (evaluate_rule json_loads re_search
                        (WorkflowStep.rule_type step)
                        (WorkflowStep.rule_value step) (Some output))
                 = true
              /\ StepRun.evaluation_result row = Some (JObj record)
              /\ dict_get record "passed" JNull = JBool true)
         rows.
Proof.
  intros out. destruct out as [r w'] eqn:E. subst out. cbn [snd].
  assert (Hnothing : w' = w \/ step_runs (db w') = step_runs (db w) ->
            exists rows : list StepRun.t,
              step_runs (db w') = (step_runs (db w) ++ rows)%list
              /\ Forall
                   (fun row =>
                      StepRun.status row = "completed" ->
                      exists (step : WorkflowStep.t) (output : string)
                             (record : dict),
                        In step (workflow_steps (db w))
                        /\ (forall ix run,
                               first_run workflow_run_id (db w)
                               = Some (ix, run) ->
                               WorkflowStep.workflow_id step
                               = WorkflowRun.workflow_id run)
                        /\ WorkflowStep.id step
                           = StepRun.workflow_step_id row
                        /\ StepRun.output row = Some output
                        /\ whitespace_only output = false
                        /\ fst (evaluate_rule json_loads re_search
                                  (WorkflowStep.rule_type step)
                                  (WorkflowStep.rule_value step)
                                  (Some output)) = true
                        /\ StepRun.evaluation_result row
                           = Some (JObj record)
                        /\ dict_get record "passed" JNull = JBool true)
                   rows).
  { intros H. exists []. rewrite app_nil_r. split; [| constructor].
    destruct H as [-> | H]; [reflexivity | exact H]. }
  destruct (run_workflow_cases workflow_run_id w)
    as [Hnone | [(ix & run & Hrun & Hs) | (ix & run & Hrun & Hs)]].
  - apply Hnothing. left.
    rewrite run_workflow_skips in E by (rewrite Hnone; exact I). congruence.
  - apply Hnothing. left.
    rewrite run_workflow_skips in E by (rewrite Hrun; exact Hs). congruence.
  - destruct (first_workflow (WorkflowRun.workflow_id run) (db w))
      as [[wf_ix workflow] |] eqn:Hwf.
    + destruct (run_workflow_pending _ _ _ _ _ _ _ _ _ _ _ _ _ _ Hrun Hs Hwf E)
        as (finished & w2 & Hsteps & _ & ->).
      apply run_steps_rows in Hsteps; [| exact I].
      destruct Hsteps as (rows & Hrows & Hall).
      exists rows. split.
      { destruct finished; exact Hrows. }
      eapply Forall_impl; [exact Hall |]. cbn.
      intros row Hrow Hdone.
      destruct Hrow as [Hfailed | (_ & step & output & record & Hin & Hrest)];
        [rewrite Hdone in Hfailed; discriminate |].
      exists step, output, record.
      apply In_steps_of in Hin as [Hin Hwid].
      split; [exact Hin |]. split; [| exact Hrest].
      intros ix0 run0 Hrun0. rewrite Hrun in Hrun0. inversion Hrun0; subst.
      rewrite Hwid. apply list_find_lookup in Hwf as [_ Hwf]. exact Hwf.
    + apply Hnothing. right.
      destruct (run_workflow_started _ _ _ _ _ _ _ _ _ _ _ _ Hrun Hs E)
        as (trace & f & Hr & _ & _ & _ & _ & _ & D & _).
      destruct Hr as [-> | (m & _ & ->)].
      * exfalso. unfold run_workflow in E.
        unfold bind at 1, get at 1 in E. rewrite Hrun, Hs, Hwf in E.
        cbn [String.eqb Ascii.eqb Bool.eqb negb] in E.
        unfold_M. cbn in E. discriminate.
      * rewrite D. cbn. apply app_nil_r.
Qed.

End CompletedSteps.

(* ===================================================================== *)
(** ** The failure reasons a run writes *)
(* ===================================================================== *)

Section TextReasons.

Variable json_loads : string -> option json.
Variable re_search : string -> string -> option bool.
Variable py_repr : json -> string.
Variable http_post : nat -> request -> http_outcome.
Variable uuid4 : nat -> string.
Variable utcnow : nat -> Z.

(** Without a judge, the reason kept from the record of an evaluation is a
    text. *)
Lemma evaluate_completion_text (output rule_type : string)
    (rule_value prompt : option string) (model : string) (w w' : world)
    (passed : bool) (record : dict) :
  evaluate_completion json_loads re_search py_repr http_post output rule_type
    rule_value false prompt model w = (Ok (passed, record), w') ->
  exists s,
    (if py_bool (dict_get record "reason" JNull)
     then dict_get record "reason" JNull
     else JStr (py_repr (JObj record))) = JStr s.
Proof.
  unfold evaluate_completion, try_except.
  destruct (is_empty output || is_empty (strip output)).
  { unfold ret. intros [= <- <- <-]. cbn. eauto. }
  destruct (evaluate_rule _ _ _ _ _) as [rule_passed rule_reason].
  destruct rule_passed; cbn [negb]; unfold ret; intros [= <- <- <-].
  - cbn. eauto.
  - cbn [dict_get String.eqb Ascii.eqb Bool.eqb py_bool].
    destruct (negb (is_empty rule_reason)); eauto.
Qed.

Lemma execute_single_step_text (step : WorkflowStep.t) (step_run : StepRun.t)
    (input_context retry_feedback : option string) (w w' : world)
    (content extracted : string) (passed : bool) (record : dict) :
  WorkflowStep.llm_judge_enabled step = false ->
  _execute_single_step json_loads re_search py_repr http_post uuid4 step
    step_run input_context retry_feedback w
  = (Ok (content, extracted, passed, record), w') ->
  exists s,
    (if py_bool (dict_get record "reason" JNull)
     then dict_get record "reason" JNull
     else JStr (py_repr (JObj record))) = JStr s.
Proof.
  intros Hjudge.
  unfold _execute_single_step. unfold bind at 1.
  destruct (_build_messages _ _ _ w) as [[messages | e |] wm]; try discriminate.
  unfold bind at 1.
  destruct (call_llm http_post messages _ _ _ wm)
    as [[[[[[answer in_tok] out_tok] cost] latency] | e |] wc];
    try discriminate.
  unfold bind at 1, new_uuid at 1. unfold bind at 1, modify at 1.
  unfold bind at 1.
  match goal with
  | |- context [evaluate_completion _ _ _ _ _ _ _ _ _ _ ?x] => set (wl := x)
  end.
  rewrite Hjudge.
  destruct (evaluate_completion _ _ _ _ _ _ _ _ _ _ wl)
    as [[[verdict ev] | e |] wv] eqn:Ev; try discriminate.
  unfold bind at 1.
  destruct (extract_context_async _ _ _ _ _ wv) as [[x | e |] wx];
    try discriminate.
  unfold bind at 1.
  destruct (checked_context step answer x wx) as [[k | e |] wk];
    try discriminate.
  unfold ret. intros [= _ _ _ <- _].
  exact (evaluate_completion_text _ _ _ _ _ _ _ _ _ Ev).
Qed.

(** The retry loop of a step without a judge keeps a text as the reason of
    the failure, and does not touch the failure reason of the [StepRun]. *)
Lemma retry_loop_text (step : WorkflowStep.t) (ix : nat)
    (context : option string) :
  WorkflowStep.llm_judge_enabled step = false ->
  forall (fuel : nat) (step_run : StepRun.t) (retry_count : Z)
         (failure_reason : json) (w w' : world) (exit : loop_exit),
    retry_loop json_loads re_search py_repr http_post uuid4 utcnow fuel step
      ix step_run context retry_count failure_reason w = (Ok exit, w') ->
    (exists s, failure_reason = JStr s) ->
    (exists s, exit_failure_reason exit = JStr s)
    /\ StepRun.failure_reason (exit_step_run exit)
       = StepRun.failure_reason step_run.
Proof.
  intros Hjudge.
  induction fuel as [| fuel IH];
    intros step_run retry_count failure_reason w w' exit H Htext;
    cbn [retry_loop] in H;
    (destruct (retry_count <=? WorkflowStep.retry_limit step) eqn:G;
     [| unfold ret in H; inversion H; subst; cbn; auto]).
  - discriminate.
  - unfold bind at 1, write_step_run at 1 in H.
    unfold bind at 1, modify at 1 in H. unfold ret at 1 in H.
    unfold bind at 1, try_except at 1, bind at 1 in H.
    match type of H with
    | context [_execute_single_step _ _ _ _ _ _ _ _ _ ?x] => set (w1 := x) in *
    end.
    clearbody w1.
    destruct (_execute_single_step _ _ _ _ _ _ _ _ _ w1) as [a w2] eqn:Ea.
    destruct a as [[[[out extracted] passed] eval_result] | e |];
      [| | discriminate].
    + unfold ret at 1 in H.
      pose proof (execute_single_step_text _ _ _ _ _ _ _ _ _ _ Hjudge Ea)
        as Hnext.
      destruct passed.
      * unfold_M. cbn in H. inversion H; subst exit w'. cbn. auto.
      * unfold bind at 1, write_step_run at 1 in H.
        unfold bind at 1, modify at 1 in H. unfold ret at 1 in H.
        destruct (IH _ _ _ _ _ _ H Hnext) as [A B]. split; [exact A |].
        rewrite B. reflexivity.
    + unfold ret at 1 in H.
      unfold bind at 1, write_step_run at 1 in H.
      unfold bind at 1, modify at 1 in H. unfold ret at 1 in H.
      assert (Hnext : exists s,
                (if py_bool (dict_get [("error", JStr (exn_str e))] "reason" JNull)
                 then dict_get [("error", JStr (exn_str e))] "reason" JNull
                 else JStr (py_repr (JObj [("error", JStr (exn_str e))])))
                = JStr s) by (cbn; eauto).
      destruct (IH _ _ _ _ _ _ H Hnext) as [A B]. split; [exact A |].
      rewrite B. reflexivity.
Qed.

(** The steps of a run without a judge leave texts as failure reasons. *)
Lemma run_steps_text (run_ix : nat) (run : WorkflowRun.t) :
  forall (steps : list WorkflowStep.t) (accumulated_context : option string)
         (w w' : world) (r : result bool),
    Forall (fun step => WorkflowStep.llm_judge_enabled step = false) steps ->
    good_context accumulated_context ->
    Forall text_reason (step_runs (db w)) ->
    run_steps json_loads re_search py_repr http_post uuid4 utcnow run_ix run
      steps accumulated_context w = (r, w') ->
    Forall text_reason (step_runs (db w')).
Proof.
  induction steps as [| step steps IH]; intros acc w w' r Hjudge Hacc Hw H.
  - cbn in H. unfold ret in H. inversion H; subst. exact Hw.
  - apply Forall_cons in Hjudge as [Hstep Hjudge].
    cbn [run_steps] in H.
    unfold bind at 1, new_uuid at 1 in H.
    unfold bind at 1, now at 1 in H.
    unfold bind at 1, get at 1 in H.
    unfold bind at 1, modify at 1, with_db at 1 in H.
    cbn [db http_calls uuids ticks] in H.
    set (sr0 := StepRun.mk (uuid4 (uuids w)) (WorkflowRun.id run)
                  (WorkflowStep.id step) (WorkflowStep.position step)
                  "running" 1 acc None None None None
                  (Some (utcnow (ticks w))) None) in *.
    set (w0 := mk_world (add_step_run sr0 (db w)) (http_calls w)
                 (S (uuids w)) (S (ticks w))) in *.
    assert (Hat0 : at_step (step_runs (db w)) sr0 (db w0) [] w0).
    { unfold at_step. rewrite app_nil_r. subst w0. cbn. repeat split. }
    unfold bind at 1 in H.
    destruct (retry_loop _ _ _ _ _ _ _ _ _ _ _ _ _ w0) as [x w2] eqn:Eloop.
    pose proof Eloop as Eloop'.
    apply (retry_loop_spec _ _ _ _ _ _ _ _ _ _ _ _ _ _ _ _ _ _ Hat0 Hacc)
      in Eloop; [| lia | lia].
    destruct Eloop as (exit & added & -> & Hat2 & Hid & _ & _ & _ & _ & Hctx
                       & Hend).
    destruct (retry_loop_text _ _ _ Hstep _ _ _ _ _ _ _ Eloop')
      as [[s Hs] Hkept]; [exists ""; reflexivity |].
    destruct (exit_passed exit) eqn:Hpassed; cbn [negb] in H.
    + apply (IH _ _ _ _ Hjudge Hctx) in H; [exact H |].
      destruct Hat2 as (_ & _ & _ & D2 & _). rewrite D2.
      apply Forall_app. split; [exact Hw |].
      constructor; [| constructor].
      unfold text_reason. rewrite Hkept. exact I.
    + destruct (write_step_run_at _ _ _ _ (StepRun.set_status "failed") _ Hat2)
        as (w3 & E3 & Hat3).
      unfold bind at 1 in H. rewrite E3 in H.
      destruct (write_step_run_at _ _ _ _
                  (StepRun.set_failure_reason (exit_failure_reason exit)) _ Hat3)
        as (w4 & E4 & Hat4).
      unfold bind at 1 in H. rewrite E4 in H.
      destruct (now_at utcnow _ _ _ _ _ Hat4) as (w5 & E5 & Hat5).
      unfold bind at 1 in H. rewrite E5 in H.
      destruct (write_step_run_at _ _ _ _
                  (StepRun.set_completed_at (utcnow (ticks w4))) _ Hat5)
        as (w6 & E6 & Hat6).
      unfold bind at 1 in H. rewrite E6 in H.
      unfold_M. unfold with_db, update_run in H. cbn in H.
      inversion H; subst r w'. clear H.
      destruct Hat6 as (_ & _ & _ & D6 & _).
      cbn [db step_runs]. rewrite D6.
      apply Forall_app. split; [exact Hw |].
      constructor; [| constructor].
      unfold text_reason. cbn. rewrite Hs. exact I.
Qed.

(** A run of a workflow without a judge leaves texts as failure reasons:
    the first condition of [fits_tables] is then met by the store it
    leaves. *)
Lemma run_workflow_text_reasons (workflow_run_id : string) (w w' : world)
    (r : result unit) :
  Forall (fun step => WorkflowStep.llm_judge_enabled step = false)
    (workflow_steps (db w)) ->
  Forall text_reason (step_runs (db w)) ->
  run_workflow json_loads re_search py_repr http_post uuid4 utcnow
    workflow_run_id w = (r, w') ->
  Forall text_reason (step_runs (db w')).
Proof.
  intros Hjudge Hw E.
  destruct (run_workflow_cases workflow_run_id w)
    as [Hnone | [(ix & run & Hrun & Hs) | (ix & run & Hrun & Hs)]].
  - rewrite run_workflow_skips in E by (rewrite Hnone; exact I).
    inversion E; subst. exact Hw.
  - rewrite run_workflow_skips in E by (rewrite Hrun; exact Hs).
    inversion E; subst. exact Hw.
  - destruct (first_workflow (WorkflowRun.workflow_id run) (db w))
      as [[wf_ix workflow] |] eqn:Hwf.
    + destruct (run_workflow_pending _ _ _ _ _ _ _ _ _ _ _ _ _ _ Hrun Hs Hwf E)
        as (finished & w2 & Hsteps & _ & ->).
      apply run_steps_text in Hsteps; [| | exact I | exact Hw].
      * destruct finished; exact Hsteps.
      * rewrite List.Forall_forall in *. intros step Hin.
        apply In_steps_of in Hin as [Hin _]. auto.
    + destruct (run_workflow_started _ _ _ _ _ _ _ _ _ _ _ _ Hrun Hs E)
        as (trace & f & Hr & _ & _ & _ & _ & _ & D & _).
      destruct Hr as [-> | (m & _ & ->)].
      * exfalso. unfold run_workflow in E.
        unfold bind at 1, get at 1 in E. rewrite Hrun, Hs, Hwf in E.
        cbn [String.eqb Ascii.eqb Bool.eqb negb] in E.
        unfold_M. cbn in E. discriminate.
      * rewrite D. cbn. rewrite app_nil_r. exact Hw.
Qed.

End TextReasons.

(* ===================================================================== *)
(** ** The context a step hands on *)
(* ===================================================================== *)

Section ContextFacts.

Variable json_loads : string -> option json.
Variable re_search : string -> string -> option bool.
Variable py_repr : json -> string.
Variable http_post : nat -> request -> http_outcome.
Variable uuid4 : nat -> string.
Variable utcnow : nat -> Z.

(** The context an attempt returns has more than whitespace in it and, in a
    mode that needs no call of the model, is the extraction of the output or,
    when that is blank, the trimmed output. *)
Lemma execute_single_step_context (step : WorkflowStep.t) (step_run : StepRun.t)
    (input_context retry_feedback : option string) (w w' : world)
    (content extracted : string) (passed : bool) (eval_result : dict) :
  _execute_single_step json_loads re_search py_repr http_post uuid4 step
    step_run input_context retry_feedback w
  = (Ok (content, extracted, passed, eval_result), w') ->
  whitespace_only extracted = false
  /\ (WorkflowStep.context_mode step <> "summary" ->
      extracted = handed_on json_loads (WorkflowStep.context_mode step) content).
Proof.
  intros H. split.
  { apply execute_single_step_spec in H as (_ & _ & _ & H).
    exact (H _ _ _ _ eq_refl). }
  revert H.
  unfold _execute_single_step. unfold bind at 1.
  destruct (_build_messages _ _ _ w) as [[messages | e |] wm]; try discriminate.
  unfold bind at 1.
  destruct (call_llm http_post messages _ _ _ wm)
    as [[[[[[answer in_tok] out_tok] cost] latency] | e |] wc];
    try discriminate.
  unfold bind at 1, new_uuid at 1. unfold bind at 1, modify at 1.
  unfold bind at 1.
  match goal with
  | |- context [evaluate_completion _ _ _ _ _ _ _ _ _ _ ?x] => set (wl := x)
  end.
  destruct (evaluate_completion _ _ _ _ _ _ _ _ _ _ wl)
    as [[[verdict record] | e |] wv]; try discriminate.
  unfold bind at 1.
  destruct (extract_context_async _ _ _ _ _ wv) as [[x | e |] wx] eqn:Ex;
    try discriminate.
  unfold bind at 1.
  assert (Hfull : WorkflowStep.context_mode step = "full" -> x = answer).
  { intros Hfull. apply extract_context_async_effect in Ex as (_ & _ & Ex).
    specialize (Ex Hfull). congruence. }
  rewrite (checked_context_cases step answer x wx Hfull).
  intros H Hmode.
  assert (Hx : x = extract_context json_loads answer
                     (WorkflowStep.context_mode step)).
  { unfold extract_context_async in Ex.
    destruct (String.eqb (WorkflowStep.context_mode step) "summary") eqn:Hs.
    - apply String.eqb_eq in Hs. contradiction.
    - unfold ret in Ex. congruence. }
  unfold handed_on.
  destruct (whitespace_only x) eqn:Bx.
  - destruct (whitespace_only answer); [discriminate |].
    unfold ret in H. inversion H; subst content extracted.
    rewrite <- Hx, Bx. reflexivity.
  - unfold ret in H. inversion H; subst content extracted.
    rewrite <- Hx, Bx. reflexivity.
Qed.

(** The retry loop of a step that passed: the context it hands on is the
    one its [StepRun] holds, and comes from the output stored there. *)
Lemma retry_loop_context (step : WorkflowStep.t) (ix : nat)
    (context : option string) :
  forall (fuel : nat) (step_run : StepRun.t) (retry_count : Z)
         (failure_reason : json) (w w' : world) (exit : loop_exit),
    retry_loop json_loads re_search py_repr http_post uuid4 utcnow fuel step
      ix step_run context retry_count failure_reason w = (Ok exit, w') ->
    exit_passed exit = true ->
    exists (output x : string),
      StepRun.output (exit_step_run exit) = Some output
      /\ StepRun.extracted_context (exit_step_run exit) = Some x
      /\ exit_context exit = Some x
      /\ whitespace_only x = false
      /\ (WorkflowStep.context_mode step <> "summary" ->
          x = handed_on json_loads (WorkflowStep.context_mode step) output).
Proof.
  induction fuel as [| fuel IH];
    intros step_run retry_count failure_reason w w' exit H Hpassed;
    cbn [retry_loop] in H;
    (destruct (retry_count <=? WorkflowStep.retry_limit step) eqn:G;
     [| unfold ret in H; inversion H; subst; discriminate]).
  - discriminate.
  - unfold bind at 1, write_step_run at 1 in H.
    unfold bind at 1, modify at 1 in H. unfold ret at 1 in H.
    unfold bind at 1, try_except at 1, bind at 1 in H.
    match type of H with
    | context [_execute_single_step _ _ _ _ _ _ _ _ _ ?x] => set (w1 := x) in *
    end.
    clearbody w1.
    destruct (_execute_single_step _ _ _ _ _ _ _ _ _ w1) as [a w2] eqn:Ea.
    destruct a as [[[[out extracted] passed] eval_result] | e |];
      [| | discriminate].
    + unfold ret at 1 in H. destruct passed.
      * apply execute_single_step_context in Ea as [Hblank Hmode].
        unfold_M. cbn in H. inversion H; subst exit w'. cbn.
        exists out, extracted. auto.
      * unfold bind at 1, write_step_run at 1 in H.
        unfold bind at 1, modify at 1 in H. unfold ret at 1 in H.
        exact (IH _ _ _ _ _ _ H Hpassed).
    + unfold ret at 1 in H.
      unfold bind at 1, write_step_run at 1 in H.
      unfold bind at 1, modify at 1 in H. unfold ret at 1 in H.
      exact (IH _ _ _ _ _ _ H Hpassed).
Qed.

Lemma context_row_more (steps : list WorkflowStep.t) (step : WorkflowStep.t)
    (row : StepRun.t) :
  context_row json_loads steps row ->
  context_row json_loads (step :: steps) row.
Proof.
  intros H Hdone. destruct (H Hdone) as (s & output & x & Hin & Hrest).
  exists s, output, x. split; [right; exact Hin | exact Hrest].
Qed.

(** The contexts in the rows of [StepRun] that the steps of a run leave. *)
Lemma run_steps_contexts (run_ix : nat) (run : WorkflowRun.t) :
  forall (steps : list WorkflowStep.t) (accumulated_context : option string)
         (w w' : world) (r : result bool),
    good_context accumulated_context ->
    run_steps json_loads re_search py_repr http_post uuid4 utcnow run_ix run
      steps accumulated_context w = (r, w') ->
    exists rows,
      step_runs (db w') = (step_runs (db w) ++ rows)%list
      /\ Forall (context_row json_loads steps) rows.
Proof.
  induction steps as [| step steps IH]; intros acc w w' r Hacc H.
  - cbn in H. unfold ret in H. inversion H; subst.
    exists []. rewrite app_nil_r. auto.
  - cbn [run_steps] in H.
    unfold bind at 1, new_uuid at 1 in H.
    unfold bind at 1, now at 1 in H.
    unfold bind at 1, get at 1 in H.
    unfold bind at 1, modify at 1, with_db at 1 in H.
    cbn [db http_calls uuids ticks] in H.
    set (sr0 := StepRun.mk (uuid4 (uuids w)) (WorkflowRun.id run)
                  (WorkflowStep.id step) (WorkflowStep.position step)
                  "running" 1 acc None None None None
                  (Some (utcnow (ticks w))) None) in *.
    set (w0 := mk_world (add_step_run sr0 (db w)) (http_calls w)
                 (S (uuids w)) (S (ticks w))) in *.
    assert (Hat0 : at_step (step_runs (db w)) sr0 (db w0) [] w0).
    { unfold at_step. rewrite app_nil_r. subst w0. cbn. repeat split. }
    unfold bind at 1 in H.
    destruct (retry_loop _ _ _ _ _ _ _ _ _ _ _ _ _ w0) as [x w2] eqn:Eloop.
    pose proof Eloop as Eloop'.
    apply (retry_loop_spec _ _ _ _ _ _ _ _ _ _ _ _ _ _ _ _ _ _ Hat0 Hacc)
      in Eloop; [| lia | lia].
    destruct Eloop as (exit & added & -> & Hat2 & Hid & _ & _ & _ & _ & Hctx
                       & Hend).
    destruct (exit_passed exit) eqn:Hpassed; cbn [negb] in H.
    + destruct (retry_loop_context _ _ _ _ _ _ _ _ _ _ Eloop' Hpassed)
        as (output & x & Ho & Hx & _ & Hblank & Hmode).
      apply (IH _ _ _ _ Hctx) in H. destruct H as (rows & Hrows & Hall).
      destruct Hat2 as (_ & _ & _ & D2 & _).
      exists (exit_step_run exit :: rows). split.
      * rewrite Hrows, D2, <- app_assoc. reflexivity.
      * constructor.
        -- intros _. exists step, output, x.
           split; [left; reflexivity |].
           split; [symmetry; apply Hid |]. auto.
        -- eapply Forall_impl; [exact Hall |]. intros row.
           apply context_row_more.
    + destruct (write_step_run_at _ _ _ _ (StepRun.set_status "failed") _ Hat2)
        as (w3 & E3 & Hat3).
      unfold bind at 1 in H. rewrite E3 in H.
      destruct (write_step_run_at _ _ _ _
                  (StepRun.set_failure_reason (exit_failure_reason exit)) _ Hat3)
        as (w4 & E4 & Hat4).
      unfold bind at 1 in H. rewrite E4 in H.
      destruct (now_at utcnow _ _ _ _ _ Hat4) as (w5 & E5 & Hat5).
      unfold bind at 1 in H. rewrite E5 in H.
      destruct (write_step_run_at _ _ _ _
                  (StepRun.set_completed_at (utcnow (ticks w4))) _ Hat5)
        as (w6 & E6 & Hat6).
      unfold bind at 1 in H. rewrite E6 in H.
      unfold_M. unfold with_db, update_run in H. cbn in H.
      inversion H; subst r w'. clear H.
      destruct Hat6 as (_ & _ & _ & D6 & _).
      eexists [_]. split; [exact D6 |].
      constructor; [| constructor]. intros Hdone. cbn in Hdone. discriminate.
Qed.

(** The same for an invocation of [run_workflow]. *)
Lemma run_workflow_contexts (workflow_run_id : string) (w w' : world)
    (r : result unit) :
  run_workflow json_loads re_search py_repr http_post uuid4 utcnow
    workflow_run_id w = (r, w') ->
  exists rows,
    step_runs (db w') = (step_runs (db w) ++ rows)%list
    /\ Forall (context_row json_loads (workflow_steps (db w))) rows.
Proof.
  intros E.
  assert (Hnothing : w' = w \/ step_runs (db w') = step_runs (db w) ->
            exists rows,
              step_runs (db w') = (step_runs (db w) ++ rows)%list
              /\ Forall (context_row json_loads (workflow_steps (db w))) rows).
  { intros H. exists []. rewrite app_nil_r. split; [| constructor].
    destruct H as [-> | H]; [reflexivity | exact H]. }
  destruct (run_workflow_cases workflow_run_id w)
    as [Hnone | [(ix & run & Hrun & Hs) | (ix & run & Hrun & Hs)]].
  - apply Hnothing. left.
    rewrite run_workflow_skips in E by (rewrite Hnone; exact I). congruence.
  - apply Hnothing. left.
    rewrite run_workflow_skips in E by (rewrite Hrun; exact Hs). congruence.
  - destruct (first_workflow (WorkflowRun.workflow_id run) (db w))
      as [[wf_ix workflow] |] eqn:Hwf.
    + destruct (run_workflow_pending _ _ _ _ _ _ _ _ _ _ _ _ _ _ Hrun Hs Hwf E)
        as (finished & w2 & Hsteps & _ & ->).
      apply run_steps_contexts in Hsteps; [| exact I].
      destruct Hsteps as (rows & Hrows & Hall).
      exists rows. split.
      { destruct finished; exact Hrows. }
      eapply Forall_impl; [exact Hall |]. cbn.
      intros row Hrow Hdone.
      destruct (Hrow Hdone) as (step & output & x & Hin & Hrest).
      exists step, output, x.
      apply In_steps_of in Hin as [Hin _]. auto.
    + apply Hnothing. right.
      destruct (run_workflow_started _ _ _ _ _ _ _ _ _ _ _ _ Hrun Hs E)
        as (trace & f & Hr & _ & _ & _ & _ & _ & D & _).
      destruct Hr as [-> | (m & _ & ->)].
      * exfalso. unfold run_workflow in E.
        unfold bind at 1, get at 1 in E. rewrite Hrun, Hs, Hwf in E.
        cbn [String.eqb Ascii.eqb Bool.eqb negb] in E.
        unfold_M. cbn in E. discriminate.
      * rewrite D. cbn. apply app_nil_r.
Qed.

(** C4.  An attempt, once the prompt is built, the model has answered, the
    answer is logged and evaluated, and the extraction of the step's mode
    has returned: when the extraction is empty or whitespace-only, the
    attempt returns the trimmed answer as its context, and raises
    [RuntimeError] when the answer is empty or whitespace-only too; otherwise
    it returns the extraction.  The check itself is that fallback and that
    refusal; an attempt that returns, returns a context with more than
    whitespace in it.  In a run, every step receives the context its
    predecessor extracted, which, for a completed step, has more than
    whitespace in it, and is, in the modes that extract without a call of
    the model, the extraction of the output stored with it or, when that is
    blank, that output trimmed. *)
Theorem empty_context_never_propagates :
  (forall step step_run input_context retry_feedback w messages
          content in_tok out_tok cost latency wc passed eval_result wv
          extracted wx,
      _build_messages (WorkflowStep.prompt_template step) input_context
        retry_feedback w = (Ok messages, w) ->
      call_llm http_post messages (WorkflowStep.model step)
        (WorkflowStep.max_tokens step) (WorkflowStep.temperature step) w
      = (Ok (content, in_tok, out_tok, cost, latency), wc) ->
      evaluate_completion json_loads re_search py_repr http_post content
        (WorkflowStep.rule_type step) (WorkflowStep.rule_value step)
        (WorkflowStep.llm_judge_enabled step)
        (WorkflowStep.llm_judge_prompt step) (WorkflowStep.model step)
        (mk_world
           (add_llm_log
              (logged_row step step_run retry_feedback
                 (py_repr (JArr (map message_value messages))) content
                 in_tok out_tok cost latency (uuid4 (uuids wc)))
              (db wc))
           (http_calls wc) (S (uuids wc)) (ticks wc))
      = (Ok (passed, eval_result), wv) ->
      extract_context_async json_loads http_post content
        (WorkflowStep.context_mode step) (WorkflowStep.model step) wv
      = (Ok extracted, wx) ->
      _execute_single_step json_loads re_search py_repr http_post uuid4
        step step_run input_context retry_feedback w
      = (if whitespace_only extracted then
           if whitespace_only content then
             Raise (RuntimeError
                      ("Context extraction failed for step '"
                       ++ WorkflowStep.name step ++ "' (mode="
                       ++ WorkflowStep.context_mode step ++ ")"))
           else Ok (content, strip content, passed, eval_result)
         else Ok (content, extracted, passed, eval_result), wx))
  /\ (forall step content w extracted w1,
         extract_context_async json_loads http_post content
           (WorkflowStep.context_mode step) (WorkflowStep.model step) w
         = (Ok extracted, w1) ->
         checked_context step content extracted w1
         = (if whitespace_only extracted then
              if whitespace_only content then
                Raise (RuntimeError
                         ("Context extraction failed for step '"
                          ++ WorkflowStep.name step ++ "' (mode="
                          ++ WorkflowStep.context_mode step ++ ")"))
              else Ok (strip content)
            else Ok extracted, w1))
  /\ (forall step step_run input_context retry_feedback w w'
             content extracted passed eval_result,
         _execute_single_step json_loads re_search py_repr http_post uuid4
           step step_run input_context retry_feedback w
         = (Ok (content, extracted, passed, eval_result), w') ->
         whitespace_only extracted = false)
  /\ (forall workflow_run_id w r w',
         run_workflow json_loads re_search py_repr http_post uuid4 utcnow
           workflow_run_id w = (r, w') ->
         exists trace : list step_trace,
           step_runs (db w') = (step_runs (db w) ++ map trace_row trace)%list
           /\ contexts_chain None trace
           /\ Forall
                (fun t =>
                   good_context (StepRun.input_context (trace_row t))
                   /\ (StepRun.status (trace_row t) = "completed" ->
                       exists x,
                         StepRun.extracted_context (trace_row t) = Some x
                         /\ whitespace_only x = false))
                trace)
  /\ (forall workflow_run_id w r w',
         run_workflow json_loads re_search py_repr http_post uuid4 utcnow
           workflow_run_id w = (r, w') ->
         exists rows : list StepRun.t,
           step_runs (db w') = (step_runs (db w) ++ rows)%list
           /\ Forall
                (fun row =>
                   StepRun.status row = "completed" ->
                   exists (step : WorkflowStep.t) (output x : string),
                     In step (workflow_steps (db w))
                     /\ WorkflowStep.id step = StepRun.workflow_step_id row
                     /\ StepRun.output row = Some output
                     /\ StepRun.extracted_context row = Some x
                     /\ whitespace_only x = false
                     /\ (WorkflowStep.context_mode step <> "summary" ->
                         x = if whitespace_only
                                  (extract_context json_loads output
                                     (WorkflowStep.context_mode step))
                             then strip output
                             else extract_context json_loads output
                                    (WorkflowStep.context_mode step)))
                rows).
Proof.
  split; [| split; [| split; [| split]]].
  - intros step step_run input_context retry_feedback w messages
      content in_tok out_tok cost latency wc passed eval_result wv
      extracted wx Hm Hc Hv Hx.
    unfold _execute_single_step. unfold bind at 1. rewrite Hm.
    unfold bind at 1. rewrite Hc.
    unfold bind at 1, new_uuid at 1. unfold bind at 1, modify at 1, with_db at 1.
    cbn [db http_calls uuids ticks].
    unfold logged_row in Hv.
    unfold bind at 1. rewrite Hv.
    unfold bind at 1. rewrite Hx.
    unfold bind at 1.
    rewrite checked_context_cases.
    + destruct (whitespace_only extracted), (whitespace_only content);
        reflexivity.
    + intros Hfull.
      apply extract_context_async_effect in Hx as (_ & _ & Hx).
      specialize (Hx Hfull). congruence.
  - intros step content w extracted w1 H.
    apply checked_context_cases. intros Hfull.
    apply extract_context_async_effect in H as (_ & _ & H).
    specialize (H Hfull). congruence.
  - intros step step_run input_context retry_feedback w w'
      content extracted passed eval_result H.
    apply execute_single_step_spec in H as (_ & _ & _ & H).
    exact (H _ _ _ _ eq_refl).
  - intros workflow_run_id w r w' H.
    apply run_workflow_trace in H as (_ & trace & run & A & _ & C & D & _).
    exists trace. split; [exact A |]. split; [exact D |].
    eapply Forall_impl; [exact C |]. cbn.
    intros t (_ & _ & T3 & _ & _ & _ & _ & T8).
    split; [exact T3 |]. intros Hdone.
    destruct T8 as [T8 | [_ T8]]; [| exact T8].
    rewrite Hdone in T8. discriminate.
  - intros workflow_run_id w r w' H.
    apply run_workflow_contexts in H as (rows & Hrows & Hall).
    exists rows. split; [exact Hrows |].
    eapply Forall_impl; [exact Hall |]. cbn.
    intros row Hrow. exact Hrow.
Qed.

End ContextFacts.

(** An attempt in mode [code_only] whose answer has no code block: the
    context it returns is the trimmed answer. *)
Example attempt_falls_back :
  let step := step_ref "s1" 1 0 "code_only" "contains" (Some "pass") in
  match
    fst (_execute_single_step json_loads_ref re_search_literal repr_ref
           (scripted ["  pass, no code  "]) uuid_ref step
           (StepRun.mk "sr" "run" "s1" 1 "running" 1 None None None None None
              None None)
           None None (store_ref [step]))
  with
  | Ok (content, extracted, passed, _) =>
      (content, extracted, passed)
      = ("  pass, no code  ", "pass, no code", true)
  | _ => False
  end.
Proof. vm_compute. reflexivity. Qed.

(** An attempt whose answer is whitespace: nothing to fall back to, the
    attempt raises. *)
Example blank_attempt_raises :
  let step := step_ref "s1" 1 0 "json_only" "contains" (Some "pass") in
  fst (_execute_single_step json_loads_ref re_search_literal repr_ref
         (scripted ["   "]) uuid_ref step
         (StepRun.mk "sr" "run" "s1" 1 "running" 1 None None None None None
            None None)
         None None (store_ref [step]))
  = Raise (RuntimeError
             "Context extraction failed for step 's1' (mode=json_only)").
Proof. vm_compute. reflexivity. Qed.
